(** * Conway's Game of Life on CUDA (main.cu): a shallow embedding

    The development follows main.cu function by function.  C [int]s are
    integers of [Z] with two's-complement wrap-around written out, a board is
    a flat buffer of [ubyte] cells, a C array access outside its buffer is
    undefined and is modelled as [None] in the option monad, and the device
    memory holds the two board buffers that the kernel reads and writes
    through pointers. *)

From Stdlib Require Import ZArith Lia Permutation.
From Stdlib Require Import Strings.Byte Ascii String.
From stdpp Require Import base option list strings.

Local Open Scope Z_scope.

(** ** Machine integers and cells *)

Definition INT_MIN : Z := - 2 ^ 31.
Definition INT_MAX : Z := 2 ^ 31 - 1.

(** 32-bit two's-complement wrap-around of an exact result. *)
Definition int_wrap (z : Z) : Z := (z + 2 ^ 31) mod 2 ^ 32 - 2 ^ 31.

Definition int_add (a b : Z) : Z := int_wrap (a + b).
Definition int_sub (a b : Z) : Z := int_wrap (a - b).
Definition int_mul (a b : Z) : Z := int_wrap (a * b).

(** [typedef unsigned char ubyte;] *)
Abbreviation ubyte := byte (only parsing).

(** Integer promotion of a cell. *)
Definition ubyte_to_int (c : ubyte) : Z := Z.of_N (Byte.to_N c).

Definition dead : ubyte := x00.
Definition alive : ubyte := x01.

(** C truth value of a cell: nonzero. *)
Definition is_set (c : ubyte) : bool := negb (Byte.eqb c x00).

(** [#define BLOCK_SIDE 16] *)
Definition BLOCK_SIDE : Z := 16.

(** ** Buffers

    [rd b i] is the C read [b[i]], [wr b i v] the C write [b[i] = v]; both
    are undefined outside the buffer. *)

Definition rd (b : list ubyte) (i : Z) : option ubyte :=
  if decide (0 <= i) then b !! Z.to_nat i else None.

Definition wr (b : list ubyte) (i : Z) (v : ubyte) : option (list ubyte) :=
  if decide (0 <= i < Z.of_nat (length b))
  then Some (<[Z.to_nat i := v]> b)
  else None.

(** ** Device code *)

(** [getat]: the guarded read of a cell. *)
Definition getat (pboard : list ubyte) (nrows ncols x y : Z) : option ubyte :=
  if (x >=? 0) && (x <? ncols) && (y >=? 0) && (y <? nrows)
  then rd pboard (int_add (int_mul x ncols) y)
  else Some x00.

(** [numneighbors]: eight guarded reads added into an [int]. *)
Definition numneighbors (x y : Z) (pboard : list ubyte) (nrows ncols : Z)
  : option Z :=
  let num := 0 in
  c ← getat pboard nrows ncols (int_sub x 1) y;
  let num := int_add num (ubyte_to_int c) in
  c ← getat pboard nrows ncols (int_add x 1) y;
  let num := int_add num (ubyte_to_int c) in
  c ← getat pboard nrows ncols x (int_sub y 1);
  let num := int_add num (ubyte_to_int c) in
  c ← getat pboard nrows ncols x (int_add y 1);
  let num := int_add num (ubyte_to_int c) in
  c ← getat pboard nrows ncols (int_sub x 1) (int_sub y 1);
  let num := int_add num (ubyte_to_int c) in
  c ← getat pboard nrows ncols (int_sub x 1) (int_add y 1);
  let num := int_add num (ubyte_to_int c) in
  c ← getat pboard nrows ncols (int_add x 1) (int_sub y 1);
  let num := int_add num (ubyte_to_int c) in
  c ← getat pboard nrows ncols (int_add x 1) (int_add y 1);
  let num := int_add num (ubyte_to_int c) in
  Some num.

(** The device memory: the two board buffers of [main], addressed by the
    pointers [pDevBoard0] and [pDevBoard1]. *)
Inductive devptr : Type := pDevBoard0 | pDevBoard1.

Global Instance devptr_eq_dec : EqDecision devptr.
Proof. solve_decision. Defined.

Record device : Type := Device { board0 : list ubyte; board1 : list ubyte }.

Definition buf (m : device) (p : devptr) : list ubyte :=
  match p with pDevBoard0 => board0 m | pDevBoard1 => board1 m end.

Definition set_buf (m : device) (p : devptr) (b : list ubyte) : device :=
  match p with
  | pDevBoard0 => Device b (board1 m)
  | pDevBoard1 => Device (board0 m) b
  end.

Definition load (m : device) (p : devptr) (i : Z) : option ubyte :=
  rd (buf m p) i.

Definition store (m : device) (p : devptr) (i : Z) (v : ubyte)
  : option device :=
  b ← wr (buf m p) i v; Some (set_buf m p b).

(** [blockIdx], [threadIdx], and the [dim3] launch dimensions (the third
    component is 1 throughout and is left out). *)
Record dim3 : Type := Dim3 { dim_x : Z; dim_y : Z }.

(** [simstep]: the work of one thread of the kernel.  ([blockIdx] and
    [threadIdx] are unsigned; the products formed from them and converted to
    [int] are the wrapped exact results, as below.) *)
Definition simstep (nrows ncols : Z) (pCurrBoard pNewBoard : devptr)
    (blockIdx threadIdx : dim3) (m : device) : option device :=
  let x := int_add (int_mul (dim_x blockIdx) BLOCK_SIDE) (dim_x threadIdx) in
  let y := int_add (int_mul (dim_y blockIdx) BLOCK_SIDE) (dim_y threadIdx) in
  let indx := int_add (int_mul x ncols) y in
  c ← load m pCurrBoard indx;
  m ← store m pNewBoard indx c;
  neighbors ← numneighbors x y (buf m pCurrBoard) nrows ncols;
  m ← (if neighbors <? 2 then store m pNewBoard indx x00 else Some m);
  m ← (if neighbors >? 3 then store m pNewBoard indx x00 else Some m);
  if neighbors =? 3
  then c ← load m pCurrBoard indx;
       if negb (is_set c) then store m pNewBoard indx x01 else Some m
  else Some m.

(** ** Kernel launch

    [kernel<<<gridsize, blocksize>>>(...)] runs one thread for every pair of
    a block index below [gridsize] and a thread index below [blocksize].  The
    hardware fixes no order among them; a launch is modelled as the threads
    run one after the other in an order [s] that the environment chooses
    among the permutations of [threads gridsize blocksize]. *)

Definition threads (gridsize blocksize : dim3) : list (dim3 * dim3) :=
  bx ← seqZ 0 (dim_x gridsize);
  by' ← seqZ 0 (dim_y gridsize);
  tx ← seqZ 0 (dim_x blocksize);
  ty ← seqZ 0 (dim_y blocksize);
  [(Dim3 bx by', Dim3 tx ty)].

Definition schedule : Type := list (dim3 * dim3).

Definition valid_schedule (gridsize blocksize : dim3) (s : schedule) : Prop :=
  Permutation s (threads gridsize blocksize).

Fixpoint launch (s : schedule) (kernel : dim3 → dim3 → device → option device)
    (m : device) : option device :=
  match s with
  | [] => Some m
  | (blockIdx, threadIdx) :: s' =>
      m' ← kernel blockIdx threadIdx m; launch s' kernel m'
  end.

(** ** Counted loops

    [for (int i = lo; i < hi; i++) body] with a body that leaves [i] alone
    runs [hi - lo] times (none when [hi <= lo]). *)

Fixpoint for_up {M : Type → Type} `{!MBind M, !MRet M} {S : Type}
    (count : nat) (i : Z) (body : Z → S → M S) (s : S) : M S :=
  match count with
  | O => mret s
  | Datatypes.S k => s' ← body i s; for_up k (i + 1) body s'
  end.

Definition for_range {M : Type → Type} `{!MBind M, !MRet M} {S : Type}
    (lo hi : Z) (body : Z → S → M S) (s : S) : M S :=
  for_up (Z.to_nat (hi - lo)) lo body s.

(** ** Host code *)

(** [randomizeBoard].  The test [rnd >= probability] on the float quotient
    [rand() / (float)RAND_MAX] is taken from the environment: [draws k] is
    its outcome at the [k]-th call of [rand].  The state of the loops is the
    buffer and the number of calls made so far. *)
Definition randomizeBoard (draws : nat → bool) (pboard : list ubyte)
    (nrows ncols : Z) (calls : nat) : option (list ubyte * nat) :=
  for_range 0 ncols (λ x st,
    for_range 0 nrows (λ y '(b, k),
      b' ← wr b (int_add (int_mul x ncols) y)
              (if draws k then x01 else x00);
      Some (b', Datatypes.S k)) st) (pboard, calls).

Definition newline : string := String (ascii_of_nat 10) EmptyString.

(** [printBoard]: the text written to standard output. *)
Definition printBoard (msg : string) (pboard : list ubyte) (nrows ncols : Z)
  : option string :=
  for_range 0 ncols (λ x out,
    out ← for_range 0 nrows (λ y out,
      c ← rd pboard (int_add (int_mul x ncols) y);
      Some (out +:+ (if is_set c then "o " else "  "))) out;
    Some (out +:+ newline)) (msg +:+ newline).

(** [atoi] belongs to the C library.  It is modelled as glibc defines it,
    [(int) strtol (s, NULL, 10)]: leading white space, an optional sign, the
    longest run of decimal digits (value 0 when there is none), saturation
    at the bounds of [long], and the conversion to [int]. *)
Definition is_space (c : ascii) : bool :=
  let n := nat_of_ascii c in
  ((9 <=? n) && (n <=? 13))%nat || (n =? 32)%nat.

Definition digit_of (c : ascii) : option Z :=
  let n := Z.of_nat (nat_of_ascii c) in
  if (48 <=? n) && (n <=? 57) then Some (n - 48) else None.

Fixpoint skip_spaces (s : string) : string :=
  match s with
  | String c r => if is_space c then skip_spaces r else s
  | EmptyString => s
  end.

Fixpoint digits_value (s : string) (acc : Z) : Z :=
  match s with
  | String c r =>
      match digit_of c with
      | Some d => digits_value r (10 * acc + d)
      | None => acc
      end
  | EmptyString => acc
  end.

Definition LONG_MIN : Z := - 2 ^ 63.
Definition LONG_MAX : Z := 2 ^ 63 - 1.

(** The optional sign and what follows it. *)
Definition sign_and_digits (s : string) : bool * string :=
  match s with
  | String c r =>
      if Ascii.eqb c "-" then (true, r)
      else if Ascii.eqb c "+" then (false, r)
      else (false, s)
  | EmptyString => (false, s)
  end.

Definition strtol10 (s : string) : Z :=
  let '(negative, digits) := sign_and_digits (skip_spaces s) in
  let v := digits_value digits 0 in
  Z.max LONG_MIN (Z.min LONG_MAX (if negative then - v else v)).

Definition atoi (s : string) : Z := int_wrap (strtol10 s).

(** ** The program

    What a run does that can be observed: its writes to standard output and
    the kernel launches it issues. *)
Inductive event : Type :=
| Printf_running (ngenerations : Z)
| PrintBoard (msg : string) (board : list ubyte) (text : string)
| Launch (gen : Z) (pcurr pnext : devptr)
| Printf_newline
| Printf_summary (ngenerations : Z).

(** A computation of [main]: it extends the trace of events and either
    yields a value or runs into undefined behaviour ([None]). *)
Definition run (A : Type) : Type := list event → list event * option A.

Global Instance run_ret : MRet run := λ A a tr, (tr, Some a).

Global Instance run_bind : MBind run := λ A B f c tr,
  match c tr with
  | (tr', Some a) => f a tr'
  | (tr', None) => (tr', None)
  end.

Definition emit (e : event) : run unit := λ tr, (tr ++ [e], Some tt).

(** An operation of the option monad inside a run. *)
Definition lift {A : Type} (o : option A) : run A := λ tr, (tr, o).

(** Use of a pointer variable that an allocation was to set ([pboard],
    [pDevBoard0], [pDevBoard1]) or that the loop was to assign ([pcurr]).
    [main] tests none of them: where the allocation failed or the assignment
    never ran, the pointer is null or indeterminate and its use is undefined
    behaviour. *)
Definition deref {A : Type} (p : option A) : run A := lift p.

(** What a run takes from outside the program. *)
Record environment : Type := Environment {
  (** does [malloc] succeed; do the two [cudaMalloc] calls *)
  malloc_ok : bool;
  cudaMalloc0_ok : bool;
  cudaMalloc1_ok : bool;
  (** indeterminate contents of freshly allocated memory *)
  fresh : nat → ubyte;
  (** outcomes of the tests on [rand()], after [srand(time(0))] *)
  draws : nat → bool;
  (** the order of the threads in the launch of generation [gen] *)
  thread_order : Z → schedule
}.

(** [malloc] and [cudaMalloc]: a buffer of [size] cells with indeterminate
    contents, or no buffer ([malloc] returns [NULL]; [cudaMalloc] returns an
    error status, which [main] drops, and leaves its pointer unset). *)
Definition alloc (ok : bool) (contents : nat → ubyte) (size : Z)
  : option (list ubyte) :=
  if ok then Some (contents <$> seq 0 (Z.to_nat size)) else None.

(** [cudaMemcpy (dst, src, count, _)] and [cudaMemset (dst, value, count)]
    on whole buffers. *)
Definition cudaMemcpy (dst src : list ubyte) (count : Z) : list ubyte :=
  take (Z.to_nat count) src ++ drop (Z.to_nat count) dst.

Definition cudaMemset (dst : list ubyte) (value : ubyte) (count : Z)
  : list ubyte :=
  replicate (Z.to_nat count) value ++ drop (Z.to_nat count) dst.

Definition boardW : Z := 64.
Definition boardH : Z := 64.

Definition blocksize : dim3 := Dim3 BLOCK_SIDE BLOCK_SIDE.
Definition gridsize : dim3 :=
  Dim3 (Z.quot boardW BLOCK_SIDE) (Z.quot boardH BLOCK_SIDE).

(** The state of the generation loop: the host board, the device memory and
    the two pointer variables [pcurr] and [pnext], unassigned before the
    first iteration. *)
Record loop_state : Type := LoopState {
  ls_pboard : list ubyte;
  ls_dev : device;
  ls_pcurr : option devptr;
  ls_pnext : option devptr
}.

(** The body of the generation loop.  [PRINT_BOARDS] is the compile-time
    switch of the same name (the Makefile leaves it off). *)
Definition generation_body (PRINT_BOARDS : bool) (e : environment)
    (gen : Z) (st : loop_state) : run loop_state :=
  let '(pcurr, pnext) :=
    if Z.rem gen 2 =? 0 then (pDevBoard0, pDevBoard1)
    else (pDevBoard1, pDevBoard0) in
  _ ← emit (Launch gen pcurr pnext);
  m ← lift (launch (thread_order e gen) (simstep boardH boardW pcurr pnext)
              (ls_dev st));
  pboard ←
    (if PRINT_BOARDS then
       let pboard :=
         cudaMemcpy (ls_pboard st) (buf m pnext) (boardH * boardW * 1) in
       _ ← for_range 0 24 (λ _ u, emit Printf_newline) tt;
       text ← lift (printBoard " " pboard boardH boardW);
       _ ← emit (PrintBoard " " pboard text);
       mret pboard
     else mret (ls_pboard st));
  mret (LoopState pboard m (Some pcurr) (Some pnext)).

(** The generation count that [main] takes from its command line: [argv]
    holds the program name and the arguments. *)
Definition ngenerations_of (argv : list string) : Z :=
  let argc := Z.of_nat (length argv) in
  let ngenerations := 1000000 in
  if argc >? 1 then atoi (default EmptyString (argv !! 1%nat))
  else ngenerations.

(** [main].  The elapsed time of the summary line is real time and is left
    out of the event; [cudaFree] and [free] at the end leave no trace. *)
Definition main (PRINT_BOARDS : bool) (argv : list string) (e : environment)
  : run Z :=
  let ngenerations := ngenerations_of argv in
  _ ← emit (Printf_running ngenerations);
  let pboard := alloc (malloc_ok e) (fresh e) (boardW * boardH * 1) in
  pboard ← deref pboard;
  '(pboard, _) ← lift (randomizeBoard (draws e) pboard boardH boardW 0);
  text ← lift (printBoard "Initial Board:" pboard boardH boardW);
  _ ← emit (PrintBoard "Initial Board:" pboard text);
  let pDevBoard0 := alloc (cudaMalloc0_ok e) (fresh e) (boardW * boardH * 1) in
  dev0 ← deref pDevBoard0;
  let dev0 := cudaMemcpy dev0 pboard (boardH * boardW * 1) in
  let pDevBoard1 := alloc (cudaMalloc1_ok e) (fresh e) (boardW * boardH * 1) in
  dev1 ← deref pDevBoard1;
  let dev1 := cudaMemset dev1 x00 (boardH * boardW * 1) in
  st ← for_range 0 ngenerations (generation_body PRINT_BOARDS e)
         (LoopState pboard (Device dev0 dev1) None None);
  pcurr ← deref (ls_pcurr st);
  let pboard :=
    cudaMemcpy (ls_pboard st) (buf (ls_dev st) pcurr) (boardW * boardH * 1) in
  text ← lift (printBoard "Resulting Board:" pboard boardH boardW);
  _ ← emit (PrintBoard "Resulting Board:" pboard text);
  _ ← emit (Printf_summary ngenerations);
  mret 0.

(** * Vocabulary of the statements

    What the theorems below are stated with: the cells of a board, the
    closed form of one generation, the shape of a run of [main], and the
    boards and environments of the examples. *)

(** The coordinates that [getat] lets through to the buffer. *)
Definition in_range (nrows ncols x y : Z) : Prop :=
  0 <= x < ncols ∧ 0 <= y < nrows.

(** The cell that the code keeps for [(x, y)]: the element at [x * ncols + y]. *)
Definition cell (b : list ubyte) (ncols x y : Z) : ubyte :=
  default x00 (b !! Z.to_nat (x * ncols + y)).

(** The value of a guarded read: the cell inside, dead outside. *)
Definition guarded (b : list ubyte) (nrows ncols x y : Z) : ubyte :=
  if (x >=? 0) && (x <? ncols) && (y >=? 0) && (y <? nrows)
  then cell b ncols x y else x00.

(** Every cell is 0 or 1. *)
Definition binary (b : list ubyte) : Prop :=
  Forall (λ c, c = x00 ∨ c = x01) b.

(** Counting by hand: 1 for a live cell, and the nine cells of a 3x3 block. *)
Definition live_at (b : list ubyte) (ncols x y : Z) : Z :=
  if is_set (cell b ncols x y) then 1 else 0.

Definition live_in_3x3 (b : list ubyte) (ncols x y : Z) : Z :=
  foldr Z.add 0
    ((λ d : Z * Z, live_at b ncols (x + d.1) (y + d.2)) <$>
       [(-1, -1); (-1, 0); (-1, 1); (0, -1); (0, 0); (0, 1);
        (1, -1); (1, 0); (1, 1)]).

(** The eight positions around [(x, y)], and the number of them that lie
    on a board of side [n] and hold a live cell there. *)
Definition around (x y : Z) : list (Z * Z) :=
  [(x - 1, y); (x + 1, y); (x, y - 1); (x, y + 1);
   (x - 1, y - 1); (x - 1, y + 1); (x + 1, y - 1); (x + 1, y + 1)].

Definition on_board (n : Z) (p : Z * Z) : bool :=
  (0 <=? p.1) && (p.1 <? n) && (0 <=? p.2) && (p.2 <? n).

Definition live_neighbors (b : list ubyte) (n x y : Z) : Z :=
  Z.of_nat (length (List.filter
                      (λ p, on_board n p && is_set (cell b n p.1 p.2))
                      (around x y))).

(** The sum that [numneighbors] forms, in the order of the code. *)
Definition neighbor_sum (b : list ubyte) (nrows ncols x y : Z) : Z :=
  ubyte_to_int (guarded b nrows ncols (x - 1) y)
  + ubyte_to_int (guarded b nrows ncols (x + 1) y)
  + ubyte_to_int (guarded b nrows ncols x (y - 1))
  + ubyte_to_int (guarded b nrows ncols x (y + 1))
  + ubyte_to_int (guarded b nrows ncols (x - 1) (y - 1))
  + ubyte_to_int (guarded b nrows ncols (x - 1) (y + 1))
  + ubyte_to_int (guarded b nrows ncols (x + 1) (y - 1))
  + ubyte_to_int (guarded b nrows ncols (x + 1) (y + 1)).

(** The value that the writes of [simstep] leave behind, as a function of
    the current cell and of the neighbour count: the first write copies the
    cell, the three conditional writes override it in turn. *)
Definition next_cell (c : ubyte) (neighbors : Z) : ubyte :=
  let v := c in
  let v := if neighbors <? 2 then x00 else v in
  let v := if neighbors >? 3 then x00 else v in
  if (neighbors =? 3) && negb (is_set c) then x01 else v.

(** The cell that a thread works on. *)
Definition thread_cell (blockIdx threadIdx : dim3) : Z * Z :=
  (dim_x blockIdx * BLOCK_SIDE + dim_x threadIdx,
   dim_y blockIdx * BLOCK_SIDE + dim_y threadIdx).

(** A run of writes [(index, value)] into a buffer. *)
Definition apply_writes (l : list ubyte) (ws : list (nat * ubyte))
  : list ubyte :=
  foldl (λ l w, <[w.1 := w.2]> l) l ws.

(** The board after one generation, cell by cell: the closed form of what a
    launch of [simstep] leaves in the new buffer ([launch_generation]
    below). *)
Definition generation (n : Z) (curr : list ubyte) : list ubyte :=
  (λ i : nat,
     let x := Z.of_nat i / n in
     let y := Z.of_nat i mod n in
     next_cell (cell curr n x y) (neighbor_sum curr n n x y))
  <$> seq 0 (Z.to_nat (n * n)).

(** The write that a thread leaves in the new buffer. *)
Definition thread_write (n : Z) (curr : list ubyte) (bt : dim3 * dim3)
  : nat * ubyte :=
  let x := (thread_cell bt.1 bt.2).1 in
  let y := (thread_cell bt.1 bt.2).2 in
  (Z.to_nat (x * n + y),
   next_cell (cell curr n x y) (neighbor_sum curr n n x y)).

(** A thread of non-negative indices whose cell is on the board. *)
Definition thread_in_board (n : Z) (bt : dim3 * dim3) : Prop :=
  (0 <= dim_x bt.1 ∧ 0 <= dim_x bt.2 ∧ 0 <= dim_y bt.1 ∧ 0 <= dim_y bt.2)
  ∧ in_range n n (thread_cell bt.1 bt.2).1 (thread_cell bt.1 bt.2).2.

(** The launch dimensions of [main] for a board of side [n]. *)
Definition grid_of (n : Z) : dim3 :=
  Dim3 (Z.quot n BLOCK_SIDE) (Z.quot n BLOCK_SIDE).

(** The board that [randomizeBoard] fills in from the draws. *)
Definition randomized (draws : nat → bool) (calls : nat) (n : Z)
  : list ubyte :=
  (λ i : nat, if draws (calls + i)%nat then x01 else x00)
  <$> seq 0 (Z.to_nat (n * n)).

(** The buffer that the launch of generation [gen] reads. *)
Definition ptr_at (gen : Z) : devptr :=
  if Z.rem gen 2 =? 0 then pDevBoard0 else pDevBoard1.

(** The environment lets every allocation succeed. *)
Definition all_allocated (e : environment) : Prop :=
  malloc_ok e = true ∧ cudaMalloc0_ok e = true ∧ cudaMalloc1_ok e = true.

(** Every launch runs each of its threads once. *)
Definition fair (e : environment) : Prop :=
  ∀ gen, valid_schedule gridsize blocksize (thread_order e gen).

(** The three buffers have the size [main] allocates. *)
Definition sized (st : loop_state) : Prop :=
  Z.of_nat (length (ls_pboard st)) = boardW * boardW
  ∧ Z.of_nat (length (board0 (ls_dev st))) = boardW * boardW
  ∧ Z.of_nat (length (board1 (ls_dev st))) = boardW * boardW.

(** The board that [main] starts from. *)
Definition initial_board (e : environment) : list ubyte :=
  randomized (draws e) 0 boardW.

(** Boards given by a predicate on the coordinates: live where it holds. *)
Definition cell_of_bool (a : bool) : ubyte := if a then x01 else x00.

Definition board_of (n : Z) (live : Z → Z → bool) : list ubyte :=
  (λ i : nat, cell_of_bool (live (Z.of_nat i / n) (Z.of_nat i mod n)))
  <$> seq 0 (Z.to_nat (n * n)).

(** The board of side [n] without a live cell. *)
Definition all_dead (n : Z) : list ubyte := replicate (Z.to_nat (n * n)) x00.

(** An environment in which every launch runs its threads in the order of
    the thread list. *)
Definition in_order (malloc_ok cuda0_ok cuda1_ok : bool) (d : nat → bool)
  : environment :=
  Environment malloc_ok cuda0_ok cuda1_ok (λ _, x00) d
    (λ _, threads gridsize blocksize).

(** The axis of a line of three cells: along [y] (at fixed [x], printed by
    [printBoard] on one line of output) or along [x]. *)
Inductive orientation : Type := Along_y | Along_x.

Definition turn (o : orientation) : orientation :=
  match o with Along_y => Along_x | Along_x => Along_y end.

(** The three cells centred on [(cx, cy)]. *)
Definition blinker (o : orientation) (cx cy x y : Z) : bool :=
  match o with
  | Along_y => (x =? cx) && (cy - 1 <=? y) && (y <=? cy + 1)
  | Along_x => (y =? cy) && (cx - 1 <=? x) && (x <=? cx + 1)
  end.

(** Every draw gives a live cell: the board starts all alive. *)
Definition all_alive_run : environment :=
  in_order true true true (λ _, true).

(** Some allocation of the run fails. *)
Definition allocation_fails (e : environment) : Prop :=
  malloc_ok e && cudaMalloc0_ok e && cudaMalloc1_ok e = false.

(** The claim as the specification has it: a run with a failed allocation
    ends by [main] returning a failure code, before any launch. *)
Definition aborts_before_launch (r : list event * option Z) : Prop :=
  (∃ code, r.2 = Some code ∧ code ≠ 0)
  ∧ ∀ gen pcurr pnext, Launch gen pcurr pnext ∉ r.1.

(** No host memory. *)
Definition no_host_memory : environment :=
  in_order false true true (λ _, true).

(** An argument that is no number: after the white space and the optional
    sign, no decimal digit comes first. *)
Definition non_numeric (s : string) : Prop :=
  match (sign_and_digits (skip_spaces s)).2 with
  | String c _ => digit_of c = None
  | EmptyString => True
  end.

(** The side of the square of cells that the launch of [main] reaches on a
    board of side [n]: whole tiles only. *)
Definition covered (n : Z) : Z := Z.quot n BLOCK_SIDE * BLOCK_SIDE.

(** The 2x2 block of live cells with [(cx, cy)] as its first corner. *)
Definition block (cx cy x y : Z) : bool :=
  (cx <=? x) && (x <=? cx + 1) && (cy <=? y) && (y <=? cy + 1).

(** Two boards agree on the cells of the board at distance at most 1 from
    [(x, y)]. *)
Definition same_around (n : Z) (b1 b2 : list ubyte) (x y : Z) : Prop :=
  ∀ x' y', in_range n n x' y' → x - 1 <= x' <= x + 1 → y - 1 <= y' <= y + 1 →
           cell b1 n x' y' = cell b2 n x' y'.

(** The text that [printBoard] writes for a board of [main]. *)
Definition board_text (msg : string) (b : list ubyte) : string :=
  default EmptyString (printBoard msg b boardH boardW).

(** What one turn of the generation loop leaves in the trace when it starts
    from the board [b], and what [count] turns leave. *)
Definition turn_events (PB : bool) (gen : Z) (b : list ubyte) : list event :=
  Launch gen (ptr_at gen) (ptr_at (gen + 1))
  :: (if PB
      then replicate 24 Printf_newline
           ++ [PrintBoard " " (generation boardW b)
                 (board_text " " (generation boardW b))]
      else []).

Fixpoint loop_events (PB : bool) (count : nat) (gen : Z) (b : list ubyte)
  : list event :=
  match count with
  | O => []
  | S k => turn_events PB gen b
           ++ loop_events PB k (gen + 1) (generation boardW b)
  end.

(** The statements of [main] after the generation loop. *)
Definition main_after_loop (ngenerations : Z) (st : loop_state) : run Z :=
  pcurr ← deref (ls_pcurr st);
  let pboard :=
    cudaMemcpy (ls_pboard st) (buf (ls_dev st) pcurr) (boardW * boardH * 1) in
  text ← lift (printBoard "Resulting Board:" pboard boardH boardW);
  _ ← emit (PrintBoard "Resulting Board:" pboard text);
  _ ← emit (Printf_summary ngenerations);
  mret 0.

(** A run of [main] whose behaviour is defined to the end: it uses no null
    or unassigned pointer and accesses no buffer out of bounds, and so comes
    to the [return] of [main].  (Where the behaviour is undefined the
    embedding follows the run no further; it says nothing about what a
    compiled program does from there.) *)
Definition well_defined (r : list event * option Z) : Prop :=
  ∃ code, r.2 = Some code.

(** The character that [printBoard] writes for a cell, the position of the
    field of the cell [(x, y)] in the text for a board of side [n] under a
    message of [len] characters, and the position of the end of line [x]. *)
Definition mark (c : ubyte) : ascii := if is_set c then "o"%char else " "%char.

Definition field_position (len : nat) (n x y : Z) : nat :=
  Z.to_nat (Z.of_nat len + 1 + x * (2 * n + 1) + 2 * y).

Definition line_end (len : nat) (n x : Z) : nat :=
  Z.to_nat (Z.of_nat len + 1 + x * (2 * n + 1) + 2 * n).

(** The text written so far, when [printBoard] has done the lines before
    [x] and the cells before [y] of line [x]. *)
Definition printed_up_to (msg : string) (b : list ubyte) (n x y : Z)
    (out : string) : Prop :=
  Z.of_nat (String.length out)
  = Z.of_nat (String.length msg) + 1 + x * (2 * n + 1) + 2 * y
  ∧ (∀ p c, String.get p (msg +:+ newline) = Some c →
            String.get p out = Some c)
  ∧ (∀ x' y', 0 <= x' → 0 <= y' < n → x' < x ∨ (x' = x ∧ y' < y) →
       String.get (field_position (String.length msg) n x' y') out
       = Some (mark (cell b n x' y'))
       ∧ String.get (S (field_position (String.length msg) n x' y')) out
         = Some " "%char)
  ∧ (∀ x', 0 <= x' < x →
       String.get (line_end (String.length msg) n x') out
       = Some (ascii_of_nat 10)).

(** The board with the two coordinates exchanged. *)
Definition transpose (n : Z) (b : list ubyte) : list ubyte :=
  (λ i : nat, cell b n (Z.of_nat i mod n) (Z.of_nat i / n))
  <$> seq 0 (Z.to_nat (n * n)).

(** * Properties *)

(** ** Machine integers *)

Lemma int_wrap_id (z : Z) : INT_MIN <= z <= INT_MAX → int_wrap z = z.
Proof.
  unfold INT_MIN, INT_MAX, int_wrap. intros Hz.
  rewrite Z.mod_small by lia. lia.
Qed.

Lemma int_add_id (a b : Z) : INT_MIN <= a + b <= INT_MAX → int_add a b = a + b.
Proof. apply int_wrap_id. Qed.

Lemma int_sub_id (a b : Z) : INT_MIN <= a - b <= INT_MAX → int_sub a b = a - b.
Proof. apply int_wrap_id. Qed.

Lemma int_mul_id (a b : Z) : INT_MIN <= a * b <= INT_MAX → int_mul a b = a * b.
Proof. apply int_wrap_id. Qed.

Lemma ubyte_to_int_range (c : ubyte) : 0 <= ubyte_to_int c <= 255.
Proof.
  unfold ubyte_to_int. pose proof (Byte.to_N_bounded c). lia.
Qed.

Lemma is_set_false (c : ubyte) : is_set c = false ↔ c = x00.
Proof.
  unfold is_set. rewrite negb_false_iff. split.
  - apply Byte.byte_dec_bl.
  - apply Byte.byte_dec_lb.
Qed.

Lemma is_set_true (c : ubyte) : is_set c = true ↔ c ≠ x00.
Proof.
  rewrite <- is_set_false. destruct (is_set c); split; congruence.
Qed.

(** The flat index of a cell in range, without wrap-around, when the
    dimensions leave the products inside [int]. *)
Lemma flat_index_id (ncols bound x y : Z) :
  0 <= x → 0 <= y → x * ncols + y < bound → 0 <= ncols → bound <= INT_MAX →
  int_add (int_mul x ncols) y = x * ncols + y.
Proof.
  intros Hx Hy Hlt Hn Hb. unfold INT_MAX in Hb.
  assert (0 <= x * ncols) by nia.
  rewrite int_mul_id by (unfold INT_MIN, INT_MAX; lia).
  apply int_add_id. unfold INT_MIN, INT_MAX; lia.
Qed.

(** ** Buffers *)

Lemma rd_lookup (b : list ubyte) (i : Z) :
  0 <= i → rd b i = b !! Z.to_nat i.
Proof. intros Hi. unfold rd. by rewrite decide_True. Qed.

Lemma rd_is_Some (b : list ubyte) (i : Z) :
  is_Some (rd b i) ↔ 0 <= i < Z.of_nat (length b).
Proof.
  unfold rd. case_decide.
  - rewrite lookup_lt_is_Some. lia.
  - split; [intros [c Hc]; discriminate | lia].
Qed.

Lemma rd_negative (b : list ubyte) (i : Z) : i < 0 → rd b i = None.
Proof. intros Hi. unfold rd. rewrite decide_False; [done | lia]. Qed.

Lemma rd_beyond (b : list ubyte) (i : Z) :
  Z.of_nat (length b) <= i → rd b i = None.
Proof.
  intros Hi. unfold rd. case_decide; [| done].
  apply lookup_ge_None_2. lia.
Qed.

Lemma wr_in_range (b : list ubyte) (i : Z) (v : ubyte) :
  0 <= i < Z.of_nat (length b) → wr b i v = Some (<[Z.to_nat i := v]> b).
Proof. intros Hi. unfold wr. by rewrite decide_True. Qed.

Lemma wr_is_Some (b : list ubyte) (i : Z) (v : ubyte) :
  is_Some (wr b i v) ↔ 0 <= i < Z.of_nat (length b).
Proof.
  unfold wr. case_decide; split; done.
Qed.

Lemma wr_length (b b' : list ubyte) (i : Z) (v : ubyte) :
  wr b i v = Some b' → length b' = length b.
Proof.
  unfold wr. case_decide; [| done]. intros [= <-]. apply length_insert.
Qed.

Lemma buf_set_buf_eq (m : device) (p : devptr) (b : list ubyte) :
  buf (set_buf m p b) p = b.
Proof. by destruct p. Qed.

Lemma buf_set_buf_ne (m : device) (p q : devptr) (b : list ubyte) :
  p ≠ q → buf (set_buf m p b) q = buf m q.
Proof. by destruct p, q. Qed.

Lemma set_buf_set_buf (m : device) (p : devptr) (b b' : list ubyte) :
  set_buf (set_buf m p b) p b' = set_buf m p b'.
Proof. by destruct p. Qed.

Lemma set_buf_id (m : device) (p : devptr) : set_buf m p (buf m p) = m.
Proof. by destruct m, p. Qed.

Lemma store_in_range (m : device) (p : devptr) (i : Z) (v : ubyte) :
  0 <= i < Z.of_nat (length (buf m p)) →
  store m p i v = Some (set_buf m p (<[Z.to_nat i := v]> (buf m p))).
Proof. intros Hi. unfold store. by rewrite wr_in_range. Qed.

Lemma store_set_buf (m : device) (p : devptr) (b : list ubyte) (i : Z)
    (v : ubyte) :
  0 <= i < Z.of_nat (length b) →
  store (set_buf m p b) p i v = Some (set_buf m p (<[Z.to_nat i := v]> b)).
Proof.
  intros Hi. rewrite store_in_range by (by rewrite buf_set_buf_eq).
  by rewrite buf_set_buf_eq, set_buf_set_buf.
Qed.

Lemma load_set_buf_ne (m : device) (p q : devptr) (b : list ubyte) (i : Z) :
  p ≠ q → load (set_buf m p b) q i = load m q i.
Proof. intros Hne. unfold load. by rewrite buf_set_buf_ne. Qed.

(** ** Guarded reads and the neighbour sum *)

Lemma in_range_guard (nrows ncols x y : Z) :
  (x >=? 0) && (x <? ncols) && (y >=? 0) && (y <? nrows) = true
  ↔ in_range nrows ncols x y.
Proof. unfold in_range. rewrite !andb_true_iff. lia. Qed.

Lemma guarded_inside (b : list ubyte) (nrows ncols x y : Z) :
  in_range nrows ncols x y → guarded b nrows ncols x y = cell b ncols x y.
Proof.
  intros H. unfold guarded. apply in_range_guard in H. by rewrite H.
Qed.

Lemma guarded_outside (b : list ubyte) (nrows ncols x y : Z) :
  ¬ in_range nrows ncols x y → guarded b nrows ncols x y = x00.
Proof.
  intros H. unfold guarded.
  destruct ((x >=? 0) && (x <? ncols) && (y >=? 0) && (y <? nrows)) eqn:E;
    [| done].
  by apply in_range_guard in E.
Qed.

(** Outside the range [getat] answers 0 and never looks at the buffer: the
    answer is the same whatever the buffer, the empty one included. *)
Lemma getat_outside (b : list ubyte) (nrows ncols x y : Z) :
  ¬ in_range nrows ncols x y → getat b nrows ncols x y = Some x00.
Proof.
  intros H. unfold getat.
  destruct ((x >=? 0) && (x <? ncols) && (y >=? 0) && (y <? nrows)) eqn:E;
    [| done].
  by apply in_range_guard in E.
Qed.

(** Inside the range the read is at [x * ncols + y]; it stays inside a
    buffer of [nrows * ncols] cells as long as [ncols <= nrows]. *)
Lemma flat_index_bound (nrows ncols x y : Z) :
  ncols <= nrows → in_range nrows ncols x y →
  0 <= x * ncols + y < nrows * ncols.
Proof. unfold in_range. intros Hle [Hx Hy]. nia. Qed.

Lemma getat_inside (b : list ubyte) (nrows ncols x y : Z) :
  ncols <= nrows → nrows * ncols <= INT_MAX →
  Z.of_nat (length b) = nrows * ncols →
  in_range nrows ncols x y →
  getat b nrows ncols x y = Some (cell b ncols x y)
  ∧ b !! Z.to_nat (x * ncols + y) = Some (cell b ncols x y).
Proof.
  intros Hle Hmax Hlen Hin.
  pose proof (flat_index_bound _ _ _ _ Hle Hin) as Hidx.
  assert (is_Some (b !! Z.to_nat (x * ncols + y))) as [c Hc]
    by (apply lookup_lt_is_Some; lia).
  unfold getat, cell.
  pose proof Hin as Hg. apply in_range_guard in Hg. rewrite Hg.
  destruct Hin as [Hx Hy].
  rewrite (flat_index_id ncols (nrows * ncols)) by lia.
  rewrite rd_lookup by lia. by rewrite Hc.
Qed.

Lemma getat_guarded (b : list ubyte) (nrows ncols x y : Z) :
  ncols <= nrows → nrows * ncols <= INT_MAX →
  Z.of_nat (length b) = nrows * ncols →
  getat b nrows ncols x y = Some (guarded b nrows ncols x y).
Proof.
  intros Hle Hmax Hlen.
  destruct (decide (in_range nrows ncols x y)) as [Hin | Hout].
  - rewrite guarded_inside by done. by apply getat_inside.
  - rewrite guarded_outside by done. by apply getat_outside.
Qed.

Lemma neighbor_sum_range (b : list ubyte) (nrows ncols x y : Z) :
  0 <= neighbor_sum b nrows ncols x y <= 2040.
Proof.
  unfold neighbor_sum.
  repeat match goal with
         | |- context [ubyte_to_int ?c] =>
             let H := fresh in
             pose proof (ubyte_to_int_range c) as H;
             generalize dependent (ubyte_to_int c); intros
         end.
  lia.
Qed.

Lemma numneighbors_sum (b : list ubyte) (nrows ncols x y : Z) :
  ncols <= nrows → nrows * ncols <= INT_MAX →
  Z.of_nat (length b) = nrows * ncols →
  INT_MIN < x < INT_MAX → INT_MIN < y < INT_MAX →
  numneighbors x y b nrows ncols = Some (neighbor_sum b nrows ncols x y).
Proof.
  intros Hle Hmax Hlen Hx Hy. unfold numneighbors.
  rewrite !int_sub_id, !int_add_id by lia.
  rewrite !getat_guarded by done. simpl. f_equal.
  unfold neighbor_sum.
  repeat match goal with
         | |- context [ubyte_to_int ?c] =>
             let H := fresh in
             pose proof (ubyte_to_int_range c) as H;
             generalize dependent (ubyte_to_int c); intros
         end.
  repeat match goal with
         | |- context [int_add ?u ?v] =>
             rewrite (int_add_id u v) by (unfold INT_MIN, INT_MAX; lia)
         end.
  lia.
Qed.

(** ** One thread of [simstep] *)

Section Square.
(** A square board of side [n], small enough for [int] indices: the
    boards of [main] have [n = boardW = boardH = 64]. *)
Variable n : Z.
Hypothesis n_pos : 0 < n.
Hypothesis n_int : n * n <= INT_MAX.

Lemma side_int : n <= INT_MAX.
Proof. nia. Qed.

Lemma square_index_bound (x y : Z) :
  in_range n n x y → 0 <= x * n + y < n * n.
Proof. apply flat_index_bound. lia. Qed.

(** Distinct cells in range have distinct flat indices. *)
Lemma square_index_inj (x1 y1 x2 y2 : Z) :
  in_range n n x1 y1 → in_range n n x2 y2 →
  x1 * n + y1 = x2 * n + y2 → x1 = x2 ∧ y1 = y2.
Proof.
  unfold in_range. intros [? ?] [? ?] Heq.
  assert (x1 = x2) as -> by (destruct (Z.lt_trichotomy x1 x2) as [|[|]]; nia).
  lia.
Qed.

Lemma simstep_thread (pcurr pnext : devptr) (blk thr : dim3) (m : device)
    (x y : Z) :
  pcurr ≠ pnext →
  Z.of_nat (length (buf m pcurr)) = n * n →
  Z.of_nat (length (buf m pnext)) = n * n →
  0 <= dim_x blk → 0 <= dim_x thr → 0 <= dim_y blk → 0 <= dim_y thr →
  thread_cell blk thr = (x, y) →
  in_range n n x y →
  simstep n n pcurr pnext blk thr m
  = Some (set_buf m pnext
            (<[Z.to_nat (x * n + y) :=
                 next_cell (cell (buf m pcurr) n x y)
                   (neighbor_sum (buf m pcurr) n n x y)]> (buf m pnext))).
Proof using n_pos n_int.
  intros Hne Hlc Hln Hbx Htx Hby Hty Hcell Hin.
  pose proof side_int as Hside.
  assert (pnext ≠ pcurr) as Hne' by congruence.
  pose proof (square_index_bound _ _ Hin) as Hidx.
  unfold thread_cell, BLOCK_SIDE in Hcell. injection Hcell as Hx Hy.
  destruct Hin as [Hxr Hyr].
  unfold simstep, BLOCK_SIDE. cbv zeta.
  rewrite (flat_index_id 16 n (dim_x blk) (dim_x thr)) by lia.
  rewrite (flat_index_id 16 n (dim_y blk) (dim_y thr)) by lia.
  rewrite Hx, Hy.
  rewrite (flat_index_id n (n * n) x y) by lia.
  set (i := x * n + y) in *.
  destruct (getat_inside (buf m pcurr) n n x y) as [_ Hc];
    [lia | done | done | done |]. fold i in Hc.
  set (c := cell (buf m pcurr) n x y) in *.
  assert (load m pcurr i = Some c) as Hload
    by (unfold load; by rewrite rd_lookup by lia).
  rewrite Hload. simpl.
  rewrite store_in_range by lia. simpl.
  rewrite buf_set_buf_ne by exact Hne'.
  rewrite numneighbors_sum by (unfold INT_MIN; lia || done). simpl.
  set (k := neighbor_sum (buf m pcurr) n n x y).
  unfold next_cell. cbv zeta.
  destruct (k <? 2) eqn:E2; destruct (k >? 3) eqn:E3;
    destruct (k =? 3) eqn:E4; try lia; simpl;
    rewrite ?store_set_buf by (rewrite ?length_insert; lia); simpl;
    rewrite ?store_set_buf by (rewrite ?length_insert; lia); simpl;
    rewrite ?load_set_buf_ne, ?Hload by exact Hne'; simpl;
    try destruct (is_set c) eqn:Ec; simpl;
    rewrite ?store_set_buf by (rewrite ?length_insert; lia);
    rewrite ?list_insert_insert_eq;
    done.
Qed.
End Square.

(** ** A whole launch *)

Lemma apply_writes_length (ws : list (nat * ubyte)) (l : list ubyte) :
  length (apply_writes l ws) = length l.
Proof.
  revert l. induction ws as [| w ws IH]; intros l; simpl; [done |].
  unfold apply_writes in IH. rewrite IH. apply length_insert.
Qed.

Lemma apply_writes_untouched (ws : list (nat * ubyte)) (l : list ubyte)
    (i : nat) :
  (∀ w, w ∈ ws → w.1 ≠ i) → apply_writes l ws !! i = l !! i.
Proof.
  revert l. induction ws as [| w ws IH]; intros l Hno; simpl; [done |].
  unfold apply_writes in IH. rewrite IH.
  - apply list_lookup_insert_ne. apply Hno. left.
  - intros w' Hw'. apply Hno. by right.
Qed.

(** Where every write to [i] carries the same value, the order does not
    matter: that value is found at [i]. *)
Lemma apply_writes_agreed (ws : list (nat * ubyte)) (l : list ubyte)
    (i : nat) (v : ubyte) :
  (∃ w, w ∈ ws ∧ w.1 = i) →
  (∀ w, w ∈ ws → w.1 = i → w.2 = v) →
  (i < length l)%nat →
  apply_writes l ws !! i = Some v.
Proof.
  revert l. induction ws as [| w ws IH]; intros l [w0 [Hin Hw0]] Hall Hlen.
  - by apply elem_of_nil in Hin.
  - simpl.
    destruct (decide (Exists (λ w' : nat * byte, w'.1 = i) ws)) as [Hex | Hno].
    + unfold apply_writes in IH. apply IH.
      * apply Exists_exists in Hex. destruct Hex as [w' [? ?]]. by exists w'.
      * intros w' Hw'. apply Hall. by right.
      * by rewrite length_insert.
    + rewrite Exists_exists in Hno.
      fold (apply_writes (<[w.1 := w.2]> l) ws).
      rewrite apply_writes_untouched
        by (intros w' Hw' Heq; apply Hno; by exists w').
      apply elem_of_cons in Hin. destruct Hin as [Heq | Hin].
      * subst w0. rewrite <- (Hall w) by (done || left).
        rewrite <- Hw0. apply list_lookup_insert_eq. by rewrite Hw0.
      * exfalso. apply Hno. by exists w0.
Qed.

(** Membership in the thread list of a launch. *)
Lemma elem_of_threads (g b : dim3) (blk thr : dim3) :
  (blk, thr) ∈ threads g b ↔
  (0 <= dim_x blk < dim_x g ∧ 0 <= dim_y blk < dim_y g)
  ∧ (0 <= dim_x thr < dim_x b ∧ 0 <= dim_y thr < dim_y b).
Proof.
  unfold threads. destruct blk as [bx by'], thr as [tx ty]. simpl.
  split.
  - intros H.
    apply list_elem_of_bind in H. destruct H as [bx' [H Hbx]].
    apply list_elem_of_bind in H. destruct H as [by'' [H Hby]].
    apply list_elem_of_bind in H. destruct H as [tx' [H Htx]].
    apply list_elem_of_bind in H. destruct H as [ty' [H Hty]].
    apply list_elem_of_singleton in H. injection H as -> -> -> ->.
    rewrite elem_of_seqZ in Hbx, Hby, Htx, Hty. lia.
  - intros [[Hbx Hby] [Htx Hty]].
    apply list_elem_of_bind. exists bx. split; [| apply elem_of_seqZ; lia].
    apply list_elem_of_bind. exists by'. split; [| apply elem_of_seqZ; lia].
    apply list_elem_of_bind. exists tx. split; [| apply elem_of_seqZ; lia].
    apply list_elem_of_bind. exists ty. split; [| apply elem_of_seqZ; lia].
    by apply list_elem_of_singleton.
Qed.

Lemma generation_length (n : Z) (curr : list ubyte) :
  length (generation n curr) = Z.to_nat (n * n).
Proof. unfold generation. by rewrite length_fmap, length_seq. Qed.

Section Launch.
Variable n : Z.
Hypothesis n_pos : 0 < n.
Hypothesis n_int : n * n <= INT_MAX.

Lemma generation_lookup (curr : list ubyte) (x y : Z) :
  in_range n n x y →
  generation n curr !! Z.to_nat (x * n + y)
  = Some (next_cell (cell curr n x y) (neighbor_sum curr n n x y)).
Proof using n_pos.
  intros Hin. pose proof (flat_index_bound n n x y (Z.le_refl n) Hin).
  destruct Hin as [Hx Hy].
  unfold generation. rewrite list_lookup_fmap.
  rewrite lookup_seq_lt by lia. simpl.
  rewrite Z2Nat.id by lia.
  replace ((x * n + y) / n) with x by (apply Z.div_unique with y; lia).
  replace ((x * n + y) mod n) with y by (apply Z.mod_unique with x; lia).
  done.
Qed.

Lemma launch_writes (pcurr pnext : devptr) (s : schedule) :
  pcurr ≠ pnext →
  Forall (thread_in_board n) s →
  ∀ m : device,
    Z.of_nat (length (buf m pcurr)) = n * n →
    Z.of_nat (length (buf m pnext)) = n * n →
    launch s (simstep n n pcurr pnext) m
    = Some (set_buf m pnext
              (apply_writes (buf m pnext)
                 (thread_write n (buf m pcurr) <$> s))).
Proof using n_pos n_int.
  intros Hne. induction s as [| [blk thr] s IH]; intros Hall m Hlc Hln.
  - simpl. by rewrite set_buf_id.
  - apply Forall_cons in Hall. destruct Hall as [[Hnn Hin] Hall].
    simpl in Hnn, Hin. simpl.
    rewrite (simstep_thread n n_pos n_int pcurr pnext blk thr m
               (thread_cell blk thr).1 (thread_cell blk thr).2);
      try done; try lia.
    simpl. rewrite IH; clear IH; try done.
    + rewrite buf_set_buf_eq, set_buf_set_buf.
      rewrite buf_set_buf_ne by congruence. done.
    + rewrite buf_set_buf_ne by congruence. done.
    + rewrite buf_set_buf_eq, length_insert. done.
Qed.

Hypothesis n_blocks : (BLOCK_SIDE | n).

Lemma quot_block_side : Z.quot n BLOCK_SIDE * BLOCK_SIDE = n.
Proof using n_blocks.
  pose proof n_blocks as [k Hk]. rewrite Hk.
  unfold BLOCK_SIDE. by rewrite Z.quot_mul.
Qed.

(** The threads of the launch stay on the board ... *)
Lemma threads_in_board (bt : dim3 * dim3) :
  bt ∈ threads (grid_of n) (Dim3 BLOCK_SIDE BLOCK_SIDE) →
  thread_in_board n bt.
Proof using n_blocks.
  destruct bt as [blk thr]. rewrite elem_of_threads.
  pose proof quot_block_side as Hq.
  unfold grid_of, thread_in_board, in_range, thread_cell. simpl.
  unfold BLOCK_SIDE in *. lia.
Qed.

(** ... and every cell of the board has its thread. *)
Lemma threads_cover (x y : Z) :
  in_range n n x y →
  ∃ bt, bt ∈ threads (grid_of n) (Dim3 BLOCK_SIDE BLOCK_SIDE)
        ∧ thread_cell bt.1 bt.2 = (x, y).
Proof using n_blocks.
  intros [Hx Hy]. pose proof quot_block_side as Hq.
  exists (Dim3 (x / BLOCK_SIDE) (y / BLOCK_SIDE),
          Dim3 (x mod BLOCK_SIDE) (y mod BLOCK_SIDE)).
  rewrite elem_of_threads. unfold grid_of, thread_cell. simpl.
  unfold BLOCK_SIDE in *.
  pose proof (Z.div_mod x 16). pose proof (Z.div_mod y 16).
  pose proof (Z.mod_pos_bound x 16). pose proof (Z.mod_pos_bound y 16).
  split; [| f_equal; lia].
  repeat split; lia.
Qed.

(** One launch, whatever the order of its threads, leaves the next
    generation in the new buffer and the current buffer as it was. *)
Lemma launch_generation (pcurr pnext : devptr) (s : schedule) (m : device) :
  pcurr ≠ pnext →
  valid_schedule (grid_of n) (Dim3 BLOCK_SIDE BLOCK_SIDE) s →
  Z.of_nat (length (buf m pcurr)) = n * n →
  Z.of_nat (length (buf m pnext)) = n * n →
  launch s (simstep n n pcurr pnext) m
  = Some (set_buf m pnext (generation n (buf m pcurr))).
Proof using n_pos n_int n_blocks.
  intros Hne Hs Hlc Hln. unfold valid_schedule in Hs.
  assert (Forall (thread_in_board n) s) as Hall.
  { apply Forall_forall. intros bt Hbt. apply threads_in_board.
    by rewrite <- Hs. }
  rewrite launch_writes by done. do 2 f_equal.
  apply list_eq. intros i.
  destruct (decide (i < Z.to_nat (n * n))%nat) as [Hi | Hi].
  - set (x := Z.of_nat i / n). set (y := Z.of_nat i mod n).
    assert (in_range n n x y) as Hin.
    { unfold in_range, x, y.
      pose proof (Z.mod_pos_bound (Z.of_nat i) n).
      split; [| lia]. split; [apply Z.div_pos; lia |].
      apply Z.div_lt_upper_bound; lia. }
    assert (i = Z.to_nat (x * n + y)) as Hiz.
    { unfold x, y. pose proof (Z.div_mod (Z.of_nat i) n). lia. }
    rewrite Hiz at 2. rewrite generation_lookup by done.
    apply apply_writes_agreed; [| | lia].
    + destruct (threads_cover x y Hin) as [bt [Hbt Hcell]].
      exists (thread_write n (buf m pcurr) bt). split.
      * apply list_elem_of_fmap_2. by rewrite Hs.
      * unfold thread_write. rewrite Hcell. simpl. lia.
    + intros w Hw Hwi. apply list_elem_of_fmap in Hw.
      destruct Hw as [bt [-> Hbt]].
      rewrite Forall_forall in Hall. destruct (Hall bt Hbt) as [_ Hin'].
      unfold thread_write in *. simpl in *.
      pose proof (flat_index_bound n n _ _ (Z.le_refl n) Hin').
      pose proof (flat_index_bound n n _ _ (Z.le_refl n) Hin).
      destruct (square_index_inj n n_pos _ _ _ _ Hin' Hin) as [-> ->];
        [lia | done].
  - rewrite (lookup_ge_None_2 (generation n _))
      by (rewrite generation_length; lia).
    apply lookup_ge_None_2. rewrite apply_writes_length. lia.
Qed.
End Launch.

(** ** Counted loops in the option monad *)

Lemma for_up_invariant {St : Type} (P : Z → St → Prop)
    (body : Z → St → option St) (count : nat) (lo : Z) (s : St) :
  P lo s →
  (∀ i s, lo <= i < lo + Z.of_nat count → P i s →
          ∃ s', body i s = Some s' ∧ P (i + 1) s') →
  ∃ s', for_up count lo body s = Some s' ∧ P (lo + Z.of_nat count) s'.
Proof.
  revert lo s. induction count as [| k IH]; intros lo s HP Hbody.
  - exists s. simpl. split; [done |]. by replace (lo + Z.of_nat 0) with lo by lia.
  - destruct (Hbody lo s) as [s1 [Hs1 HP1]]; [lia | done |].
    destruct (IH (lo + 1) s1 HP1) as [s2 [Hs2 HP2]].
    { intros i s' Hi. apply Hbody. lia. }
    exists s2. simpl. rewrite Hs1. simpl. split; [done |].
    by replace (lo + Z.of_nat (S k)) with (lo + 1 + Z.of_nat k) by lia.
Qed.

Lemma for_range_invariant {St : Type} (P : Z → St → Prop)
    (body : Z → St → option St) (hi : Z) (s : St) :
  0 <= hi →
  P 0 s →
  (∀ i s, 0 <= i < hi → P i s → ∃ s', body i s = Some s' ∧ P (i + 1) s') →
  ∃ s', for_range 0 hi body s = Some s' ∧ P hi s'.
Proof.
  intros Hhi HP Hbody. unfold for_range.
  destruct (for_up_invariant P body (Z.to_nat (hi - 0)) 0 s HP) as [s' [? ?]].
  { intros i s' Hi. apply Hbody. lia. }
  exists s'. split; [done |]. by replace hi with (0 + Z.of_nat (Z.to_nat (hi - 0))) by lia.
Qed.

(** ** Initial boards *)

Section Host.
Variable n : Z.
Hypothesis n_pos : 0 < n.
Hypothesis n_int : n * n <= INT_MAX.

Lemma randomizeBoard_randomized (draws : nat → bool) (pboard : list ubyte)
    (calls : nat) :
  Z.of_nat (length pboard) = n * n →
  randomizeBoard draws pboard n n calls
  = Some (randomized draws calls n, (calls + Z.to_nat (n * n))%nat).
Proof using n_pos n_int.
  intros Hlen. unfold randomizeBoard.
  pose (filled (done : Z) (st : list ubyte * nat) :=
          Z.of_nat (length st.1) = n * n
          ∧ st.2 = (calls + Z.to_nat done)%nat
          ∧ ∀ i : nat, Z.of_nat i < done →
              st.1 !! i = Some (if draws (calls + i)%nat then x01 else x00)).
  destruct (for_range_invariant (λ x, filled (x * n))
              (λ x st, for_range 0 n (λ y '(b, k),
                 b' ← wr b (int_add (int_mul x n) y)
                        (if draws k then x01 else x00);
                 Some (b', S k)) st) n (pboard, calls))
    as [[b k] [Hrun [Hb [Hk Hcells]]]].
  - lia.
  - unfold filled. simpl. split; [done |]. split; [lia |]. intros i Hi. lia.
  - intros x st Hx Hst.
    destruct (for_range_invariant (λ y, filled (x * n + y))
                (λ y '(b, k),
                   b' ← wr b (int_add (int_mul x n) y)
                          (if draws k then x01 else x00);
                   Some (b', S k)) n st)
      as [st' [Hrun' Hst']].
    + lia.
    + by replace (x * n + 0) with (x * n) by lia.
    + intros y [b k] Hy [Hb [Hk Hcells]]. simpl in Hb, Hk, Hcells.
      assert (0 <= x * n + y < n * n) as Hidx by nia.
      rewrite (flat_index_id n (n * n)) by lia.
      rewrite wr_in_range by lia. simpl.
      eexists. split; [done |]. unfold filled. simpl.
      rewrite length_insert. split; [done |]. split; [lia |].
      intros i Hi.
      destruct (decide (i = Z.to_nat (x * n + y))) as [-> | Hne].
      * rewrite list_lookup_insert_eq by lia. rewrite Hk. done.
      * rewrite list_lookup_insert_ne by done. apply Hcells. lia.
    + exists st'. split; [done |].
      by replace ((x + 1) * n) with (x * n + n) by lia.
  - simpl in Hb, Hk, Hcells. rewrite Hrun. do 2 f_equal; [| done].
    apply list_eq. intros i. unfold randomized.
    rewrite list_lookup_fmap.
    destruct (decide (i < Z.to_nat (n * n))%nat) as [Hi | Hi].
    + rewrite lookup_seq_lt by done. simpl. apply Hcells. lia.
    + rewrite lookup_seq_ge by lia. simpl. apply lookup_ge_None_2. lia.
Qed.

Lemma printBoard_total (msg : string) (pboard : list ubyte) :
  Z.of_nat (length pboard) = n * n →
  is_Some (printBoard msg pboard n n).
Proof using n_pos n_int.
  intros Hlen. unfold printBoard.
  destruct (for_range_invariant (λ _ (_ : string), True)
              (λ x out,
                 out ← for_range 0 n (λ y out,
                   c ← rd pboard (int_add (int_mul x n) y);
                   Some (out +:+ (if is_set c then "o " else "  "))) out;
                 Some (out +:+ newline)) n (msg +:+ newline))
    as [text [Htext _]]; [lia | done | | by exists text].
  intros x out Hx _.
  destruct (for_range_invariant (λ _ (_ : string), True)
              (λ y out,
                 c ← rd pboard (int_add (int_mul x n) y);
                 Some (out +:+ (if is_set c then "o " else "  "))) n out)
    as [line [Hline _]]; [lia | done | |].
  - intros y out' Hy _.
    assert (0 <= x * n + y < n * n) as Hidx by nia.
    rewrite (flat_index_id n (n * n)) by lia.
    destruct (proj2 (rd_is_Some pboard (x * n + y))) as [c Hc]; [lia |].
    rewrite Hc. simpl. by eexists.
  - rewrite Hline. simpl. by eexists.
Qed.
End Host.

(** ** Runs of [main] *)

Lemma run_bind_step {A B : Type} (c : run A) (f : A → run B)
    (tr tr' : list event) (a : A) :
  c tr = (tr', Some a) → (c ≫= f) tr = f a tr'.
Proof. intros H. unfold mbind, run_bind. by rewrite H. Qed.

Lemma run_bind_stop {A B : Type} (c : run A) (f : A → run B)
    (tr tr' : list event) :
  c tr = (tr', None) → (c ≫= f) tr = (tr', None).
Proof. intros H. unfold mbind, run_bind. by rewrite H. Qed.

Lemma run_bind_emit {B : Type} (ev : event) (f : unit → run B)
    (tr : list event) :
  (emit ev ≫= f) tr = f tt (tr ++ [ev]).
Proof. done. Qed.

Lemma run_bind_lift {A B : Type} (o : option A) (f : A → run B)
    (tr : list event) (a : A) :
  o = Some a → (lift o ≫= f) tr = f a tr.
Proof. by intros ->. Qed.

Lemma run_bind_deref {A B : Type} (o : option A) (f : A → run B)
    (tr : list event) (a : A) :
  o = Some a → (deref o ≫= f) tr = f a tr.
Proof. by intros ->. Qed.

Lemma run_bind_deref_None {A B : Type} (f : A → run B) (tr : list event) :
  (deref None ≫= f) tr = (tr, None).
Proof. done. Qed.

(** The constants of [main]. *)
Lemma board_square : boardH = boardW.
Proof. reflexivity. Qed.

Lemma board_side_pos : 0 < boardW.
Proof. reflexivity. Qed.

Lemma board_side_int : boardW * boardW <= INT_MAX.
Proof. by vm_compute. Qed.

Lemma board_side_blocks : (BLOCK_SIDE | boardW).
Proof. by exists 4. Qed.

Lemma gridsize_grid_of : gridsize = grid_of boardW.
Proof. reflexivity. Qed.

Lemma blocksize_block_side : blocksize = Dim3 BLOCK_SIDE BLOCK_SIDE.
Proof. reflexivity. Qed.

Lemma board_bytes : boardW * boardH * 1 = boardW * boardW.
Proof. reflexivity. Qed.

Lemma board_bytes' : boardH * boardW * 1 = boardW * boardW.
Proof. reflexivity. Qed.

(** From here on the side of the board is used through the lemmas above. *)
Global Opaque boardW boardH.

Lemma alloc_true (contents : nat → ubyte) (size : Z) :
  alloc true contents size = Some (contents <$> seq 0 (Z.to_nat size)).
Proof. done. Qed.

Lemma alloc_false (contents : nat → ubyte) (size : Z) :
  alloc false contents size = None.
Proof. done. Qed.

Lemma alloc_length (contents : nat → ubyte) (size : Z) (b : list ubyte) :
  0 <= size → alloc true contents size = Some b →
  Z.of_nat (length b) = size.
Proof.
  intros Hs [= <-]. rewrite length_fmap, length_seq. lia.
Qed.

Lemma cudaMemcpy_whole (dst src : list ubyte) (count : Z) :
  Z.of_nat (length dst) = count → Z.of_nat (length src) = count →
  cudaMemcpy dst src count = src.
Proof.
  intros Hd Hs. unfold cudaMemcpy.
  rewrite take_ge, drop_ge by lia. apply app_nil_r.
Qed.

Lemma cudaMemset_whole (dst : list ubyte) (v : ubyte) (count : Z) :
  Z.of_nat (length dst) = count →
  cudaMemset dst v count = replicate (Z.to_nat count) v.
Proof.
  intros Hd. unfold cudaMemset. rewrite drop_ge by lia. apply app_nil_r.
Qed.

Lemma ptr_at_succ (gen : Z) : 0 <= gen → ptr_at (gen + 1) ≠ ptr_at gen.
Proof.
  intros Hg. unfold ptr_at.
  rewrite !Z.rem_mod_nonneg by lia.
  destruct (Z.eqb_spec (gen mod 2) 0), (Z.eqb_spec ((gen + 1) mod 2) 0);
    try done; Z.div_mod_to_equations; lia.
Qed.

Lemma ptr_at_pair (gen : Z) :
  0 <= gen →
  (if Z.rem gen 2 =? 0 then (pDevBoard0, pDevBoard1)
   else (pDevBoard1, pDevBoard0)) = (ptr_at gen, ptr_at (gen + 1)).
Proof.
  intros Hg. unfold ptr_at.
  rewrite !Z.rem_mod_nonneg by lia.
  destruct (Z.eqb_spec (gen mod 2) 0), (Z.eqb_spec ((gen + 1) mod 2) 0);
    try done; Z.div_mod_to_equations; lia.
Qed.

Lemma sized_buf (st : loop_state) (p : devptr) :
  sized st → Z.of_nat (length (buf (ls_dev st) p)) = boardW * boardW.
Proof. intros [_ [? ?]]. by destruct p. Qed.

Lemma for_up_emit (ev : event) (count : nat) (i : Z) (tr : list event) :
  for_up count i (λ _ (u : unit), emit ev) tt tr
  = (tr ++ replicate count ev, Some tt).
Proof.
  revert i tr. induction count as [| k IH]; intros i tr; simpl.
  - unfold mret, run_ret. by rewrite app_nil_r.
  - rewrite run_bind_emit, IH. by rewrite <- app_assoc.
Qed.

(** One turn of the generation loop. *)
Lemma generation_body_run (PB : bool) (e : environment) (gen : Z)
    (st : loop_state) (tr : list event) :
  fair e → 0 <= gen → sized st →
  let pcurr := ptr_at gen in
  let pnext := ptr_at (gen + 1) in
  let new := generation boardW (buf (ls_dev st) pcurr) in
  ∃ evs pboard',
    generation_body PB e gen st tr
    = (tr ++ Launch gen pcurr pnext :: evs,
       Some (LoopState pboard' (set_buf (ls_dev st) pnext new)
               (Some pcurr) (Some pnext)))
    ∧ Z.of_nat (length pboard') = boardW * boardW
    ∧ (if PB
       then ∃ text, evs = replicate 24 Printf_newline
                          ++ [PrintBoard " " new text]
       else evs = [] ∧ pboard' = ls_pboard st).
Proof.
  intros Hfair Hgen Hsized pcurr pnext new.
  assert (pcurr ≠ pnext) as Hne
    by (intros Heq; by apply (ptr_at_succ gen Hgen)).
  assert (launch (thread_order e gen) (simstep boardH boardW pcurr pnext)
            (ls_dev st) = Some (set_buf (ls_dev st) pnext new)) as Hlaunch.
  { rewrite board_square.
    apply (launch_generation boardW board_side_pos board_side_int
             board_side_blocks); [done | apply Hfair | |];
      by apply sized_buf. }
  assert (Z.of_nat (length new) = boardW * boardW) as Hnew.
  { unfold new. rewrite generation_length.
    pose proof board_side_pos. nia. }
  unfold generation_body. rewrite ptr_at_pair by done.
  fold pcurr pnext.
  rewrite run_bind_emit.
  rewrite (run_bind_lift _ _ _ _ Hlaunch).
  destruct PB.
  - rewrite buf_set_buf_eq.
    rewrite cudaMemcpy_whole;
      [| by rewrite board_bytes'; apply Hsized | by rewrite board_bytes'].
    destruct (printBoard_total boardW board_side_pos board_side_int
                " " new Hnew) as [text Htext].
    rewrite <- board_square in Htext at 1.
    exists (replicate 24 Printf_newline ++ [PrintBoard " " new text]), new.
    split; [| split; [done | by exists text]].
    erewrite run_bind_step; [| erewrite run_bind_step; [| apply for_up_emit]].
    2: { rewrite (run_bind_lift _ _ _ _ Htext). rewrite run_bind_emit.
         reflexivity. }
    unfold mret, run_ret. f_equal.
    rewrite <- !app_assoc. simpl. done.
  - exists [], (ls_pboard st).
    split; [| split; [apply Hsized | done]].
    erewrite run_bind_step; [| reflexivity].
    done.
Qed.

(** [count] turns of the loop from generation [gen] on: the buffers
    alternate, the newest board is where the next turn will read, the one
    before it is where [pcurr] points. *)
Lemma generation_loop (PB : bool) (e : environment) (count : nat) :
  fair e →
  ∀ (gen : Z) (st : loop_state) (tr : list event),
    0 <= gen → sized st →
    let start := buf (ls_dev st) (ptr_at gen) in
    ∃ tr' st',
      for_up count gen (generation_body PB e) st tr = (tr', Some st')
      ∧ sized st'
      ∧ buf (ls_dev st') (ptr_at (gen + Z.of_nat count))
        = Nat.iter count (generation boardW) start
      ∧ match count with
        | O => st' = st ∧ tr' = tr
        | S k =>
            ls_pcurr st' = Some (ptr_at (gen + Z.of_nat k))
            ∧ ls_pnext st' = Some (ptr_at (gen + Z.of_nat count))
            ∧ buf (ls_dev st') (ptr_at (gen + Z.of_nat k))
              = Nat.iter k (generation boardW) start
            ∧ (PB = true →
               ∃ tr0 text,
                 tr' = tr0 ++ [PrintBoard " "
                                 (Nat.iter count (generation boardW) start)
                                 text])
        end.
Proof.
  intros Hfair. induction count as [| k IH]; intros gen st tr Hgen Hsized start.
  - exists tr, st. simpl. rewrite Z.add_0_r. done.
  - destruct (generation_body_run PB e gen st tr Hfair Hgen Hsized)
      as [evs [pboard' [Hbody [Hlen Hevs]]]].
    set (pcurr := ptr_at gen) in *. set (pnext := ptr_at (gen + 1)) in *.
    set (new := generation boardW (buf (ls_dev st) pcurr)) in *.
    set (st1 := LoopState pboard' (set_buf (ls_dev st) pnext new)
                  (Some pcurr) (Some pnext)) in *.
    assert (pnext ≠ pcurr) as Hne by (by apply ptr_at_succ).
    assert (Z.of_nat (length new) = boardW * boardW) as Hnew.
    { unfold new. rewrite generation_length.
      pose proof board_side_pos. nia. }
    assert (sized st1) as Hsized1.
    { destruct Hsized as [? [? ?]]. unfold sized, st1.
      cbn [ls_pboard ls_dev]. split; [done |].
      destruct pnext; cbn [set_buf board0 board1]; split; assumption. }
    destruct (IH (gen + 1) st1 (tr ++ Launch gen pcurr pnext :: evs))
      as [tr' [st' [Hrun [Hsized' [Hnewest Hrest]]]]]; [lia | done |].
    assert (buf (ls_dev st1) (ptr_at (gen + 1)) = new) as Hst1
      by (unfold st1; simpl; apply buf_set_buf_eq).
    rewrite Hst1 in Hnewest, Hrest.
    assert (∀ j, Nat.iter j (generation boardW) new
                 = Nat.iter (S j) (generation boardW) start) as Hiter.
    { intros j. unfold new. fold start. by rewrite Nat.iter_succ_r. }
    exists tr', st'. simpl for_up.
    rewrite (run_bind_step _ _ _ _ _ Hbody). split; [done |].
    split; [done |]. split.
    { replace (gen + Z.of_nat (S k)) with (gen + 1 + Z.of_nat k) by lia.
      rewrite Hnewest. apply Hiter. }
    replace (gen + Z.of_nat (S k)) with (gen + 1 + Z.of_nat k) by lia.
    destruct k as [| j].
    + destruct Hrest as [-> ->]. unfold st1. simpl.
      change (Z.of_nat 0) with 0. rewrite !Z.add_0_r. fold pcurr pnext.
      split; [done |]. split; [done |]. split.
      * by rewrite buf_set_buf_ne.
      * intros ->. destruct Hevs as [text ->].
        exists (tr ++ Launch gen pcurr pnext :: replicate 24 Printf_newline),
          text.
        rewrite <- app_assoc. simpl. done.
    + destruct Hrest as [Hpc [Hpn [Hprev Hprint]]].
      replace (gen + Z.of_nat (S j)) with (gen + 1 + Z.of_nat j) by lia.
      split; [done |]. split; [done |]. split.
      * rewrite Hprev. apply Hiter.
      * intros HPB. destruct (Hprint HPB) as [tr0 [text ->]].
        exists tr0, text. by rewrite Hiter.
Qed.

Lemma randomized_length (d : nat → bool) (calls : nat) (n : Z) :
  length (randomized d calls n) = Z.to_nat (n * n).
Proof. unfold randomized. by rewrite length_fmap, length_seq. Qed.

Lemma initial_board_length (e : environment) :
  Z.of_nat (length (initial_board e)) = boardW * boardW.
Proof.
  unfold initial_board. rewrite randomized_length.
  pose proof board_side_pos. nia.
Qed.

(** A run of [main] in which the allocations succeed and at least one
    generation is asked for: it returns 0; the board it prints as the
    result is the one that the last launch read, and with [PRINT_BOARDS]
    the last board printed inside the loop is the one that launch wrote. *)
Lemma main_run (PB : bool) (argv : list string) (e : environment) :
  all_allocated e → fair e → 1 <= ngenerations_of argv →
  let N := ngenerations_of argv in
  ∃ tr text,
    main PB argv e []
    = (tr ++ [PrintBoard "Resulting Board:"
                (Nat.iter (Z.to_nat N - 1) (generation boardW)
                   (initial_board e)) text;
              Printf_summary N], Some 0)
    ∧ (PB = true →
       ∃ tr0 text',
         tr = tr0 ++ [PrintBoard " "
                        (Nat.iter (Z.to_nat N) (generation boardW)
                           (initial_board e)) text']).
Proof.
  intros [Hm [Hc0 Hc1]] Hfair HN N.
  pose proof board_side_pos as Hpos.
  unfold main. cbv zeta. fold N.
  rewrite run_bind_emit.
  rewrite Hm, Hc0, Hc1. unfold alloc.
  rewrite board_bytes, board_bytes', board_square.
  set (junk := fresh e <$> seq 0 (Z.to_nat (boardW * boardW))).
  assert (Z.of_nat (length junk) = boardW * boardW) as Hjunk
    by (unfold junk; rewrite length_fmap, length_seq; nia).
  rewrite (run_bind_deref _ _ _ _ eq_refl).
  rewrite (run_bind_lift _ _ _ _
             (randomizeBoard_randomized boardW board_side_pos board_side_int
                (draws e) junk 0%nat Hjunk)).
  fold (initial_board e).
  pose proof (initial_board_length e) as Hinit.
  destruct (printBoard_total boardW board_side_pos board_side_int
              "Initial Board:" (initial_board e) Hinit) as [text0 Htext0].
  rewrite (run_bind_lift _ _ _ _ Htext0). rewrite run_bind_emit.
  rewrite (run_bind_deref _ _ _ _ eq_refl).
  rewrite (run_bind_deref _ _ _ _ eq_refl).
  rewrite cudaMemcpy_whole by done.
  rewrite cudaMemset_whole by done.
  set (zeros := replicate (Z.to_nat (boardW * boardW)) x00).
  set (st0 := LoopState (initial_board e) (Device (initial_board e) zeros)
                None None).
  assert (sized st0) as Hsized0.
  { unfold sized, st0, zeros. cbn [ls_pboard ls_dev board0 board1].
    rewrite length_replicate. split; [done |]. split; [done | nia]. }
  unfold for_range.
  destruct (Z.to_nat (N - 0)) as [| k] eqn:Hk; [lia |].
  destruct (generation_loop PB e (S k) Hfair 0 st0
              ([] ++ [Printf_running N]
               ++ [PrintBoard "Initial Board:" (initial_board e) text0])
              (Z.le_refl 0) Hsized0)
    as [tr' [st' [Hrun [Hsized' [_ [Hpc [_ [Hprev Hprint]]]]]]]].
  change (buf (ls_dev st0) (ptr_at 0)) with (initial_board e) in Hprev, Hprint.
  rewrite Z.add_0_l in Hpc, Hprev.
  rewrite app_assoc in Hrun.
  rewrite (run_bind_step _ _ _ _ _ Hrun).
  rewrite (run_bind_deref _ _ _ _ Hpc).
  rewrite cudaMemcpy_whole; [| apply Hsized' | by apply sized_buf].
  rewrite Hprev.
  assert (Z.to_nat N - 1 = k)%nat as Hk' by lia.
  assert (Z.to_nat N = S k) as Hk'' by lia.
  rewrite Hk'. rewrite ?Hk''.
  set (result := Nat.iter k (generation boardW) (initial_board e)).
  assert (Z.of_nat (length result) = boardW * boardW) as Hres.
  { unfold result. rewrite <- Hprev. by apply sized_buf. }
  destruct (printBoard_total boardW board_side_pos board_side_int
              "Resulting Board:" result Hres) as [text Htext].
  rewrite (run_bind_lift _ _ _ _ Htext).
  rewrite !run_bind_emit.
  exists tr', text. split.
  - unfold mret, run_ret. by rewrite <- app_assoc.
  - exact Hprint.
Qed.

(** * The claims *)

(** ** The rules of one generation (C1) *)

Lemma next_cell_rules (c : ubyte) (k : Z) :
  (is_set c = true → k < 2 → next_cell c k = x00)
  ∧ (is_set c = true → k = 2 ∨ k = 3 → next_cell c k = c)
  ∧ (is_set c = true → 3 < k → next_cell c k = x00)
  ∧ (is_set c = false → k = 3 → next_cell c k = x01)
  ∧ (is_set c = false → k ≠ 3 → next_cell c k = x00).
Proof.
  unfold next_cell. cbv zeta.
  destruct (is_set c) eqn:Ec; [| apply is_set_false in Ec; subst c];
    destruct (Z.ltb_spec k 2), (Z.gtb_spec k 3), (Z.eqb_spec k 3);
    simpl; repeat split; intros; try done; try lia.
Qed.

Lemma binary_cell (b : list ubyte) (n x y : Z) :
  binary b → cell b n x y = x00 ∨ cell b n x y = x01.
Proof.
  intros Hb. unfold cell.
  destruct (b !! Z.to_nat (x * n + y)) as [c |] eqn:Hc; simpl; [| by left].
  unfold binary in Hb. rewrite Forall_forall in Hb. apply Hb.
  apply list_elem_of_lookup. by exists (Z.to_nat (x * n + y)).
Qed.

(** On a board of zeros and ones the sum that [numneighbors] forms is the
    number of live cells among the neighbours on the board. *)
Lemma count_filter {A : Type} (f : A → bool) (l : list A) :
  foldr Z.add 0 ((λ p, if f p then 1 else 0) <$> l)
  = Z.of_nat (length (List.filter f l)).
Proof.
  induction l as [| a l IH]; [done |].
  rewrite fmap_cons. cbn [foldr List.filter]. rewrite IH.
  destruct (f a); cbn [length]; lia.
Qed.

Lemma guarded_live (b : list ubyte) (n : Z) (p : Z * Z) :
  binary b →
  ubyte_to_int (guarded b n n p.1 p.2)
  = if on_board n p && is_set (cell b n p.1 p.2) then 1 else 0.
Proof.
  intros Hb. unfold guarded, on_board. rewrite !Z.geb_leb.
  destruct ((0 <=? p.1) && (p.1 <? n) && (0 <=? p.2) && (p.2 <? n));
    [| done].
  by destruct (binary_cell b n p.1 p.2 Hb) as [-> | ->].
Qed.

Lemma neighbor_sum_live_neighbors (b : list ubyte) (n x y : Z) :
  binary b → neighbor_sum b n n x y = live_neighbors b n x y.
Proof.
  intros Hb. unfold live_neighbors. rewrite <- count_filter.
  rewrite <- (list_fmap_ext (λ p, ubyte_to_int (guarded b n n p.1 p.2)))
    by (intros i p _; by apply guarded_live).
  unfold neighbor_sum, around. cbn [fmap list_fmap foldr fst snd]. lia.
Qed.

(** C1.  On a square board whose side is a multiple of [BLOCK_SIDE] (the
    launch of [main] is the case [n = 64]), and for whatever order of the
    threads, one launch of [simstep] succeeds, and every cell [(x, y)] of the
    new board is given by the four rules from the current cell [c] and the
    count [k] that [numneighbors] computes.  The count is the sum of the
    cells around [(x, y)] that are on the board, on a board of zeros and
    ones the number of live cells among them.  A live cell with [k < 2] dies,
    with [k = 2] or [k = 3] it stays as it is, with [k > 3] it dies; a dead
    cell with [k = 3] becomes alive and stays dead otherwise. *)
Theorem simstep_applies_rules (n : Z) (s : schedule) (m : device)
    (pcurr pnext : devptr) (x y : Z) :
  0 < n → n * n <= INT_MAX → (BLOCK_SIDE | n) →
  pcurr ≠ pnext →
  valid_schedule (grid_of n) (Dim3 BLOCK_SIDE BLOCK_SIDE) s →
  Z.of_nat (length (buf m pcurr)) = n * n →
  Z.of_nat (length (buf m pnext)) = n * n →
  in_range n n x y →
  ∃ (m' : device) (c c' : ubyte) (k : Z),
    launch s (simstep n n pcurr pnext) m = Some m'
    ∧ load m pcurr (x * n + y) = Some c
    ∧ numneighbors x y (buf m pcurr) n n = Some k
    ∧ k = neighbor_sum (buf m pcurr) n n x y
    ∧ (binary (buf m pcurr) → k = live_neighbors (buf m pcurr) n x y)
    ∧ load m' pnext (x * n + y) = Some c'
    ∧ (is_set c = true → k < 2 → c' = x00)
    ∧ (is_set c = true → k = 2 ∨ k = 3 → c' = c)
    ∧ (is_set c = true → 3 < k → c' = x00)
    ∧ (is_set c = false → k = 3 → c' = x01)
    ∧ (is_set c = false → k ≠ 3 → c' = x00).
Proof.
  intros Hpos Hint Hblocks Hne Hs Hlc Hln Hin.
  pose proof (flat_index_bound n n x y (Z.le_refl n) Hin) as Hidx.
  pose proof (side_int n Hpos Hint) as Hside.
  exists (set_buf m pnext (generation n (buf m pcurr))),
    (cell (buf m pcurr) n x y),
    (next_cell (cell (buf m pcurr) n x y)
       (neighbor_sum (buf m pcurr) n n x y)),
    (neighbor_sum (buf m pcurr) n n x y).
  split; [by apply launch_generation |].
  split.
  { unfold load. rewrite rd_lookup by lia.
    by destruct (getat_inside (buf m pcurr) n n x y) as [_ ->]; try lia. }
  split.
  { destruct Hin as [? ?].
    apply numneighbors_sum; try done; unfold INT_MIN; lia. }
  split; [done |].
  split; [apply neighbor_sum_live_neighbors |].
  split.
  { unfold load. rewrite buf_set_buf_eq, rd_lookup by lia.
    by apply generation_lookup. }
  apply next_cell_rules.
Qed.

Lemma simstep_applies_rules_witness :
  ∃ (m' : device) (c c' : ubyte) (k : Z),
    launch (threads (grid_of 16) (Dim3 BLOCK_SIDE BLOCK_SIDE))
      (simstep 16 16 pDevBoard0 pDevBoard1)
      (Device (board_of 16 (blinker Along_y 5 9)) (replicate 256 x00))
    = Some m'
    ∧ load (Device (board_of 16 (blinker Along_y 5 9)) (replicate 256 x00))
        pDevBoard0 (4 * 16 + 9) = Some c
    ∧ numneighbors 4 9 (board_of 16 (blinker Along_y 5 9)) 16 16 = Some k
    ∧ k = neighbor_sum (board_of 16 (blinker Along_y 5 9)) 16 16 4 9
    ∧ (binary (board_of 16 (blinker Along_y 5 9)) →
       k = live_neighbors (board_of 16 (blinker Along_y 5 9)) 16 4 9)
    ∧ load m' pDevBoard1 (4 * 16 + 9) = Some c'
    ∧ (is_set c = true → k < 2 → c' = x00)
    ∧ (is_set c = true → k = 2 ∨ k = 3 → c' = c)
    ∧ (is_set c = true → 3 < k → c' = x00)
    ∧ (is_set c = false → k = 3 → c' = x01)
    ∧ (is_set c = false → k ≠ 3 → c' = x00).
Proof.
  apply (simstep_applies_rules 16
           (threads (grid_of 16) (Dim3 BLOCK_SIDE BLOCK_SIDE))
           (Device (board_of 16 (blinker Along_y 5 9)) (replicate 256 x00))
           pDevBoard0 pDevBoard1 4 9).
  - lia.
  - vm_compute. discriminate.
  - exists 1. reflexivity.
  - discriminate.
  - unfold valid_schedule. apply Permutation_refl.
  - reflexivity.
  - reflexivity.
  - unfold in_range. lia.
Defined.

(** ** The neighbour count (C3) *)

Lemma binary_to_int (b : list ubyte) (n x y : Z) :
  binary b → ubyte_to_int (cell b n x y) = live_at b n x y.
Proof.
  intros Hb. unfold live_at.
  by destruct (binary_cell b n x y Hb) as [-> | ->].
Qed.

(** A write to one cell of a square board shows in no guarded read of
    another cell. *)
Lemma guarded_insert_other (n : Z) (b : list ubyte) (x0 y0 x y : Z)
    (v : ubyte) :
  0 < n → in_range n n x0 y0 → (x, y) ≠ (x0, y0) →
  guarded (<[Z.to_nat (x0 * n + y0) := v]> b) n n x y = guarded b n n x y.
Proof.
  intros Hpos Hin0 Hne. unfold guarded.
  destruct ((x >=? 0) && (x <? n) && (y >=? 0) && (y <? n)) eqn:E; [| done].
  apply in_range_guard in E. unfold cell.
  rewrite list_lookup_insert_ne; [done |].
  pose proof (flat_index_bound n n _ _ (Z.le_refl n) Hin0).
  pose proof (flat_index_bound n n _ _ (Z.le_refl n) E).
  intros Heq.
  destruct (square_index_inj n Hpos _ _ _ _ Hin0 E) as [-> ->]; [lia | done].
Qed.

(** C3.  On a square board and for a cell [(x, y)] on it, [numneighbors]
    returns the sum of exactly eight guarded reads, those of the cells around
    [(x, y)]; the cell itself does not enter it (overwriting it leaves the
    count as it was); and on a board of zeros and ones the count of a cell
    off the border is the number of live cells in its 3x3 block less the
    cell itself. *)
Theorem numneighbors_sums_eight_reads (n : Z) (b : list ubyte) (x y : Z) :
  0 < n → n * n <= INT_MAX → Z.of_nat (length b) = n * n →
  in_range n n x y →
  ∃ c1 c2 c3 c4 c5 c6 c7 c8 : ubyte,
    getat b n n (x - 1) y = Some c1
    ∧ getat b n n (x + 1) y = Some c2
    ∧ getat b n n x (y - 1) = Some c3
    ∧ getat b n n x (y + 1) = Some c4
    ∧ getat b n n (x - 1) (y - 1) = Some c5
    ∧ getat b n n (x - 1) (y + 1) = Some c6
    ∧ getat b n n (x + 1) (y - 1) = Some c7
    ∧ getat b n n (x + 1) (y + 1) = Some c8
    ∧ numneighbors x y b n n
      = Some (ubyte_to_int c1 + ubyte_to_int c2 + ubyte_to_int c3
              + ubyte_to_int c4 + ubyte_to_int c5 + ubyte_to_int c6
              + ubyte_to_int c7 + ubyte_to_int c8)
    ∧ (∀ v : ubyte,
         numneighbors x y (<[Z.to_nat (x * n + y) := v]> b) n n
         = numneighbors x y b n n)
    ∧ (binary b → 1 <= x → x + 1 < n → 1 <= y → y + 1 < n →
       numneighbors x y b n n
       = Some (live_in_3x3 b n x y - live_at b n x y)).
Proof.
  intros Hpos Hint Hlen Hin.
  pose proof (side_int n Hpos Hint) as Hside.
  assert (INT_MIN < x < INT_MAX ∧ INT_MIN < y < INT_MAX) as [Hx Hy]
    by (destruct Hin; unfold INT_MIN; lia).
  exists (guarded b n n (x - 1) y), (guarded b n n (x + 1) y),
    (guarded b n n x (y - 1)), (guarded b n n x (y + 1)),
    (guarded b n n (x - 1) (y - 1)), (guarded b n n (x - 1) (y + 1)),
    (guarded b n n (x + 1) (y - 1)), (guarded b n n (x + 1) (y + 1)).
  rewrite !getat_guarded by (done || lia).
  rewrite numneighbors_sum by (done || lia).
  repeat (split; [done |]). split.
  - intros v.
    rewrite numneighbors_sum by (rewrite ?length_insert; done || lia).
    f_equal. unfold neighbor_sum.
    rewrite !guarded_insert_other; try done; intros [=]; lia.
  - intros Hb Hx1 Hx2 Hy1 Hy2. f_equal.
    unfold neighbor_sum, live_in_3x3. simpl.
    rewrite !guarded_inside by (unfold in_range; lia).
    rewrite !binary_to_int by done.
    rewrite !Z.add_0_r. change (x + -1) with (x - 1).
    change (y + -1) with (y - 1). lia.
Qed.

Lemma numneighbors_sums_eight_reads_witness :
  ∃ c1 c2 c3 c4 c5 c6 c7 c8 : ubyte,
    getat (replicate 16 x01) 4 4 (1 - 1) 2 = Some c1
    ∧ getat (replicate 16 x01) 4 4 (1 + 1) 2 = Some c2
    ∧ getat (replicate 16 x01) 4 4 1 (2 - 1) = Some c3
    ∧ getat (replicate 16 x01) 4 4 1 (2 + 1) = Some c4
    ∧ getat (replicate 16 x01) 4 4 (1 - 1) (2 - 1) = Some c5
    ∧ getat (replicate 16 x01) 4 4 (1 - 1) (2 + 1) = Some c6
    ∧ getat (replicate 16 x01) 4 4 (1 + 1) (2 - 1) = Some c7
    ∧ getat (replicate 16 x01) 4 4 (1 + 1) (2 + 1) = Some c8
    ∧ numneighbors 1 2 (replicate 16 x01) 4 4
      = Some (ubyte_to_int c1 + ubyte_to_int c2 + ubyte_to_int c3
              + ubyte_to_int c4 + ubyte_to_int c5 + ubyte_to_int c6
              + ubyte_to_int c7 + ubyte_to_int c8)
    ∧ (∀ v : ubyte,
         numneighbors 1 2
           (<[Z.to_nat (1 * 4 + 2) := v]> (replicate 16 x01)) 4 4
         = numneighbors 1 2 (replicate 16 x01) 4 4)
    ∧ (binary (replicate 16 x01) → 1 <= 1 → 1 + 1 < 4 → 1 <= 2 → 2 + 1 < 4 →
       numneighbors 1 2 (replicate 16 x01) 4 4
       = Some (live_in_3x3 (replicate 16 x01) 4 1 2
               - live_at (replicate 16 x01) 4 1 2)).
Proof.
  apply (numneighbors_sums_eight_reads 4 (replicate 16 x01) 1 2).
  - lia.
  - vm_compute. discriminate.
  - reflexivity.
  - unfold in_range. lia.
Defined.

(** ** The guarded read (C4) *)

(** What [getat] does on the boards where it is safe, those with
    [ncols <= nrows] and so the square boards of [main]: the stored cell in
    range, 0 and no access to the buffer out of range. *)
Lemma getat_safe (b : list ubyte) (nrows ncols x y : Z) :
  ncols <= nrows → nrows * ncols <= INT_MAX →
  Z.of_nat (length b) = nrows * ncols →
  (in_range nrows ncols x y →
   0 <= x * ncols + y < Z.of_nat (length b)
   ∧ getat b nrows ncols x y = b !! Z.to_nat (x * ncols + y)
   ∧ is_Some (getat b nrows ncols x y))
  ∧ (¬ in_range nrows ncols x y →
     ∀ b' : list ubyte, getat b' nrows ncols x y = Some x00).
Proof.
  intros Hle Hmax Hlen. split.
  - intros Hin. pose proof (flat_index_bound _ _ _ _ Hle Hin).
    destruct (getat_inside b nrows ncols x y) as [Hg Hc]; try done.
    rewrite Hg, Hc. split; [lia |]. split; [done | by eexists].
  - intros Hout b'. by apply getat_outside.
Qed.

(** The corner cell [(0, 0)] of a square board: five of the eight reads fall
    outside and give 0, the count is that of the three neighbours on the
    board. *)
Lemma corner_neighbors (n : Z) (b : list ubyte) :
  2 <= n → n * n <= INT_MAX → Z.of_nat (length b) = n * n →
  numneighbors 0 0 b n n
  = Some (ubyte_to_int (cell b n 1 0) + ubyte_to_int (cell b n 0 1)
          + ubyte_to_int (cell b n 1 1)).
Proof.
  intros Hn Hint Hlen.
  rewrite numneighbors_sum by (done || unfold INT_MIN, INT_MAX; lia).
  f_equal. unfold neighbor_sum. simpl.
  rewrite !(guarded_outside b n n (-1)) by (unfold in_range; lia).
  rewrite !(guarded_outside b n n _ (-1)) by (unfold in_range; lia).
  rewrite !guarded_inside by (unfold in_range; lia).
  change (0 + 1) with 1. change (ubyte_to_int x00) with 0. lia.
Qed.

(** C4.  [getat] on a square board of side [n], as the boards of [main]
    are with [n = 64], for every pair of integers [(x, y)].  On the board,
    [0 <= x < n] and [0 <= y < n], the index [x * n + y] that the code forms
    lies inside the buffer and [getat] returns the cell stored there.
    Everywhere else [getat] returns 0 whatever buffer it is given, an empty
    one included: it reads nothing.  So the count of the corner [(0, 0)] is
    the sum of its three neighbours on the board. *)
Theorem getat_returns_cell_or_dead (n : Z) (b : list ubyte) (x y : Z) :
  0 < n → n * n <= INT_MAX → Z.of_nat (length b) = n * n →
  (in_range n n x y →
   int_add (int_mul x n) y = x * n + y
   ∧ 0 <= x * n + y < Z.of_nat (length b)
   ∧ ∃ c, b !! Z.to_nat (x * n + y) = Some c ∧ getat b n n x y = Some c)
  ∧ (¬ in_range n n x y →
     ∀ b' : list ubyte, getat b' n n x y = Some x00)
  ∧ (2 <= n →
     numneighbors 0 0 b n n
     = Some (ubyte_to_int (cell b n 1 0) + ubyte_to_int (cell b n 0 1)
             + ubyte_to_int (cell b n 1 1))).
Proof.
  intros Hpos Hint Hlen.
  destruct (getat_safe b n n x y (Z.le_refl n) Hint Hlen) as [Hin Hout].
  split; [| split; [exact Hout | intros Hn; by apply corner_neighbors]].
  intros Hxy. destruct (Hin Hxy) as [Hidx [Hget [c Hc]]].
  split.
  { destruct Hxy as [? ?]. apply (flat_index_id n (n * n)); lia. }
  split; [exact Hidx |].
  exists c. split; [by rewrite <- Hget | exact Hc].
Qed.

Lemma getat_returns_cell_or_dead_witness :
  (in_range 64 64 63 0 →
   int_add (int_mul 63 64) 0 = 63 * 64 + 0
   ∧ 0 <= 63 * 64 + 0 < Z.of_nat (length (replicate 4096 x01))
   ∧ ∃ c, replicate 4096 x01 !! Z.to_nat (63 * 64 + 0) = Some c
          ∧ getat (replicate 4096 x01) 64 64 63 0 = Some c)
  ∧ (¬ in_range 64 64 63 0 →
     ∀ b' : list ubyte, getat b' 64 64 63 0 = Some x00)
  ∧ (2 <= 64 →
     numneighbors 0 0 (replicate 4096 x01) 64 64
     = Some (ubyte_to_int (cell (replicate 4096 x01) 64 1 0)
             + ubyte_to_int (cell (replicate 4096 x01) 64 0 1)
             + ubyte_to_int (cell (replicate 4096 x01) 64 1 1))).
Proof.
  apply (getat_returns_cell_or_dead 64 (replicate 4096 x01) 63 0).
  - lia.
  - vm_compute. discriminate.
  - vm_compute. reflexivity.
Defined.

(** ** The write targets of a generation (C5) *)

(** On a square board the writes of distinct cells go to distinct places
    inside the new buffer, and a launch leaves the current buffer alone. *)
Lemma square_write_targets (n x1 y1 x2 y2 : Z) :
  0 < n → n * n <= INT_MAX →
  in_range n n x1 y1 → in_range n n x2 y2 → (x1, y1) ≠ (x2, y2) →
  int_add (int_mul x1 n) y1 ≠ int_add (int_mul x2 n) y2
  ∧ 0 <= int_add (int_mul x1 n) y1 < n * n.
Proof.
  intros Hpos Hint H1 H2 Hne.
  pose proof (flat_index_bound n n _ _ (Z.le_refl n) H1).
  pose proof (flat_index_bound n n _ _ (Z.le_refl n) H2).
  destruct H1 as [? ?] eqn:E1. destruct H2 as [? ?] eqn:E2.
  rewrite !(flat_index_id n (n * n)) by lia. split; [| lia].
  intros Heq. apply Hne.
  destruct (square_index_inj n Hpos x1 y1 x2 y2) as [-> ->];
    done || (unfold in_range; lia).
Qed.

Lemma launch_keeps_current (n : Z) (s : schedule) (m m' : device)
    (pcurr pnext : devptr) :
  0 < n → n * n <= INT_MAX → (BLOCK_SIDE | n) →
  pcurr ≠ pnext →
  valid_schedule (grid_of n) (Dim3 BLOCK_SIDE BLOCK_SIDE) s →
  Z.of_nat (length (buf m pcurr)) = n * n →
  Z.of_nat (length (buf m pnext)) = n * n →
  launch s (simstep n n pcurr pnext) m = Some m' →
  buf m' pcurr = buf m pcurr.
Proof.
  intros Hpos Hint Hblocks Hne Hs Hlc Hln.
  rewrite launch_generation by done. intros [= <-].
  apply buf_set_buf_ne. congruence.
Qed.

(** C5.  One launch on a square board whose side is a multiple of
    [BLOCK_SIDE], the launch of [main] among them.  Each thread works on one
    cell [(x, y)] of the board; whatever the two buffers hold, it changes
    the new buffer at the index [x * n + y], which lies inside the buffer,
    and changes nothing else: the current buffer is as it was.  Distinct
    cells of the board have distinct indices and distinct threads have
    distinct cells, so no two threads write the same place; and after the
    whole launch, in whatever order, the current buffer is unchanged. *)
Theorem simstep_write_targets_disjoint (n : Z) (s : schedule) (m : device)
    (pcurr pnext : devptr) :
  0 < n → n * n <= INT_MAX → (BLOCK_SIDE | n) →
  pcurr ≠ pnext →
  valid_schedule (grid_of n) (Dim3 BLOCK_SIDE BLOCK_SIDE) s →
  Z.of_nat (length (buf m pcurr)) = n * n →
  Z.of_nat (length (buf m pnext)) = n * n →
  (∀ blk thr, (blk, thr) ∈ s →
     ∃ x y, thread_cell blk thr = (x, y) ∧ in_range n n x y
       ∧ int_add (int_mul x n) y = x * n + y
       ∧ 0 <= x * n + y < n * n
       ∧ ∀ m0 : device,
           Z.of_nat (length (buf m0 pcurr)) = n * n →
           Z.of_nat (length (buf m0 pnext)) = n * n →
           ∃ (m1 : device) (v : ubyte),
             simstep n n pcurr pnext blk thr m0 = Some m1
             ∧ buf m1 pnext = <[Z.to_nat (x * n + y) := v]> (buf m0 pnext)
             ∧ buf m1 pcurr = buf m0 pcurr)
  ∧ (∀ x1 y1 x2 y2,
       in_range n n x1 y1 → in_range n n x2 y2 → (x1, y1) ≠ (x2, y2) →
       int_add (int_mul x1 n) y1 ≠ int_add (int_mul x2 n) y2)
  ∧ (∀ t1 t2, t1 ∈ s → t2 ∈ s → t1 ≠ t2 →
       thread_cell t1.1 t1.2 ≠ thread_cell t2.1 t2.2)
  ∧ ∃ m' : device,
      launch s (simstep n n pcurr pnext) m = Some m'
      ∧ buf m' pcurr = buf m pcurr.
Proof.
  intros Hpos Hint Hblocks Hne Hs Hlc Hln.
  assert (∀ t, t ∈ s → t ∈ threads (grid_of n) (Dim3 BLOCK_SIDE BLOCK_SIDE))
    as Hthreads.
  { intros t Ht. unfold valid_schedule in Hs. by rewrite <- Hs. }
  split.
  { intros blk thr Ht. apply Hthreads in Ht.
    destruct (threads_in_board n Hblocks _ Ht) as [Hnn Hin].
    cbn [fst snd] in Hnn, Hin.
    destruct (thread_cell blk thr) as [x y] eqn:Hcell.
    cbn [fst snd] in Hin.
    pose proof (flat_index_bound n n x y (Z.le_refl n) Hin) as Hidx.
    exists x, y. split; [done |]. split; [done |].
    split.
    { destruct Hin as [? ?]. apply (flat_index_id n (n * n)); lia. }
    split; [exact Hidx |].
    intros m0 Hlc0 Hln0.
    eexists _, _. split.
    - apply (simstep_thread n Hpos Hint pcurr pnext blk thr m0 x y);
        done || lia.
    - split; [apply buf_set_buf_eq | apply buf_set_buf_ne; congruence]. }
  split.
  { intros x1 y1 x2 y2 H1 H2 Hxy.
    by destruct (square_write_targets n x1 y1 x2 y2). }
  split.
  { intros [blk1 thr1] [blk2 thr2] H1 H2 Hne12.
    apply Hthreads, elem_of_threads in H1.
    apply Hthreads, elem_of_threads in H2.
    destruct blk1 as [bx1 by1], thr1 as [tx1 ty1].
    destruct blk2 as [bx2 by2], thr2 as [tx2 ty2].
    unfold thread_cell, BLOCK_SIDE in *. cbn [fst snd dim_x dim_y] in *.
    intros [= Hx Hy]. apply Hne12.
    assert (bx1 = bx2) by lia. assert (by1 = by2) by lia.
    assert (tx1 = tx2) by lia. assert (ty1 = ty2) by lia.
    congruence. }
  exists (set_buf m pnext (generation n (buf m pcurr))).
  split; [by apply launch_generation |].
  apply buf_set_buf_ne. congruence.
Qed.

Lemma simstep_write_targets_disjoint_witness :
  let s := threads (grid_of 16) (Dim3 BLOCK_SIDE BLOCK_SIDE) in
  let m := Device (replicate 256 x01) (replicate 256 x00) in
  (∀ blk thr, (blk, thr) ∈ s →
     ∃ x y, thread_cell blk thr = (x, y) ∧ in_range 16 16 x y
       ∧ int_add (int_mul x 16) y = x * 16 + y
       ∧ 0 <= x * 16 + y < 16 * 16
       ∧ ∀ m0 : device,
           Z.of_nat (length (buf m0 pDevBoard0)) = 16 * 16 →
           Z.of_nat (length (buf m0 pDevBoard1)) = 16 * 16 →
           ∃ (m1 : device) (v : ubyte),
             simstep 16 16 pDevBoard0 pDevBoard1 blk thr m0 = Some m1
             ∧ buf m1 pDevBoard1
               = <[Z.to_nat (x * 16 + y) := v]> (buf m0 pDevBoard1)
             ∧ buf m1 pDevBoard0 = buf m0 pDevBoard0)
  ∧ (∀ x1 y1 x2 y2,
       in_range 16 16 x1 y1 → in_range 16 16 x2 y2 → (x1, y1) ≠ (x2, y2) →
       int_add (int_mul x1 16) y1 ≠ int_add (int_mul x2 16) y2)
  ∧ (∀ t1 t2, t1 ∈ s → t2 ∈ s → t1 ≠ t2 →
       thread_cell t1.1 t1.2 ≠ thread_cell t2.1 t2.2)
  ∧ ∃ m' : device,
      launch s (simstep 16 16 pDevBoard0 pDevBoard1) m = Some m'
      ∧ buf m' pDevBoard0 = buf m pDevBoard0.
Proof.
  cbv zeta.
  apply (simstep_write_targets_disjoint 16
           (threads (grid_of 16) (Dim3 BLOCK_SIDE BLOCK_SIDE))
           (Device (replicate 256 x01) (replicate 256 x00))
           pDevBoard0 pDevBoard1).
  - lia.
  - vm_compute. discriminate.
  - exists 1. reflexivity.
  - discriminate.
  - unfold valid_schedule. apply Permutation_refl.
  - reflexivity.
  - reflexivity.
Defined.

(** Off the square the launch is a different matter, and the reason why the
    statements above are about square boards.  On a board of 32 rows and 16
    columns the cells [(0, 16)] and [(1, 0)] both pass the guard, each has
    its thread, and both threads write index 16 of the new buffer: what is
    found there afterwards depends on which thread ran last.  On a board of
    16 rows and 32 columns the thread of the cell [(31, 15)] works at index
    1007 of buffers of 512 cells.  [main] launches on its 64x64 board
    only. *)
Example simstep_writes_collide_off_square :
  let curr :=
    <[17%nat := x01]> (<[1%nat := x01]> (<[0%nat := x01]>
      (replicate 512 x00))) in
  let m := Device curr (replicate 512 x00) in
  let upper := (Dim3 0 1, Dim3 0 0) in
  let lower := (Dim3 0 0, Dim3 1 0) in
  (upper ∈ threads (Dim3 (Z.quot 16 BLOCK_SIDE) (Z.quot 32 BLOCK_SIDE)) blocksize
   ∧ lower ∈ threads (Dim3 (Z.quot 16 BLOCK_SIDE) (Z.quot 32 BLOCK_SIDE)) blocksize)
  ∧ (thread_cell upper.1 upper.2 = (0, 16) ∧ in_range 32 16 0 16)
  ∧ (thread_cell lower.1 lower.2 = (1, 0) ∧ in_range 32 16 1 0)
  ∧ int_add (int_mul 0 16) 16 = int_add (int_mul 1 16) 0
  ∧ (launch [upper; lower] (simstep 32 16 pDevBoard0 pDevBoard1) m
       ≫= λ m', load m' pDevBoard1 16) = Some x01
  ∧ (launch [lower; upper] (simstep 32 16 pDevBoard0 pDevBoard1) m
       ≫= λ m', load m' pDevBoard1 16) = Some x00
  ∧ (in_range 16 32 31 15
     ∧ thread_cell (Dim3 1 0) (Dim3 15 15) = (31, 15)
     ∧ int_add (int_mul 31 32) 15 = 1007
     ∧ simstep 16 32 pDevBoard0 pDevBoard1 (Dim3 1 0) (Dim3 15 15)
         (Device (replicate 512 x00) (replicate 512 x00)) = None).
Proof.
  cbv zeta. split.
  { split; apply elem_of_threads; vm_compute; repeat split; discriminate. }
  split; [split; [reflexivity | unfold in_range; lia] |].
  split; [split; [reflexivity | unfold in_range; lia] |].
  split; [reflexivity |].
  split; [by vm_compute |].
  split; [by vm_compute |].
  split; [unfold in_range; lia |].
  split; [reflexivity |]. split; [reflexivity | by vm_compute].
Qed.

(** ** Boards given by a predicate on the coordinates *)

Lemma board_of_length (n : Z) (live : Z → Z → bool) :
  length (board_of n live) = Z.to_nat (n * n).
Proof. unfold board_of. by rewrite length_fmap, length_seq. Qed.

Lemma cell_board_of (n : Z) (live : Z → Z → bool) (x y : Z) :
  0 < n → in_range n n x y →
  cell (board_of n live) n x y = cell_of_bool (live x y).
Proof.
  intros Hpos Hin.
  pose proof (flat_index_bound n n x y (Z.le_refl n) Hin).
  destruct Hin as [Hx Hy]. unfold cell, board_of.
  rewrite list_lookup_fmap, lookup_seq_lt by lia. simpl.
  rewrite Z2Nat.id by lia.
  replace ((x * n + y) / n) with x by (apply Z.div_unique with y; lia).
  replace ((x * n + y) mod n) with y by (apply Z.mod_unique with x; lia).
  done.
Qed.

(** A predicate that holds on the board only: its guarded reads are its
    values everywhere. *)
Lemma guarded_board_of (n : Z) (live : Z → Z → bool) (x y : Z) :
  0 < n →
  (∀ x y, live x y = true → in_range n n x y) →
  guarded (board_of n live) n n x y = cell_of_bool (live x y).
Proof.
  intros Hpos Hsupp.
  destruct (decide (in_range n n x y)) as [Hin | Hout].
  - rewrite guarded_inside by done. by apply cell_board_of.
  - rewrite guarded_outside by done.
    destruct (live x y) eqn:E; [| done]. by apply Hsupp in E.
Qed.

(** Two boards of the same size with the same cells are the same board. *)
Lemma board_eq_cells (n : Z) (b1 b2 : list ubyte) :
  0 < n →
  Z.of_nat (length b1) = n * n → Z.of_nat (length b2) = n * n →
  (∀ x y, in_range n n x y →
          b1 !! Z.to_nat (x * n + y) = b2 !! Z.to_nat (x * n + y)) →
  b1 = b2.
Proof.
  intros Hpos H1 H2 Hcells. apply list_eq. intros i.
  destruct (decide (Z.of_nat i < n * n)) as [Hi | Hi].
  - pose proof (Z.mod_pos_bound (Z.of_nat i) n Hpos).
    pose proof (Z.div_mod (Z.of_nat i) n).
    assert (in_range n n (Z.of_nat i / n) (Z.of_nat i mod n)) as Hin.
    { unfold in_range. split; [| lia]. split; [apply Z.div_pos; lia |].
      apply Z.div_lt_upper_bound; lia. }
    specialize (Hcells _ _ Hin).
    by replace (Z.to_nat (Z.of_nat i / n * n + Z.of_nat i mod n)) with i
      in Hcells by lia.
  - rewrite !lookup_ge_None_2 by lia. done.
Qed.

Lemma board_of_lookup (n : Z) (live : Z → Z → bool) (x y : Z) :
  0 < n → in_range n n x y →
  board_of n live !! Z.to_nat (x * n + y) = Some (cell_of_bool (live x y)).
Proof.
  intros Hpos Hin.
  pose proof (flat_index_bound n n x y (Z.le_refl n) Hin).
  destruct Hin as [Hx Hy]. unfold board_of.
  rewrite list_lookup_fmap, lookup_seq_lt by lia. simpl.
  rewrite Z2Nat.id by lia.
  replace ((x * n + y) / n) with x by (apply Z.div_unique with y; lia).
  replace ((x * n + y) mod n) with y by (apply Z.mod_unique with x; lia).
  done.
Qed.

(** The next generation of a board given by a predicate, from the rule at
    every cell. *)
Lemma generation_board_of (n : Z) (live live' : Z → Z → bool) :
  0 < n →
  (∀ x y, in_range n n x y →
     next_cell (cell_of_bool (live x y))
       (neighbor_sum (board_of n live) n n x y)
     = cell_of_bool (live' x y)) →
  generation n (board_of n live) = board_of n live'.
Proof.
  intros Hpos Hrule.
  apply (board_eq_cells n); [done | | |].
  - rewrite generation_length. nia.
  - rewrite board_of_length. nia.
  - intros x y Hin. rewrite generation_lookup, board_of_lookup by done.
    rewrite cell_board_of by done. f_equal. by apply Hrule.
Qed.

(** ** The all-dead board (C9) *)

Lemma all_dead_board_of (n : Z) : all_dead n = board_of n (λ _ _, false).
Proof.
  unfold all_dead, board_of. apply list_eq. intros i.
  rewrite list_lookup_fmap.
  destruct (decide (i < Z.to_nat (n * n))%nat) as [Hi | Hi].
  - rewrite lookup_replicate_2, lookup_seq_lt by done. done.
  - rewrite lookup_seq_ge by lia. simpl.
    apply lookup_replicate_None. lia.
Qed.

Lemma generation_all_dead (n : Z) :
  0 < n → generation n (all_dead n) = all_dead n.
Proof.
  intros Hpos. rewrite all_dead_board_of.
  apply generation_board_of; [done |].
  intros x y Hin. unfold neighbor_sum.
  rewrite !guarded_board_of by done. reflexivity.
Qed.

Lemma generations_all_dead (n : Z) (k : nat) :
  0 < n → Nat.iter k (generation n) (all_dead n) = all_dead n.
Proof.
  intros Hpos. induction k as [| k IH]; [done |].
  simpl. rewrite IH. by apply generation_all_dead.
Qed.

(** C9.  The generation loop of [main], run for any number [k] of
    generations on an all-dead board and with whatever is in the other
    buffer: every launch succeeds, and the board of the last generation (the
    one that generation [k] would read) is all dead; in closed form, [k]
    generations of the all-dead board of any side are that board. *)
Theorem all_dead_board_stays_dead (PB : bool) (e : environment) (k : Z)
    (st : loop_state) (tr : list event) :
  fair e → sized st → 0 <= k →
  buf (ls_dev st) (ptr_at 0) = all_dead boardW →
  (∃ tr' st',
     for_range 0 k (generation_body PB e) st tr = (tr', Some st')
     ∧ buf (ls_dev st') (ptr_at k) = all_dead boardW)
  ∧ ∀ n : Z, 0 < n →
      Nat.iter (Z.to_nat k) (generation n) (all_dead n) = all_dead n.
Proof.
  intros Hfair Hsized Hk Hdead. split.
  - destruct (generation_loop PB e (Z.to_nat (k - 0)) Hfair 0 st tr
                (Z.le_refl 0) Hsized)
      as [tr' [st' [Hrun [_ [Hnewest _]]]]].
    exists tr', st'. split; [exact Hrun |].
    rewrite Hdead in Hnewest.
    rewrite generations_all_dead in Hnewest by apply board_side_pos.
    by replace (0 + Z.of_nat (Z.to_nat (k - 0))) with k in Hnewest by lia.
  - intros n Hn. by apply generations_all_dead.
Qed.

Lemma in_order_fair (a b c : bool) (d : nat → bool) :
  fair (in_order a b c d).
Proof. intros gen. apply Permutation_refl. Qed.

Lemma all_dead_board_stays_dead_witness :
  (∃ tr' st',
     for_range 0 3
       (generation_body false (in_order true true true (λ _, false)))
       (LoopState (all_dead boardW)
          (Device (all_dead boardW) (all_dead boardW)) None None) []
     = (tr', Some st')
     ∧ buf (ls_dev st') (ptr_at 3) = all_dead boardW)
  ∧ ∀ n : Z, 0 < n →
      Nat.iter (Z.to_nat 3) (generation n) (all_dead n) = all_dead n.
Proof.
  apply (all_dead_board_stays_dead false
           (in_order true true true (λ _, false)) 3
           (LoopState (all_dead boardW)
              (Device (all_dead boardW) (all_dead boardW)) None None) []).
  - apply in_order_fair.
  - unfold sized, all_dead. cbn [ls_pboard ls_dev board0 board1].
    rewrite length_replicate. pose proof board_side_pos. repeat split; nia.
  - lia.
  - reflexivity.
Defined.

(** ** Cells stay 0 or 1 (C10) *)

Lemma next_cell_binary (c : ubyte) (k : Z) :
  c = x00 ∨ c = x01 → next_cell c k = x00 ∨ next_cell c k = x01.
Proof.
  intros Hc. unfold next_cell. cbv zeta.
  destruct ((k =? 3) && negb (is_set c)); [by right |].
  destruct (k >? 3); [by left |]. destruct (k <? 2); [by left | done].
Qed.

(** What [simstep] writes is 0, 1 or the current cell. *)
Lemma next_cell_values (c : ubyte) (k : Z) :
  next_cell c k = x00 ∨ next_cell c k = x01 ∨ next_cell c k = c.
Proof.
  unfold next_cell. cbv zeta.
  destruct ((k =? 3) && negb (is_set c)); [by right; left |].
  destruct (k >? 3); [by left |]. destruct (k <? 2); [by left |].
  by right; right.
Qed.

Lemma generation_binary (n : Z) (b : list ubyte) :
  binary b → binary (generation n b).
Proof.
  intros Hb. unfold binary, generation. apply Forall_fmap, Forall_forall.
  intros i _. simpl. apply next_cell_binary. by apply binary_cell.
Qed.

Lemma randomized_binary (d : nat → bool) (calls : nat) (n : Z) :
  binary (randomized d calls n).
Proof.
  unfold binary, randomized. apply Forall_fmap, Forall_forall.
  intros i _. simpl. destruct (d (calls + i)%nat); [by right | by left].
Qed.

(** C10.  On a square board whose side is a multiple of [BLOCK_SIDE]: a
    launch of [simstep] writes to every cell 0, 1 or the value of the
    current cell, so that a current board of zeros and ones gives a new
    board of zeros and ones, whatever the new buffer held; [randomizeBoard]
    fills a board of zeros and ones, whatever the draws and whatever the
    buffer held; and the [cudaMemset] of the second buffer leaves zeros. *)
Theorem cells_stay_binary (n : Z) (s : schedule) (m : device)
    (pcurr pnext : devptr) (d : nat → bool) (pboard dev1 : list ubyte)
    (calls : nat) :
  0 < n → n * n <= INT_MAX → (BLOCK_SIDE | n) →
  pcurr ≠ pnext →
  valid_schedule (grid_of n) (Dim3 BLOCK_SIDE BLOCK_SIDE) s →
  Z.of_nat (length (buf m pcurr)) = n * n →
  Z.of_nat (length (buf m pnext)) = n * n →
  Z.of_nat (length pboard) = n * n →
  Z.of_nat (length dev1) = n * n →
  (∃ m', launch s (simstep n n pcurr pnext) m = Some m'
         ∧ (∀ x y, in_range n n x y →
              ∃ c c', load m pcurr (x * n + y) = Some c
                      ∧ load m' pnext (x * n + y) = Some c'
                      ∧ (c' = x00 ∨ c' = x01 ∨ c' = c))
         ∧ (binary (buf m pcurr) → binary (buf m' pnext)))
  ∧ (∃ pboard' calls',
       randomizeBoard d pboard n n calls = Some (pboard', calls')
       ∧ binary pboard')
  ∧ binary (cudaMemset dev1 x00 (n * n * 1)).
Proof.
  intros Hpos Hint Hblocks Hne Hs Hlc Hln Hlb Hl1. split; [| split].
  - exists (set_buf m pnext (generation n (buf m pcurr))).
    split; [by apply launch_generation |]. split.
    + intros x y Hin.
      pose proof (flat_index_bound n n x y (Z.le_refl n) Hin) as Hidx.
      exists (cell (buf m pcurr) n x y),
        (next_cell (cell (buf m pcurr) n x y)
           (neighbor_sum (buf m pcurr) n n x y)).
      split; [| split; [| apply next_cell_values]].
      * unfold load. rewrite rd_lookup by lia.
        by destruct (getat_inside (buf m pcurr) n n x y) as [_ ->];
          try lia.
      * unfold load. rewrite buf_set_buf_eq, rd_lookup by lia.
        by apply generation_lookup.
    + intros Hb. rewrite buf_set_buf_eq. by apply generation_binary.
  - eexists _, _. split; [by apply randomizeBoard_randomized |].
    apply randomized_binary.
  - rewrite cudaMemset_whole by lia. unfold binary.
    apply Forall_replicate. by left.
Qed.

Lemma cells_stay_binary_witness :
  (∃ m', launch (threads (grid_of 16) (Dim3 BLOCK_SIDE BLOCK_SIDE))
           (simstep 16 16 pDevBoard0 pDevBoard1)
           (Device (replicate 256 x01) (replicate 256 x00)) = Some m'
         ∧ (∀ x y, in_range 16 16 x y →
              ∃ c c',
                load (Device (replicate 256 x01) (replicate 256 x00))
                  pDevBoard0 (x * 16 + y) = Some c
                ∧ load m' pDevBoard1 (x * 16 + y) = Some c'
                ∧ (c' = x00 ∨ c' = x01 ∨ c' = c))
         ∧ (binary (buf (Device (replicate 256 x01) (replicate 256 x00))
                      pDevBoard0) →
            binary (buf m' pDevBoard1)))
  ∧ (∃ pboard' calls',
       randomizeBoard (λ k, Nat.even k) (replicate 256 xff) 16 16 0
       = Some (pboard', calls')
       ∧ binary pboard')
  ∧ binary (cudaMemset (replicate 256 xff) x00 (16 * 16 * 1)).
Proof.
  apply (cells_stay_binary 16
           (threads (grid_of 16) (Dim3 BLOCK_SIDE BLOCK_SIDE))
           (Device (replicate 256 x01) (replicate 256 x00))
           pDevBoard0 pDevBoard1 (λ k, Nat.even k)
           (replicate 256 xff) (replicate 256 xff) 0).
  - lia.
  - vm_compute. discriminate.
  - exists 1. reflexivity.
  - discriminate.
  - apply Permutation_refl.
  - reflexivity.
  - reflexivity.
  - reflexivity.
  - reflexivity.
Defined.

(** ** The blinker (C8) *)

Lemma blinker_on_board (n : Z) (o : orientation) (cx cy x y : Z) :
  1 <= cx → cx + 1 < n → 1 <= cy → cy + 1 < n →
  blinker o cx cy x y = true → in_range n n x y.
Proof.
  intros ? ? ? ?. unfold in_range.
  destruct o; simpl; rewrite !andb_true_iff; lia.
Qed.

(** Settle the comparisons of the goal that arithmetic decides. *)
Ltac settle_comparisons :=
  repeat match goal with
         | |- context [?a =? ?b] =>
             first [ rewrite (proj2 (Z.eqb_eq a b)) by lia
                   | rewrite (proj2 (Z.eqb_neq a b)) by lia ]
         | |- context [?a <=? ?b] =>
             first [ rewrite (proj2 (Z.leb_le a b)) by lia
                   | rewrite (proj2 (Z.leb_gt a b)) by lia ]
         end.

Lemma generation_blinker (n : Z) (o : orientation) (cx cy : Z) :
  0 < n → 1 <= cx → cx + 1 < n → 1 <= cy → cy + 1 < n →
  generation n (board_of n (blinker o cx cy))
  = board_of n (blinker (turn o) cx cy).
Proof.
  intros Hpos Hx1 Hx2 Hy1 Hy2.
  apply generation_board_of; [done |].
  intros x y _. unfold neighbor_sum.
  rewrite !guarded_board_of
    by (done || (intros x' y'; by apply (blinker_on_board n o cx cy x' y'))).
  assert (x < cx - 2 ∨ x = cx - 2 ∨ x = cx - 1 ∨ x = cx ∨ x = cx + 1
          ∨ x = cx + 2 ∨ cx + 2 < x) as Hx by lia.
  assert (y < cy - 2 ∨ y = cy - 2 ∨ y = cy - 1 ∨ y = cy ∨ y = cy + 1
          ∨ y = cy + 2 ∨ cy + 2 < y) as Hy by lia.
  destruct o; unfold blinker, turn;
    destruct Hx as [Hx | [Hx | [Hx | [Hx | [Hx | [Hx | Hx]]]]]];
    destruct Hy as [Hy | [Hy | [Hy | [Hy | [Hy | [Hy | Hy]]]]]];
    settle_comparisons; reflexivity.
Qed.

(** C8.  A board of side [n] that holds a blinker centred on [(cx, cy)], a
    line of three live cells along either axis with everything else dead and
    the centre at least one cell away from every border: one launch of
    [simstep] leaves in the new buffer the line of three along the other axis
    with the same centre, and a second launch, from that buffer back into
    the first, leaves the board as it began. *)
Theorem blinker_oscillates (n : Z) (o : orientation) (cx cy : Z)
    (s1 s2 : schedule) (m : device) (pcurr pnext : devptr) :
  0 < n → n * n <= INT_MAX → (BLOCK_SIDE | n) →
  pcurr ≠ pnext →
  valid_schedule (grid_of n) (Dim3 BLOCK_SIDE BLOCK_SIDE) s1 →
  valid_schedule (grid_of n) (Dim3 BLOCK_SIDE BLOCK_SIDE) s2 →
  1 <= cx → cx + 1 < n → 1 <= cy → cy + 1 < n →
  buf m pcurr = board_of n (blinker o cx cy) →
  Z.of_nat (length (buf m pnext)) = n * n →
  ∃ m1 m2,
    launch s1 (simstep n n pcurr pnext) m = Some m1
    ∧ buf m1 pnext = board_of n (blinker (turn o) cx cy)
    ∧ launch s2 (simstep n n pnext pcurr) m1 = Some m2
    ∧ buf m2 pcurr = board_of n (blinker o cx cy).
Proof.
  intros Hpos Hint Hblocks Hne Hs1 Hs2 Hx1 Hx2 Hy1 Hy2 Hcurr Hln.
  assert (∀ live, Z.of_nat (length (board_of n live)) = n * n) as Hlen
    by (intros live; rewrite board_of_length; nia).
  set (m1 := set_buf m pnext (generation n (buf m pcurr))).
  assert (buf m1 pnext = board_of n (blinker (turn o) cx cy)) as Hm1.
  { unfold m1. rewrite buf_set_buf_eq, Hcurr. by apply generation_blinker. }
  assert (buf m1 pcurr = board_of n (blinker o cx cy)) as Hm1c.
  { unfold m1. rewrite buf_set_buf_ne by congruence. done. }
  exists m1, (set_buf m1 pcurr (generation n (buf m1 pnext))).
  split.
  { apply launch_generation; try done. rewrite Hcurr. apply Hlen. }
  split; [done |]. split.
  { apply launch_generation; try done; try congruence;
      rewrite ?Hm1, ?Hm1c; apply Hlen. }
  rewrite buf_set_buf_eq, Hm1, generation_blinker by done.
  by destruct o.
Qed.

Lemma blinker_oscillates_witness :
  ∃ m1 m2,
    launch (threads (grid_of 16) (Dim3 BLOCK_SIDE BLOCK_SIDE))
      (simstep 16 16 pDevBoard0 pDevBoard1)
      (Device (board_of 16 (blinker Along_y 5 9)) (replicate 256 x00))
    = Some m1
    ∧ buf m1 pDevBoard1 = board_of 16 (blinker (turn Along_y) 5 9)
    ∧ launch (threads (grid_of 16) (Dim3 BLOCK_SIDE BLOCK_SIDE))
        (simstep 16 16 pDevBoard1 pDevBoard0) m1 = Some m2
    ∧ buf m2 pDevBoard0 = board_of 16 (blinker Along_y 5 9).
Proof.
  apply (blinker_oscillates 16 Along_y 5 9
           (threads (grid_of 16) (Dim3 BLOCK_SIDE BLOCK_SIDE))
           (threads (grid_of 16) (Dim3 BLOCK_SIDE BLOCK_SIDE))
           (Device (board_of 16 (blinker Along_y 5 9)) (replicate 256 x00))
           pDevBoard0 pDevBoard1).
  - lia.
  - vm_compute. discriminate.
  - exists 1. reflexivity.
  - discriminate.
  - apply Permutation_refl.
  - apply Permutation_refl.
  - lia.
  - lia.
  - lia.
  - lia.
  - reflexivity.
  - reflexivity.
Defined.

(** ** The board that [main] prints as the result (C2) *)

(** C2, at one generation.  Run with the argument 1 on an initial board
    that is all alive, [main] prints as "Resulting Board" the initial board
    itself: the final [cudaMemcpy] copies from [pcurr], the buffer that the
    last launch read, not from [pnext], the one it wrote.  The board after
    one generation is another one (the cell [(1, 1)], at index 65, has eight
    live neighbours and dies), and it is the one that the same run prints
    inside the loop when [PRINT_BOARDS] is on, where the copy is from
    [pnext]. *)
Theorem main_prints_board_before_last_generation :
  ngenerations_of ["gol"; "1"] = 1
  ∧ (∃ tr text,
       main false ["gol"; "1"] all_alive_run []
       = (tr ++ [PrintBoard "Resulting Board:"
                   (initial_board all_alive_run) text;
                 Printf_summary 1], Some 0))
  ∧ initial_board all_alive_run !! 65%nat = Some x01
  ∧ generation boardW (initial_board all_alive_run) !! 65%nat = Some x00
  ∧ (∃ tr text text',
       main true ["gol"; "1"] all_alive_run []
       = (tr ++ [PrintBoard " "
                   (generation boardW (initial_board all_alive_run)) text;
                 PrintBoard "Resulting Board:"
                   (initial_board all_alive_run) text';
                 Printf_summary 1], Some 0)).
Proof.
  assert (ngenerations_of ["gol"; "1"] = 1) as HN by reflexivity.
  assert (all_allocated all_alive_run) as Hall by done.
  assert (fair all_alive_run) as Hfair by apply in_order_fair.
  assert (1 <= ngenerations_of ["gol"; "1"]) as Hone by (rewrite HN; lia).
  split; [exact HN |]. split; [| split; [| split]].
  - destruct (main_run false ["gol"; "1"] all_alive_run Hall Hfair Hone)
      as [tr [text [Hrun _]]].
    rewrite HN in Hrun. by exists tr, text.
  - by vm_compute.
  - change 65%nat with (Z.to_nat (1 * boardW + 1)).
    rewrite (generation_lookup boardW board_side_pos)
      by (by vm_compute).
    by vm_compute.
  - destruct (main_run true ["gol"; "1"] all_alive_run Hall Hfair Hone)
      as [tr [text' [Hrun Hprint]]].
    destruct (Hprint eq_refl) as [tr0 [text ->]].
    rewrite HN in Hrun. exists tr0, text, text'.
    rewrite Hrun. by rewrite <- app_assoc.
Qed.

(** ** Allocation failures (C6) *)

(** Against C6 as stated: when [malloc] fails, the run prints its banner
    and goes on to [randomizeBoard], which writes through the null pointer;
    it returns no code at all. *)
Lemma main_uses_null_buffer :
  allocation_fails no_host_memory
  ∧ main false ["gol"] no_host_memory []
    = ([Printf_running 1000000], None)
  ∧ ¬ aborts_before_launch (main false ["gol"] no_host_memory []).
Proof.
  split; [reflexivity |].
  assert (main false ["gol"] no_host_memory []
          = ([Printf_running 1000000], None)) as Hrun by reflexivity.
  split; [exact Hrun |]. rewrite Hrun.
  intros [[code [Hcode _]] _]. discriminate.
Qed.

(** C6, amended.  [main] tests no allocation result and has no diagnostic
    and no failure code.  When an allocation fails, the statement after it
    uses the pointer all the same ([randomizeBoard] for the host buffer,
    [cudaMemcpy] and [cudaMemset] for the device buffers) and the behaviour
    is undefined from there: the run has printed its banner, and the initial
    board if the host buffer was there, and has launched nothing. *)
Theorem main_does_not_check_allocations (PB : bool) (argv : list string)
    (e : environment) :
  allocation_fails e →
  ∃ tr,
    main PB argv e [] = (tr, None)
    ∧ (tr = [Printf_running (ngenerations_of argv)]
       ∨ ∃ text,
           tr = [Printf_running (ngenerations_of argv);
                 PrintBoard "Initial Board:" (initial_board e) text])
    ∧ ∀ gen pcurr pnext, Launch gen pcurr pnext ∉ tr.
Proof.
  intros Hfail. unfold allocation_fails in Hfail.
  pose proof board_side_pos as Hpos.
  unfold main. cbv zeta. rewrite run_bind_emit. simpl app.
  destruct (malloc_ok e) eqn:Hm.
  - rewrite alloc_true, board_bytes, board_bytes', board_square.
    set (junk := fresh e <$> seq 0 (Z.to_nat (boardW * boardW))).
    assert (Z.of_nat (length junk) = boardW * boardW) as Hjunk
      by (unfold junk; rewrite length_fmap, length_seq; nia).
    rewrite (run_bind_deref _ _ _ _ eq_refl).
    rewrite (run_bind_lift _ _ _ _
               (randomizeBoard_randomized boardW board_side_pos
                  board_side_int (draws e) junk 0%nat Hjunk)).
    fold (initial_board e).
    destruct (printBoard_total boardW board_side_pos board_side_int
                "Initial Board:" (initial_board e)
                (initial_board_length e)) as [text Htext].
    rewrite (run_bind_lift _ _ _ _ Htext). rewrite run_bind_emit. simpl app.
    exists [Printf_running (ngenerations_of argv);
            PrintBoard "Initial Board:" (initial_board e) text].
    split; [| split; [right; by exists text |]].
    + destruct (cudaMalloc0_ok e) eqn:Hc0.
      * destruct (cudaMalloc1_ok e) eqn:Hc1; [exfalso; discriminate Hfail |].
        rewrite alloc_true, alloc_false.
        rewrite (run_bind_deref _ _ _ _ eq_refl).
        apply run_bind_deref_None.
      * rewrite alloc_false. apply run_bind_deref_None.
    + intros gen pcurr pnext Hin.
      apply elem_of_cons in Hin as [[=] | Hin].
      apply elem_of_cons in Hin as [[=] | Hin].
      by apply elem_of_nil in Hin.
  - exists [Printf_running (ngenerations_of argv)].
    split; [| split; [by left |]].
    + rewrite alloc_false. apply run_bind_deref_None.
    + intros gen pcurr pnext Hin.
      apply elem_of_cons in Hin as [[=] | Hin].
      by apply elem_of_nil in Hin.
Qed.

Lemma main_does_not_check_allocations_witness :
  ∃ tr,
    main false ["gol"; "3"] (in_order true false true (λ _, true)) []
    = (tr, None)
    ∧ (tr = [Printf_running (ngenerations_of ["gol"; "3"])]
       ∨ ∃ text,
           tr = [Printf_running (ngenerations_of ["gol"; "3"]);
                 PrintBoard "Initial Board:"
                   (initial_board (in_order true false true (λ _, true)))
                   text])
    ∧ ∀ gen pcurr pnext, Launch gen pcurr pnext ∉ tr.
Proof.
  apply (main_does_not_check_allocations false ["gol"; "3"]
           (in_order true false true (λ _, true))).
  reflexivity.
Defined.

(** ** The generation count from the command line (C7) *)

Lemma atoi_non_numeric (s : string) : non_numeric s → atoi s = 0.
Proof.
  unfold non_numeric, atoi, strtol10.
  destruct (sign_and_digits (skip_spaces s)) as [negative digits]. simpl.
  destruct digits as [| c r]; simpl.
  - intros _. by destruct negative.
  - intros ->. by destruct negative.
Qed.

(** A run that is asked for no generation: the loop body never runs, and
    the final copy reads [pcurr], which was never assigned. *)
Lemma main_without_generation (PB : bool) (argv : list string)
    (e : environment) :
  all_allocated e → ngenerations_of argv <= 0 →
  ∃ text,
    main PB argv e []
    = ([Printf_running (ngenerations_of argv);
        PrintBoard "Initial Board:" (initial_board e) text], None).
Proof.
  intros [Hm [Hc0 Hc1]] HN. pose proof board_side_pos as Hpos.
  unfold main. cbv zeta. rewrite run_bind_emit. simpl app.
  rewrite Hm, Hc0, Hc1, !alloc_true.
  rewrite board_bytes, board_bytes', board_square.
  set (junk := fresh e <$> seq 0 (Z.to_nat (boardW * boardW))).
  assert (Z.of_nat (length junk) = boardW * boardW) as Hjunk
    by (unfold junk; rewrite length_fmap, length_seq; nia).
  rewrite (run_bind_deref _ _ _ _ eq_refl).
  rewrite (run_bind_lift _ _ _ _
             (randomizeBoard_randomized boardW board_side_pos board_side_int
                (draws e) junk 0%nat Hjunk)).
  fold (initial_board e).
  destruct (printBoard_total boardW board_side_pos board_side_int
              "Initial Board:" (initial_board e) (initial_board_length e))
    as [text Htext].
  rewrite (run_bind_lift _ _ _ _ Htext). rewrite run_bind_emit. simpl app.
  rewrite (run_bind_deref _ _ _ _ eq_refl).
  rewrite (run_bind_deref _ _ _ _ eq_refl).
  exists text. unfold for_range.
  replace (Z.to_nat (ngenerations_of argv - 0)) with 0%nat by lia.
  cbn [for_up].
  erewrite run_bind_step; [| reflexivity].
  cbn [ls_pcurr]. apply run_bind_deref_None.
Qed.

(** Against C7 as stated: the argument "abc" is no number, and the count
    is not the one of a run without argument. *)
Lemma malformed_count_is_not_default :
  non_numeric "abc"
  ∧ ngenerations_of ["gol"; "abc"] = 0
  ∧ ngenerations_of ["gol"] = 1000000
  ∧ ngenerations_of ["gol"; "abc"] ≠ ngenerations_of ["gol"].
Proof. repeat split; done. Qed.

(** C7, amended.  For an argument that is no number the generation count
    is 0, the value of [atoi], and not the default 1000000, which is the
    count only when no argument is given; the run does not fail on the
    argument. *)
Theorem malformed_count_is_zero (prog arg : string) (rest : list string) :
  non_numeric arg →
  ngenerations_of (prog :: arg :: rest) = 0
  ∧ ngenerations_of [prog] = 1000000.
Proof.
  intros Harg. split; [| reflexivity].
  unfold ngenerations_of.
  replace (Z.of_nat (length (prog :: arg :: rest)) >? 1) with true
    by (symmetry; apply Z.gtb_gt; simpl length; lia).
  simpl. by apply atoi_non_numeric.
Qed.

Lemma malformed_count_is_zero_witness :
  ngenerations_of ["gol"; "  -x12"] = 0
  ∧ ngenerations_of ["gol"] = 1000000.
Proof.
  apply (malformed_count_is_zero "gol" "  -x12" []).
  exact (eq_refl : digit_of "x" = None).
Defined.

(** * Further properties *)

(** ** Launches: order, frame, partial tiles *)

(** X1.  On a square board whose side is a multiple of [BLOCK_SIDE], two
    launches of [simstep] from the same memory that run the threads in
    different orders both succeed and leave the same memory. *)
Theorem launch_order_independent (n : Z) (s1 s2 : schedule) (m : device)
    (pcurr pnext : devptr) :
  0 < n → n * n <= INT_MAX → (BLOCK_SIDE | n) →
  pcurr ≠ pnext →
  valid_schedule (grid_of n) (Dim3 BLOCK_SIDE BLOCK_SIDE) s1 →
  valid_schedule (grid_of n) (Dim3 BLOCK_SIDE BLOCK_SIDE) s2 →
  Z.of_nat (length (buf m pcurr)) = n * n →
  Z.of_nat (length (buf m pnext)) = n * n →
  ∃ m', launch s1 (simstep n n pcurr pnext) m = Some m'
        ∧ launch s2 (simstep n n pcurr pnext) m = Some m'.
Proof.
  intros Hpos Hint Hblocks Hne Hs1 Hs2 Hlc Hln.
  exists (set_buf m pnext (generation n (buf m pcurr))).
  split; by apply launch_generation.
Qed.

Lemma launch_order_independent_witness :
  ∃ m', launch (threads (grid_of 16) (Dim3 BLOCK_SIDE BLOCK_SIDE))
          (simstep 16 16 pDevBoard0 pDevBoard1)
          (Device (replicate 256 x01) (replicate 256 x00)) = Some m'
        ∧ launch (reverse (threads (grid_of 16) (Dim3 BLOCK_SIDE BLOCK_SIDE)))
            (simstep 16 16 pDevBoard0 pDevBoard1)
            (Device (replicate 256 x01) (replicate 256 x00)) = Some m'.
Proof.
  apply (launch_order_independent 16
           (threads (grid_of 16) (Dim3 BLOCK_SIDE BLOCK_SIDE))
           (reverse (threads (grid_of 16) (Dim3 BLOCK_SIDE BLOCK_SIDE)))
           (Device (replicate 256 x01) (replicate 256 x00))
           pDevBoard0 pDevBoard1).
  - lia.
  - vm_compute. discriminate.
  - exists 1. reflexivity.
  - discriminate.
  - apply Permutation_refl.
  - unfold valid_schedule. apply reverse_Permutation.
  - reflexivity.
  - reflexivity.
Defined.

(** X2.  A launch overwrites the whole new buffer from the current one
    alone: two memories with the same current board get the same new board,
    whatever their new buffers held before; the current buffer and the
    sizes of both buffers are as they were. *)
Theorem launch_overwrites_new_buffer (n : Z) (s : schedule) (m1 m2 : device)
    (pcurr pnext : devptr) :
  0 < n → n * n <= INT_MAX → (BLOCK_SIDE | n) →
  pcurr ≠ pnext →
  valid_schedule (grid_of n) (Dim3 BLOCK_SIDE BLOCK_SIDE) s →
  Z.of_nat (length (buf m1 pcurr)) = n * n →
  Z.of_nat (length (buf m1 pnext)) = n * n →
  Z.of_nat (length (buf m2 pnext)) = n * n →
  buf m2 pcurr = buf m1 pcurr →
  ∃ m1' m2',
    launch s (simstep n n pcurr pnext) m1 = Some m1'
    ∧ launch s (simstep n n pcurr pnext) m2 = Some m2'
    ∧ buf m1' pnext = buf m2' pnext
    ∧ buf m1' pcurr = buf m1 pcurr
    ∧ Z.of_nat (length (buf m1' pnext)) = n * n.
Proof.
  intros Hpos Hint Hblocks Hne Hs Hl1c Hl1n Hl2n Hsame.
  exists (set_buf m1 pnext (generation n (buf m1 pcurr))),
    (set_buf m2 pnext (generation n (buf m2 pcurr))).
  split; [by apply launch_generation |].
  split; [apply launch_generation; try done; by rewrite Hsame |].
  rewrite !buf_set_buf_eq, Hsame, generation_length.
  rewrite buf_set_buf_ne by congruence. repeat split; nia.
Qed.

Lemma launch_overwrites_new_buffer_witness :
  ∃ m1' m2',
    launch (threads (grid_of 16) (Dim3 BLOCK_SIDE BLOCK_SIDE))
      (simstep 16 16 pDevBoard0 pDevBoard1)
      (Device (replicate 256 x01) (replicate 256 x00)) = Some m1'
    ∧ launch (threads (grid_of 16) (Dim3 BLOCK_SIDE BLOCK_SIDE))
        (simstep 16 16 pDevBoard0 pDevBoard1)
        (Device (replicate 256 x01) (replicate 256 xff)) = Some m2'
    ∧ buf m1' pDevBoard1 = buf m2' pDevBoard1
    ∧ buf m1' pDevBoard0
      = buf (Device (replicate 256 x01) (replicate 256 x00)) pDevBoard0
    ∧ Z.of_nat (length (buf m1' pDevBoard1)) = 16 * 16.
Proof.
  apply (launch_overwrites_new_buffer 16
           (threads (grid_of 16) (Dim3 BLOCK_SIDE BLOCK_SIDE))
           (Device (replicate 256 x01) (replicate 256 x00))
           (Device (replicate 256 x01) (replicate 256 xff))
           pDevBoard0 pDevBoard1).
  - lia.
  - vm_compute. discriminate.
  - exists 1. reflexivity.
  - discriminate.
  - apply Permutation_refl.
  - reflexivity.
  - reflexivity.
  - reflexivity.
  - reflexivity.
Defined.

Lemma covered_bounds (n : Z) :
  0 <= n → 0 <= covered n <= n ∧ n - covered n < BLOCK_SIDE.
Proof.
  intros Hn. unfold covered, BLOCK_SIDE.
  pose proof (Z.quot_rem' n 16). pose proof (Z.rem_bound_pos n 16). lia.
Qed.

Lemma threads_reach_covered (n : Z) (bt : dim3 * dim3) :
  0 <= n →
  bt ∈ threads (grid_of n) (Dim3 BLOCK_SIDE BLOCK_SIDE) →
  thread_in_board n bt
  ∧ (thread_cell bt.1 bt.2).1 < covered n
  ∧ (thread_cell bt.1 bt.2).2 < covered n.
Proof.
  intros Hn. destruct bt as [blk thr]. rewrite elem_of_threads.
  pose proof (covered_bounds n Hn) as Hc.
  unfold grid_of, thread_in_board, in_range, thread_cell, covered in *.
  simpl. unfold BLOCK_SIDE in *. lia.
Qed.

Lemma covered_cells_have_threads (n x y : Z) :
  0 <= x < covered n → 0 <= y < covered n →
  ∃ bt, bt ∈ threads (grid_of n) (Dim3 BLOCK_SIDE BLOCK_SIDE)
        ∧ thread_cell bt.1 bt.2 = (x, y).
Proof.
  intros Hx Hy.
  exists (Dim3 (x / BLOCK_SIDE) (y / BLOCK_SIDE),
          Dim3 (x mod BLOCK_SIDE) (y mod BLOCK_SIDE)).
  rewrite elem_of_threads. unfold grid_of, thread_cell, covered in *. simpl.
  unfold BLOCK_SIDE in *.
  pose proof (Z.div_mod x 16). pose proof (Z.div_mod y 16).
  pose proof (Z.mod_pos_bound x 16). pose proof (Z.mod_pos_bound y 16).
  split; [| f_equal; lia]. repeat split; lia.
Qed.

(** X3.  On a square board of any side, a launch with the launch dimensions
    of [main] succeeds and updates the cells of the whole tiles only: a cell
    with both coordinates below [covered n] gets its next value, every other
    cell of the new buffer keeps what the buffer held before; so on a board
    of side below [BLOCK_SIDE] the launch changes nothing. *)
Theorem launch_updates_whole_tiles_only (n : Z) (s : schedule) (m : device)
    (pcurr pnext : devptr) :
  0 < n → n * n <= INT_MAX →
  pcurr ≠ pnext →
  valid_schedule (grid_of n) (Dim3 BLOCK_SIDE BLOCK_SIDE) s →
  Z.of_nat (length (buf m pcurr)) = n * n →
  Z.of_nat (length (buf m pnext)) = n * n →
  ∃ m',
    launch s (simstep n n pcurr pnext) m = Some m'
    ∧ buf m' pcurr = buf m pcurr
    ∧ (∀ x y, in_range n n x y →
         load m' pnext (x * n + y)
         = if (x <? covered n) && (y <? covered n)
           then generation n (buf m pcurr) !! Z.to_nat (x * n + y)
           else load m pnext (x * n + y))
    ∧ (n < BLOCK_SIDE → m' = m).
Proof.
  intros Hpos Hint Hne Hs Hlc Hln. unfold valid_schedule in Hs.
  assert (0 <= n) as Hn by lia.
  assert (Forall (thread_in_board n) s) as Hall.
  { apply Forall_forall. intros bt Hbt.
    apply (threads_reach_covered n bt Hn). by rewrite <- Hs. }
  set (ws := thread_write n (buf m pcurr) <$> s).
  assert (∀ x y, in_range n n x y →
            apply_writes (buf m pnext) ws !! Z.to_nat (x * n + y)
            = if (x <? covered n) && (y <? covered n)
              then generation n (buf m pcurr) !! Z.to_nat (x * n + y)
              else buf m pnext !! Z.to_nat (x * n + y)) as Hcells.
  { intros x y Hin.
    pose proof (flat_index_bound n n x y (Z.le_refl n) Hin) as Hidx.
    destruct ((x <? covered n) && (y <? covered n)) eqn:E.
    - apply andb_true_iff in E as [Ex Ey].
      apply Z.ltb_lt in Ex, Ey.
      rewrite (generation_lookup n Hpos) by done.
      apply apply_writes_agreed; [| | lia].
      + destruct (covered_cells_have_threads n x y) as [bt [Hbt Hcell]];
          [destruct Hin; lia | destruct Hin; lia |].
        exists (thread_write n (buf m pcurr) bt). split.
        * apply list_elem_of_fmap_2. by rewrite Hs.
        * unfold thread_write. rewrite Hcell. simpl. lia.
      + intros w Hw Hwi. apply list_elem_of_fmap in Hw.
        destruct Hw as [bt [-> Hbt]].
        rewrite Forall_forall in Hall. destruct (Hall bt Hbt) as [_ Hin'].
        unfold thread_write in *. simpl in *.
        pose proof (flat_index_bound n n _ _ (Z.le_refl n) Hin').
        destruct (square_index_inj n Hpos _ _ _ _ Hin' Hin) as [-> ->];
          [lia | done].
    - apply apply_writes_untouched. intros w Hw Hwi.
      apply list_elem_of_fmap in Hw. destruct Hw as [bt [-> Hbt]].
      rewrite Hs in Hbt.
      destruct (threads_reach_covered n bt Hn Hbt) as [[_ Hin'] [Hcx Hcy]].
      unfold thread_write in Hwi. cbn [fst] in Hwi.
      pose proof (flat_index_bound n n _ _ (Z.le_refl n) Hin').
      destruct (square_index_inj n Hpos _ _ _ _ Hin' Hin) as [Hx Hy];
        [lia |].
      rewrite Hx in Hcx. rewrite Hy in Hcy.
      apply andb_false_iff in E as [E | E]; apply Z.ltb_ge in E; lia. }
  exists (set_buf m pnext (apply_writes (buf m pnext) ws)).
  split; [by apply launch_writes |].
  split; [apply buf_set_buf_ne; congruence |]. split.
  - intros x y Hin.
    pose proof (flat_index_bound n n x y (Z.le_refl n) Hin) as Hidx.
    unfold load. rewrite buf_set_buf_eq, !rd_lookup by lia. by apply Hcells.
  - intros Hsmall.
    replace (apply_writes (buf m pnext) ws) with (buf m pnext);
      [apply set_buf_id |].
    apply (board_eq_cells n); [done | done | by rewrite apply_writes_length |].
    intros x y Hin. rewrite Hcells by done.
    assert (covered n = 0) as ->; [| destruct Hin as [? ?];
      by replace (x <? 0) with false by (symmetry; apply Z.ltb_ge; lia)].
    unfold covered. rewrite Z.quot_small; lia.
Qed.

Lemma launch_updates_whole_tiles_only_witness :
  ∃ m',
    launch (threads (grid_of 20) (Dim3 BLOCK_SIDE BLOCK_SIDE))
      (simstep 20 20 pDevBoard0 pDevBoard1)
      (Device (replicate 400 x01) (replicate 400 xff)) = Some m'
    ∧ buf m' pDevBoard0
      = buf (Device (replicate 400 x01) (replicate 400 xff)) pDevBoard0
    ∧ (∀ x y, in_range 20 20 x y →
         load m' pDevBoard1 (x * 20 + y)
         = if (x <? covered 20) && (y <? covered 20)
           then generation 20
                  (buf (Device (replicate 400 x01) (replicate 400 xff))
                     pDevBoard0) !! Z.to_nat (x * 20 + y)
           else load (Device (replicate 400 x01) (replicate 400 xff))
                  pDevBoard1 (x * 20 + y))
    ∧ (20 < BLOCK_SIDE → m' = Device (replicate 400 x01) (replicate 400 xff)).
Proof.
  apply (launch_updates_whole_tiles_only 20
           (threads (grid_of 20) (Dim3 BLOCK_SIDE BLOCK_SIDE))
           (Device (replicate 400 x01) (replicate 400 xff))
           pDevBoard0 pDevBoard1).
  - lia.
  - vm_compute. discriminate.
  - discriminate.
  - apply Permutation_refl.
  - reflexivity.
  - reflexivity.
Defined.

(** ** The flat index on boards of any shape *)

(** X4.  [getat] on a board of [nrows * ncols] cells: out of range it gives
    0 without reading (whatever the buffer); in range it reads index
    [x * ncols + y]; and the reads of all coordinates in range stay inside
    the buffer exactly when [ncols <= nrows]. *)
Theorem getat_defined_iff (b : list ubyte) (nrows ncols : Z) :
  0 < nrows → 0 < ncols →
  nrows * ncols <= INT_MAX → ncols * ncols <= INT_MAX →
  Z.of_nat (length b) = nrows * ncols →
  (∀ x y (b' : list ubyte),
     ¬ in_range nrows ncols x y → getat b' nrows ncols x y = Some x00)
  ∧ (∀ x y, in_range nrows ncols x y →
       getat b nrows ncols x y = rd b (x * ncols + y))
  ∧ ((∀ x y, in_range nrows ncols x y → is_Some (getat b nrows ncols x y))
     ↔ ncols <= nrows).
Proof.
  intros Hr Hc Hmax Hcmax Hlen.
  assert (∀ x y, in_range nrows ncols x y →
            getat b nrows ncols x y = rd b (x * ncols + y)) as Hread.
  { intros x y Hin. unfold getat.
    rewrite (proj2 (in_range_guard nrows ncols x y) Hin).
    destruct Hin as [Hx Hy]. unfold INT_MAX in *.
    assert (0 <= x * ncols <= ncols * ncols) by nia.
    rewrite int_mul_id by (unfold INT_MIN, INT_MAX; lia).
    rewrite int_add_id by (unfold INT_MIN, INT_MAX; nia). done. }
  split; [intros x y b' Hout; by apply getat_outside |].
  split; [exact Hread |]. split.
  - intros Hsafe.
    destruct (decide (ncols <= nrows)) as [| Hwide]; [done | exfalso].
    assert (in_range nrows ncols (ncols - 1) (nrows - 1)) as Hin
      by (unfold in_range; lia).
    specialize (Hsafe _ _ Hin). rewrite (Hread _ _ Hin) in Hsafe.
    apply rd_is_Some in Hsafe. nia.
  - intros Hle x y Hin.
    destruct (getat_inside b nrows ncols x y) as [-> _]; done.
Qed.

Lemma getat_defined_iff_witness :
  (∀ x y (b' : list ubyte),
     ¬ in_range 3 2 x y → getat b' 3 2 x y = Some x00)
  ∧ (∀ x y, in_range 3 2 x y →
       getat (replicate 6 x01) 3 2 x y = rd (replicate 6 x01) (x * 2 + y))
  ∧ ((∀ x y, in_range 3 2 x y →
        is_Some (getat (replicate 6 x01) 3 2 x y))
     ↔ 2 <= 3).
Proof.
  apply (getat_defined_iff (replicate 6 x01) 3 2).
  - lia.
  - lia.
  - vm_compute. discriminate.
  - vm_compute. discriminate.
  - reflexivity.
Defined.

(** X5.  The place of a cell in the buffer, on a board of [nrows * ncols]
    cells whose dimensions leave the indices of the code inside [int].  The
    code writes the cell [(x, y)] at the index [x * ncols + y] ([simstep] and
    [randomizeBoard]) and reads it back through [getat].  A write for one
    cell in range leaves what [getat] returns for every other cell in range
    as it was, for all boards and values, exactly when [nrows <= ncols] or
    there is one column only; and the write for every cell in range lands
    inside the buffer exactly when [ncols <= nrows]. *)
Theorem flat_index_sound_iff (nrows ncols : Z) :
  0 < nrows → 0 < ncols →
  nrows * ncols <= INT_MAX → ncols * ncols <= INT_MAX →
  ((∀ (b b' : list ubyte) (v : ubyte) (x1 y1 x2 y2 : Z),
      Z.of_nat (length b) = nrows * ncols →
      in_range nrows ncols x1 y1 → in_range nrows ncols x2 y2 →
      (x1, y1) ≠ (x2, y2) →
      wr b (int_add (int_mul x1 ncols) y1) v = Some b' →
      getat b' nrows ncols x2 y2 = getat b nrows ncols x2 y2)
   ↔ nrows <= ncols ∨ ncols = 1)
  ∧ ((∀ (b : list ubyte) (v : ubyte) (x y : Z),
        Z.of_nat (length b) = nrows * ncols →
        in_range nrows ncols x y →
        is_Some (wr b (int_add (int_mul x ncols) y) v))
     ↔ ncols <= nrows).
Proof.
  intros Hr Hc Hmax Hcmax.
  assert (∀ x y, in_range nrows ncols x y →
            int_add (int_mul x ncols) y = x * ncols + y
            ∧ 0 <= x * ncols + y) as Hidx.
  { intros x y [Hx Hy]. unfold INT_MAX in *.
    assert (0 <= x * ncols <= ncols * ncols) by nia.
    rewrite int_mul_id by (unfold INT_MIN, INT_MAX; lia).
    rewrite int_add_id by (unfold INT_MIN, INT_MAX; nia). lia. }
  assert (∀ b x y, in_range nrows ncols x y →
            getat b nrows ncols x y = b !! Z.to_nat (x * ncols + y))
    as Hread.
  { intros b x y Hin. unfold getat.
    rewrite (proj2 (in_range_guard nrows ncols x y) Hin).
    destruct (Hidx x y Hin) as [-> ?]. by apply rd_lookup. }
  split; split.
  - intros Hapart.
    destruct (decide (nrows <= ncols ∨ ncols = 1)) as [| Hno];
      [done | exfalso].
    assert (in_range nrows ncols 0 ncols) as H1 by (unfold in_range; lia).
    assert (in_range nrows ncols 1 0) as H2 by (unfold in_range; lia).
    set (b := replicate (Z.to_nat (nrows * ncols)) x00).
    assert (Z.of_nat (length b) = nrows * ncols) as Hlen
      by (unfold b; rewrite length_replicate; nia).
    assert (0 <= ncols < Z.of_nat (length b)) as Hin by nia.
    specialize (Hapart b (<[Z.to_nat ncols := x01]> b) x01 0 ncols 1 0
                  Hlen H1 H2).
    rewrite !Hread in Hapart by done.
    destruct (Hidx 0 ncols H1) as [Hi _]. rewrite Hi in Hapart.
    replace (0 * ncols + ncols) with ncols in Hapart by lia.
    replace (1 * ncols + 0) with ncols in Hapart by lia.
    rewrite wr_in_range in Hapart by done.
    rewrite list_lookup_insert_eq in Hapart by lia.
    unfold b in Hapart. rewrite lookup_replicate_2 in Hapart by lia.
    assert (Some x01 = Some x00) as Habs by (apply Hapart; congruence).
    discriminate Habs.
  - intros Hshape b b' v x1 y1 x2 y2 Hlen H1 H2 Hne Hwr.
    rewrite !Hread by done.
    destruct (Hidx x1 y1 H1) as [Hi1 Hp1]. destruct (Hidx x2 y2 H2) as [_ Hp2].
    rewrite Hi1 in Hwr. unfold wr in Hwr. case_decide; [| done].
    injection Hwr as <-. apply list_lookup_insert_ne.
    intros Heq. apply Hne.
    assert (x1 * ncols + y1 = x2 * ncols + y2) as Heq' by lia.
    destruct H1 as [Hx1 Hy1], H2 as [Hx2 Hy2].
    assert (x1 = x2) as ->
      by (destruct (Z.lt_trichotomy x1 x2) as [| [|]]; nia).
    f_equal. lia.
  - intros Hinside.
    destruct (decide (ncols <= nrows)) as [| Hwide]; [done | exfalso].
    assert (in_range nrows ncols (ncols - 1) (nrows - 1)) as Hin
      by (unfold in_range; lia).
    set (b := replicate (Z.to_nat (nrows * ncols)) x00).
    assert (Z.of_nat (length b) = nrows * ncols) as Hlen
      by (unfold b; rewrite length_replicate; nia).
    specialize (Hinside b x00 _ _ Hlen Hin).
    destruct (Hidx _ _ Hin) as [Hi _]. rewrite Hi in Hinside.
    apply wr_is_Some in Hinside. nia.
  - intros Hle b v x y Hlen Hin.
    destruct (Hidx x y Hin) as [-> ?]. apply wr_is_Some.
    destruct Hin as [Hx Hy]. nia.
Qed.

Lemma flat_index_sound_iff_witness :
  ((∀ (b b' : list ubyte) (v : ubyte) (x1 y1 x2 y2 : Z),
      Z.of_nat (length b) = 3 * 2 →
      in_range 3 2 x1 y1 → in_range 3 2 x2 y2 →
      (x1, y1) ≠ (x2, y2) →
      wr b (int_add (int_mul x1 2) y1) v = Some b' →
      getat b' 3 2 x2 y2 = getat b 3 2 x2 y2)
   ↔ 3 <= 2 ∨ 2 = 1)
  ∧ ((∀ (b : list ubyte) (v : ubyte) (x y : Z),
        Z.of_nat (length b) = 3 * 2 →
        in_range 3 2 x y →
        is_Some (wr b (int_add (int_mul x 2) y) v))
     ↔ 2 <= 3).
Proof.
  apply (flat_index_sound_iff 3 2).
  - lia.
  - lia.
  - vm_compute. discriminate.
  - vm_compute. discriminate.
Defined.

(** ** The neighbour count on a board of zeros and ones *)

Lemma binary_guarded_range (b : list ubyte) (nrows ncols x y : Z) :
  binary b → 0 <= ubyte_to_int (guarded b nrows ncols x y) <= 1.
Proof.
  intros Hb. unfold guarded.
  destruct ((x >=? 0) && (x <? ncols) && (y >=? 0) && (y <? nrows));
    [| by vm_compute].
  destruct (binary_cell b ncols x y Hb) as [-> | ->]; by vm_compute.
Qed.

(** X6.  On a square board of zeros and ones [numneighbors] returns a count
    between 0 and 8 for a cell of the board, at most 5 for a cell on a
    border and at most 3 for a cell in a corner: the positions beyond the
    border add nothing. *)
Theorem numneighbors_bounds (n : Z) (b : list ubyte) (x y : Z) :
  0 < n → n * n <= INT_MAX → Z.of_nat (length b) = n * n →
  binary b → in_range n n x y →
  ∃ k, numneighbors x y b n n = Some k
       ∧ 0 <= k <= 8
       ∧ (x = 0 ∨ x = n - 1 ∨ y = 0 ∨ y = n - 1 → k <= 5)
       ∧ ((x = 0 ∨ x = n - 1) ∧ (y = 0 ∨ y = n - 1) → k <= 3).
Proof.
  intros Hpos Hint Hlen Hb Hin.
  pose proof (side_int n Hpos Hint) as Hside.
  exists (neighbor_sum b n n x y). split.
  { destruct Hin. apply numneighbors_sum; try done; unfold INT_MIN; lia. }
  unfold neighbor_sum.
  pose proof (binary_guarded_range b n n (x - 1) y Hb).
  pose proof (binary_guarded_range b n n (x + 1) y Hb).
  pose proof (binary_guarded_range b n n x (y - 1) Hb).
  pose proof (binary_guarded_range b n n x (y + 1) Hb).
  pose proof (binary_guarded_range b n n (x - 1) (y - 1) Hb).
  pose proof (binary_guarded_range b n n (x - 1) (y + 1) Hb).
  pose proof (binary_guarded_range b n n (x + 1) (y - 1) Hb).
  pose proof (binary_guarded_range b n n (x + 1) (y + 1) Hb).
  assert (∀ x' y', x' < 0 ∨ n <= x' ∨ y' < 0 ∨ n <= y' →
            ubyte_to_int (guarded b n n x' y') = 0) as Hout.
  { intros x' y' H'. rewrite guarded_outside; [done |].
    unfold in_range. lia. }
  split; [lia |]. split.
  - intros [-> | [-> | [-> | ->]]].
    + rewrite !(Hout (0 - 1)) by lia. lia.
    + rewrite !(Hout (n - 1 + 1)) by lia. lia.
    + rewrite !(Hout _ (0 - 1)) by lia. lia.
    + rewrite !(Hout _ (n - 1 + 1)) by lia. lia.
  - intros [[-> | ->] [-> | ->]].
    + rewrite !(Hout (0 - 1)), !(Hout _ (0 - 1)) by lia. lia.
    + rewrite !(Hout (0 - 1)), !(Hout _ (n - 1 + 1)) by lia. lia.
    + rewrite !(Hout (n - 1 + 1)), !(Hout _ (0 - 1)) by lia. lia.
    + rewrite !(Hout (n - 1 + 1)), !(Hout _ (n - 1 + 1)) by lia. lia.
Qed.

Lemma numneighbors_bounds_witness :
  ∃ k, numneighbors 0 3 (replicate 16 x01) 4 4 = Some k
       ∧ 0 <= k <= 8
       ∧ (0 = 0 ∨ 0 = 4 - 1 ∨ 3 = 0 ∨ 3 = 4 - 1 → k <= 5)
       ∧ ((0 = 0 ∨ 0 = 4 - 1) ∧ (3 = 0 ∨ 3 = 4 - 1) → k <= 3).
Proof.
  apply (numneighbors_bounds 4 (replicate 16 x01) 0 3).
  - lia.
  - vm_compute. discriminate.
  - reflexivity.
  - unfold binary. apply Forall_replicate. by right.
  - unfold in_range. lia.
Defined.

(** ** What a cell's next value depends on *)

Lemma guarded_same_around (n : Z) (b1 b2 : list ubyte) (x y x' y' : Z) :
  same_around n b1 b2 x y →
  x - 1 <= x' <= x + 1 → y - 1 <= y' <= y + 1 →
  guarded b1 n n x' y' = guarded b2 n n x' y'.
Proof.
  intros Hsame Hx Hy. unfold guarded.
  destruct ((x' >=? 0) && (x' <? n) && (y' >=? 0) && (y' <? n)) eqn:E;
    [| done].
  apply in_range_guard in E. by apply Hsame.
Qed.

(** X7.  The next value of a cell depends on the current board only through
    the cell and its neighbours on the board: two launches on current boards
    that agree there (and may differ anywhere else, the opposite border
    included) leave the same value in the cell. *)
Theorem next_cell_is_local (n : Z) (s1 s2 : schedule) (m1 m2 : device)
    (pcurr pnext : devptr) (x y : Z) :
  0 < n → n * n <= INT_MAX → (BLOCK_SIDE | n) →
  pcurr ≠ pnext →
  valid_schedule (grid_of n) (Dim3 BLOCK_SIDE BLOCK_SIDE) s1 →
  valid_schedule (grid_of n) (Dim3 BLOCK_SIDE BLOCK_SIDE) s2 →
  Z.of_nat (length (buf m1 pcurr)) = n * n →
  Z.of_nat (length (buf m1 pnext)) = n * n →
  Z.of_nat (length (buf m2 pcurr)) = n * n →
  Z.of_nat (length (buf m2 pnext)) = n * n →
  in_range n n x y →
  same_around n (buf m1 pcurr) (buf m2 pcurr) x y →
  ∃ m1' m2' c,
    launch s1 (simstep n n pcurr pnext) m1 = Some m1'
    ∧ launch s2 (simstep n n pcurr pnext) m2 = Some m2'
    ∧ load m1' pnext (x * n + y) = Some c
    ∧ load m2' pnext (x * n + y) = Some c.
Proof.
  intros Hpos Hint Hblocks Hne Hs1 Hs2 H1c H1n H2c H2n Hin Hsame.
  pose proof (flat_index_bound n n x y (Z.le_refl n) Hin) as Hidx.
  exists (set_buf m1 pnext (generation n (buf m1 pcurr))),
    (set_buf m2 pnext (generation n (buf m2 pcurr))),
    (next_cell (cell (buf m1 pcurr) n x y)
       (neighbor_sum (buf m1 pcurr) n n x y)).
  split; [by apply launch_generation |].
  split; [by apply launch_generation |].
  unfold load. rewrite !buf_set_buf_eq, !rd_lookup by lia.
  rewrite !(generation_lookup n Hpos) by done.
  split; [done |]. symmetry. do 2 f_equal.
  - apply (Hsame x y); [done | lia | lia].
  - unfold neighbor_sum.
    by rewrite !(guarded_same_around n (buf m1 pcurr) (buf m2 pcurr) x y)
      by (done || lia).
Qed.

Lemma next_cell_is_local_witness :
  ∃ m1' m2' c,
    launch (threads (grid_of 16) (Dim3 BLOCK_SIDE BLOCK_SIDE))
      (simstep 16 16 pDevBoard0 pDevBoard1)
      (Device (replicate 256 x01) (replicate 256 x00)) = Some m1'
    ∧ launch (threads (grid_of 16) (Dim3 BLOCK_SIDE BLOCK_SIDE))
        (simstep 16 16 pDevBoard0 pDevBoard1)
        (Device (<[255%nat := x00]> (replicate 256 x01)) (replicate 256 x00))
      = Some m2'
    ∧ load m1' pDevBoard1 (0 * 16 + 0) = Some c
    ∧ load m2' pDevBoard1 (0 * 16 + 0) = Some c.
Proof.
  apply (next_cell_is_local 16
           (threads (grid_of 16) (Dim3 BLOCK_SIDE BLOCK_SIDE))
           (threads (grid_of 16) (Dim3 BLOCK_SIDE BLOCK_SIDE))
           (Device (replicate 256 x01) (replicate 256 x00))
           (Device (<[255%nat := x00]> (replicate 256 x01))
              (replicate 256 x00))
           pDevBoard0 pDevBoard1 0 0).
  - lia.
  - vm_compute. discriminate.
  - exists 1. reflexivity.
  - discriminate.
  - apply Permutation_refl.
  - apply Permutation_refl.
  - reflexivity.
  - reflexivity.
  - reflexivity.
  - reflexivity.
  - unfold in_range. lia.
  - intros x' y' [Hx Hy] Hx' Hy'. unfold cell. cbn [buf board0].
    rewrite list_lookup_insert_ne by lia. done.
Defined.

(** ** The block *)

Lemma block_on_board (n cx cy x y : Z) :
  0 <= cx → cx + 1 < n → 0 <= cy → cy + 1 < n →
  block cx cy x y = true → in_range n n x y.
Proof.
  intros ? ? ? ?. unfold in_range, block. rewrite !andb_true_iff. lia.
Qed.

Lemma generation_block (n cx cy : Z) :
  0 < n → 0 <= cx → cx + 1 < n → 0 <= cy → cy + 1 < n →
  generation n (board_of n (block cx cy)) = board_of n (block cx cy).
Proof.
  intros Hpos Hx1 Hx2 Hy1 Hy2.
  apply generation_board_of; [done |].
  intros x y _. unfold neighbor_sum.
  rewrite !guarded_board_of
    by (done || (intros x' y'; by apply (block_on_board n cx cy x' y'))).
  assert (x < cx - 1 ∨ x = cx - 1 ∨ x = cx ∨ x = cx + 1 ∨ x = cx + 2
          ∨ cx + 2 < x) as Hx by lia.
  assert (y < cy - 1 ∨ y = cy - 1 ∨ y = cy ∨ y = cy + 1 ∨ y = cy + 2
          ∨ cy + 2 < y) as Hy by lia.
  unfold block;
    destruct Hx as [Hx | [Hx | [Hx | [Hx | [Hx | Hx]]]]];
    destruct Hy as [Hy | [Hy | [Hy | [Hy | [Hy | Hy]]]]];
    settle_comparisons; reflexivity.
Qed.

(** X8.  A 2x2 block of live cells on an otherwise dead board is left as it
    is by a launch, wherever it lies on the board, against a border or in a
    corner too: nothing beyond the border counts as a neighbour. *)
Theorem block_is_still (n cx cy : Z) (s : schedule) (m : device)
    (pcurr pnext : devptr) :
  0 < n → n * n <= INT_MAX → (BLOCK_SIDE | n) →
  pcurr ≠ pnext →
  valid_schedule (grid_of n) (Dim3 BLOCK_SIDE BLOCK_SIDE) s →
  0 <= cx → cx + 1 < n → 0 <= cy → cy + 1 < n →
  buf m pcurr = board_of n (block cx cy) →
  Z.of_nat (length (buf m pnext)) = n * n →
  ∃ m', launch s (simstep n n pcurr pnext) m = Some m'
        ∧ buf m' pnext = board_of n (block cx cy).
Proof.
  intros Hpos Hint Hblocks Hne Hs Hx1 Hx2 Hy1 Hy2 Hcurr Hln.
  exists (set_buf m pnext (generation n (buf m pcurr))). split.
  - apply launch_generation; try done.
    rewrite Hcurr, board_of_length. nia.
  - rewrite buf_set_buf_eq, Hcurr. by apply generation_block.
Qed.

Lemma block_is_still_witness :
  ∃ m', launch (threads (grid_of 16) (Dim3 BLOCK_SIDE BLOCK_SIDE))
          (simstep 16 16 pDevBoard0 pDevBoard1)
          (Device (board_of 16 (block 0 14)) (replicate 256 x00)) = Some m'
        ∧ buf m' pDevBoard1 = board_of 16 (block 0 14).
Proof.
  apply (block_is_still 16 0 14
           (threads (grid_of 16) (Dim3 BLOCK_SIDE BLOCK_SIDE))
           (Device (board_of 16 (block 0 14)) (replicate 256 x00))
           pDevBoard0 pDevBoard1).
  - lia.
  - vm_compute. discriminate.
  - exists 1. reflexivity.
  - discriminate.
  - apply Permutation_refl.
  - lia.
  - lia.
  - lia.
  - lia.
  - reflexivity.
  - reflexivity.
Defined.

(** ** The initial board and the printed board *)

(** X9.  On a square board [randomizeBoard] writes every cell once, in the
    order of the index: it makes [n * n] draws, the cell [(x, y)] is alive
    exactly when the draw number [x * n + y] (after those made before)
    passed the test, and what the buffer held before does not show. *)
Theorem randomizeBoard_fills_board (n : Z) (d : nat → bool)
    (pboard : list ubyte) (calls : nat) :
  0 < n → n * n <= INT_MAX → Z.of_nat (length pboard) = n * n →
  ∃ b',
    randomizeBoard d pboard n n calls
    = Some (b', (calls + Z.to_nat (n * n))%nat)
    ∧ Z.of_nat (length b') = n * n
    ∧ (∀ x y, in_range n n x y →
         b' !! Z.to_nat (x * n + y)
         = Some (if d (calls + Z.to_nat (x * n + y))%nat then x01 else x00))
    ∧ (∀ other : list ubyte,
         Z.of_nat (length other) = n * n →
         randomizeBoard d other n n calls
         = randomizeBoard d pboard n n calls).
Proof.
  intros Hpos Hint Hlen. exists (randomized d calls n).
  split; [by apply randomizeBoard_randomized |].
  split; [rewrite randomized_length; nia |]. split.
  - intros x y Hin.
    pose proof (flat_index_bound n n x y (Z.le_refl n) Hin).
    unfold randomized. rewrite list_lookup_fmap, lookup_seq_lt by lia. done.
  - intros other Hother. by rewrite !randomizeBoard_randomized.
Qed.

Lemma randomizeBoard_fills_board_witness :
  ∃ b',
    randomizeBoard Nat.even (replicate 16 xff) 4 4 3
    = Some (b', (3 + Z.to_nat (4 * 4))%nat)
    ∧ Z.of_nat (length b') = 4 * 4
    ∧ (∀ x y, in_range 4 4 x y →
         b' !! Z.to_nat (x * 4 + y)
         = Some (if Nat.even (3 + Z.to_nat (x * 4 + y))%nat
                 then x01 else x00))
    ∧ (∀ other : list ubyte,
         Z.of_nat (length other) = 4 * 4 →
         randomizeBoard Nat.even other 4 4 3
         = randomizeBoard Nat.even (replicate 16 xff) 4 4 3).
Proof.
  apply (randomizeBoard_fills_board 4 Nat.even (replicate 16 xff) 3).
  - lia.
  - vm_compute. discriminate.
  - reflexivity.
Defined.

Lemma string_length_app (s t : string) :
  String.length (s +:+ t) = (String.length s + String.length t)%nat.
Proof. induction s as [| c s IH]; simpl; [done | by rewrite IH]. Qed.

Lemma string_get_app_old (s t : string) (p : nat) (c : ascii) :
  String.get p s = Some c → String.get p (s +:+ t) = Some c.
Proof.
  revert p. induction s as [| a s IH]; intros p; [by destruct p |].
  destruct p as [| p]; simpl; [done | apply IH].
Qed.

Lemma string_get_app_new (s t : string) (k : nat) (c : ascii) :
  String.get k t = Some c →
  String.get (String.length s + k) (s +:+ t) = Some c.
Proof.
  intros H. rewrite Nat.add_comm. by rewrite <- append_correct2.
Qed.

Lemma printed_cell (msg : string) (b : list ubyte) (n x y : Z)
    (out : string) :
  0 < n → 0 <= x → 0 <= y < n →
  printed_up_to msg b n x y out →
  printed_up_to msg b n x (y + 1)
    (out +:+ (if is_set (cell b n x y) then "o " else "  ")).
Proof.
  intros Hpos Hx Hy [Hlen [Hmsg [Hcells Hends]]].
  assert (0 <= x * (2 * n + 1)) by nia.
  assert (String.length (if is_set (cell b n x y) then "o " else "  ")
          = 2%nat) as Hfield by (by destruct (is_set _)).
  split; [rewrite string_length_app, Hfield; lia |].
  split; [intros p c Hp; by apply string_get_app_old, Hmsg |]. split.
  - intros x' y' Hx' Hy' Hbefore.
    destruct (decide (x' = x ∧ y' = y)) as [[-> ->] | Hother].
    + unfold field_position.
      replace (Z.to_nat (Z.of_nat (String.length msg) + 1
                         + x * (2 * n + 1) + 2 * y))
        with (String.length out + 0)%nat at 1 by lia.
      replace (S (Z.to_nat (Z.of_nat (String.length msg) + 1
                            + x * (2 * n + 1) + 2 * y)))
        with (String.length out + 1)%nat by lia.
      split; apply string_get_app_new; unfold mark;
        by destruct (is_set _).
    + destruct (Hcells x' y') as [H1 H2]; [done | done | lia |].
      split; by apply string_get_app_old.
  - intros x' Hx'. by apply string_get_app_old, Hends.
Qed.

Lemma printed_line (msg : string) (b : list ubyte) (n x : Z) (out : string) :
  0 < n → 0 <= x →
  printed_up_to msg b n x n out →
  printed_up_to msg b n (x + 1) 0 (out +:+ newline).
Proof.
  intros Hpos Hx [Hlen [Hmsg [Hcells Hends]]].
  assert (0 <= x * (2 * n + 1)) by nia.
  split; [rewrite string_length_app; simpl String.length; lia |].
  split; [intros p c Hp; by apply string_get_app_old, Hmsg |]. split.
  - intros x' y' Hx' Hy' Hbefore.
    destruct (Hcells x' y') as [H1 H2]; [done | done | lia |].
    split; by apply string_get_app_old.
  - intros x' Hx'.
    destruct (decide (x' = x)) as [-> | Hother].
    + unfold line_end.
      replace (Z.to_nat (Z.of_nat (String.length msg) + 1
                         + x * (2 * n + 1) + 2 * n))
        with (String.length out + 0)%nat by lia.
      by apply string_get_app_new.
    + apply string_get_app_old, Hends. lia.
Qed.

Lemma printBoard_printed (n : Z) (msg : string) (b : list ubyte) :
  0 < n → n * n <= INT_MAX → Z.of_nat (length b) = n * n →
  ∃ text, printBoard msg b n n = Some text
          ∧ printed_up_to msg b n n 0 text.
Proof.
  intros Hpos Hint Hlen. unfold printBoard.
  apply (for_range_invariant (λ x out, printed_up_to msg b n x 0 out));
    [lia | |].
  - split; [rewrite string_length_app; simpl String.length; lia |].
    split; [done |]. split; [intros; lia | intros; lia].
  - intros x out Hx Hout.
    destruct (for_range_invariant (λ y out, printed_up_to msg b n x y out)
                (λ y out,
                   c ← rd b (int_add (int_mul x n) y);
                   Some (out +:+ (if is_set c then "o " else "  "))) n out)
      as [line [Hline Hprinted]]; [lia | done | |].
    + intros y out' Hy Hout'.
      assert (in_range n n x y) as Hin by (unfold in_range; lia).
      pose proof (flat_index_bound n n x y (Z.le_refl n) Hin) as Hidx.
      rewrite (flat_index_id n (n * n)) by lia.
      destruct (getat_inside b n n x y) as [_ Hc]; try done; try lia.
      rewrite rd_lookup, Hc by lia. simpl.
      eexists. split; [done |]. apply printed_cell; (done || lia).
    + rewrite Hline. simpl. eexists. split; [done |].
      apply printed_line; (done || lia).
Qed.

(** X10.  The text that [printBoard] writes for a square board: the
    message, a line feed, and one line for every [x], made of a two-character
    field for every [y], ["o "] for a cell that is not 0 and two blanks for a
    0 cell, and closed by a line feed; nothing else. *)
Theorem printBoard_layout (n : Z) (msg : string) (b : list ubyte) :
  0 < n → n * n <= INT_MAX → Z.of_nat (length b) = n * n →
  ∃ text,
    printBoard msg b n n = Some text
    ∧ Z.of_nat (String.length text)
      = Z.of_nat (String.length msg) + 1 + n * (2 * n + 1)
    ∧ (∀ p c, String.get p msg = Some c → String.get p text = Some c)
    ∧ String.get (String.length msg) text = Some (ascii_of_nat 10)
    ∧ (∀ x y, in_range n n x y →
         String.get (field_position (String.length msg) n x y) text
         = Some (if is_set (cell b n x y) then "o"%char else " "%char)
         ∧ String.get (S (field_position (String.length msg) n x y)) text
           = Some " "%char)
    ∧ (∀ x, 0 <= x < n →
         String.get (line_end (String.length msg) n x) text
         = Some (ascii_of_nat 10)).
Proof.
  intros Hpos Hint Hlen.
  destruct (printBoard_printed n msg b Hpos Hint Hlen)
    as [text [Htext [Hl [Hmsg [Hcells Hends]]]]].
  exists text. split; [done |]. split; [lia |]. split.
  { intros p c Hp. by apply Hmsg, string_get_app_old. }
  split.
  { apply Hmsg.
    replace (String.length msg) with (String.length msg + 0)%nat at 1 by lia.
    by apply string_get_app_new. }
  split; [| exact Hends].
  intros x y [Hx Hy]. apply Hcells; lia.
Qed.

Lemma printBoard_layout_witness :
  ∃ text,
    printBoard "Board:" (replicate 16 x01) 4 4 = Some text
    ∧ Z.of_nat (String.length text)
      = Z.of_nat (String.length "Board:") + 1 + 4 * (2 * 4 + 1)
    ∧ (∀ p c, String.get p "Board:" = Some c → String.get p text = Some c)
    ∧ String.get (String.length "Board:") text = Some (ascii_of_nat 10)
    ∧ (∀ x y, in_range 4 4 x y →
         String.get (field_position (String.length "Board:") 4 x y) text
         = Some (if is_set (cell (replicate 16 x01) 4 x y)
                 then "o"%char else " "%char)
         ∧ String.get (S (field_position (String.length "Board:") 4 x y))
             text = Some " "%char)
    ∧ (∀ x, 0 <= x < 4 →
         String.get (line_end (String.length "Board:") 4 x) text
         = Some (ascii_of_nat 10)).
Proof.
  apply (printBoard_layout 4 "Board:" (replicate 16 x01)).
  - lia.
  - vm_compute. discriminate.
  - reflexivity.
Defined.

(** X11.  The printed text shows the board: two square boards of the same
    side that [printBoard] prints alike have the same cells set, and when
    their cells are zeros and ones they are the same board. *)
Theorem printBoard_shows_board (n : Z) (msg : string) (b1 b2 : list ubyte) :
  0 < n → n * n <= INT_MAX →
  Z.of_nat (length b1) = n * n → Z.of_nat (length b2) = n * n →
  printBoard msg b1 n n = printBoard msg b2 n n →
  (∀ x y, in_range n n x y →
          is_set (cell b1 n x y) = is_set (cell b2 n x y))
  ∧ (binary b1 → binary b2 → b1 = b2).
Proof.
  intros Hpos Hint Hl1 Hl2 Hsame.
  destruct (printBoard_printed n msg b1 Hpos Hint Hl1)
    as [t1 [Ht1 [_ [_ [Hc1 _]]]]].
  destruct (printBoard_printed n msg b2 Hpos Hint Hl2)
    as [t2 [Ht2 [_ [_ [Hc2 _]]]]].
  rewrite Ht1, Ht2 in Hsame. injection Hsame as <-.
  assert (∀ x y, in_range n n x y →
            is_set (cell b1 n x y) = is_set (cell b2 n x y)) as Hset.
  { intros x y [Hx Hy].
    destruct (Hc1 x y) as [H1 _]; [lia | lia | lia |].
    destruct (Hc2 x y) as [H2 _]; [lia | lia | lia |].
    rewrite H1 in H2. unfold mark in H2.
    destruct (is_set (cell b1 n x y)), (is_set (cell b2 n x y));
      done || discriminate. }
  split; [exact Hset |].
  intros Hb1 Hb2. apply (board_eq_cells n); try done.
  intros x y Hin. specialize (Hset x y Hin).
  destruct (getat_inside b1 n n x y) as [_ ->]; try done; try lia.
  destruct (getat_inside b2 n n x y) as [_ ->]; try done; try lia.
  f_equal.
  destruct (binary_cell b1 n x y Hb1) as [E1 | E1],
    (binary_cell b2 n x y Hb2) as [E2 | E2];
    rewrite E1, E2 in *; done || discriminate.
Qed.

Lemma printBoard_shows_board_witness :
  (∀ x y, in_range 4 4 x y →
          is_set (cell (replicate 16 x01) 4 x y)
          = is_set (cell (replicate 16 x01) 4 x y))
  ∧ (binary (replicate 16 x01) → binary (replicate 16 x01) →
     replicate 16 x01 = replicate 16 x01).
Proof.
  apply (printBoard_shows_board 4 "Board:" (replicate 16 x01)
           (replicate 16 x01)).
  - lia.
  - vm_compute. discriminate.
  - reflexivity.
  - reflexivity.
  - reflexivity.
Defined.

(** ** Whole runs of [main] *)

Lemma board_text_printed (msg : string) (b : list ubyte) :
  Z.of_nat (length b) = boardW * boardW →
  printBoard msg b boardH boardW = Some (board_text msg b).
Proof.
  intros Hlen.
  destruct (printBoard_total boardW board_side_pos board_side_int msg b Hlen)
    as [text Htext].
  unfold board_text. rewrite board_square, Htext. done.
Qed.

Lemma generation_body_events (PB : bool) (e : environment) (gen : Z)
    (st : loop_state) (tr : list event) :
  fair e → 0 <= gen → sized st →
  let new := generation boardW (buf (ls_dev st) (ptr_at gen)) in
  ∃ pboard',
    generation_body PB e gen st tr
    = (tr ++ turn_events PB gen (buf (ls_dev st) (ptr_at gen)),
       Some (LoopState pboard' (set_buf (ls_dev st) (ptr_at (gen + 1)) new)
               (Some (ptr_at gen)) (Some (ptr_at (gen + 1)))))
    ∧ Z.of_nat (length pboard') = boardW * boardW.
Proof.
  intros Hfair Hgen Hsized new.
  set (pcurr := ptr_at gen). set (pnext := ptr_at (gen + 1)).
  assert (pcurr ≠ pnext) as Hne
    by (intros Heq; by apply (ptr_at_succ gen Hgen)).
  assert (launch (thread_order e gen) (simstep boardH boardW pcurr pnext)
            (ls_dev st) = Some (set_buf (ls_dev st) pnext new)) as Hlaunch.
  { rewrite board_square.
    apply (launch_generation boardW board_side_pos board_side_int
             board_side_blocks); [done | apply Hfair | |];
      by apply sized_buf. }
  assert (Z.of_nat (length new) = boardW * boardW) as Hnew.
  { unfold new. rewrite generation_length. pose proof board_side_pos. nia. }
  unfold generation_body, turn_events. rewrite ptr_at_pair by done.
  fold pcurr pnext. fold new.
  rewrite run_bind_emit. rewrite (run_bind_lift _ _ _ _ Hlaunch).
  destruct PB.
  - rewrite buf_set_buf_eq.
    rewrite cudaMemcpy_whole;
      [| by rewrite board_bytes'; apply Hsized | by rewrite board_bytes'].
    exists new. split; [| done].
    erewrite run_bind_step; [| erewrite run_bind_step; [| apply for_up_emit]].
    2: { rewrite (run_bind_lift _ _ _ _ (board_text_printed " " new Hnew)).
         rewrite run_bind_emit. reflexivity. }
    unfold mret, run_ret. f_equal.
    rewrite <- !app_assoc. simpl. done.
  - exists (ls_pboard st). split; [| apply Hsized].
    erewrite run_bind_step; [| reflexivity]. done.
Qed.

Lemma generation_loop_events (PB : bool) (e : environment) (count : nat) :
  fair e →
  ∀ (gen : Z) (st : loop_state) (tr : list event),
    0 <= gen → sized st →
    ∃ st',
      for_up count gen (generation_body PB e) st tr
      = (tr ++ loop_events PB count gen (buf (ls_dev st) (ptr_at gen)),
         Some st').
Proof.
  intros Hfair. induction count as [| k IH]; intros gen st tr Hgen Hsized.
  - exists st. simpl. by rewrite app_nil_r.
  - destruct (generation_body_events PB e gen st tr Hfair Hgen Hsized)
      as [pboard' [Hbody Hlen]].
    set (new := generation boardW (buf (ls_dev st) (ptr_at gen))) in *.
    set (st1 := LoopState pboard' (set_buf (ls_dev st) (ptr_at (gen + 1)) new)
                  (Some (ptr_at gen)) (Some (ptr_at (gen + 1)))) in *.
    assert (Z.of_nat (length new) = boardW * boardW) as Hnew.
    { unfold new. rewrite generation_length.
      pose proof board_side_pos. nia. }
    assert (sized st1) as Hsized1.
    { destruct Hsized as [? [? ?]]. unfold sized, st1.
      cbn [ls_pboard ls_dev]. split; [done |].
      destruct (ptr_at (gen + 1)); cbn [set_buf board0 board1];
        split; assumption. }
    destruct (IH (gen + 1) st1
                (tr ++ turn_events PB gen (buf (ls_dev st) (ptr_at gen))))
      as [st' Hrun]; [lia | done |].
    exists st'. simpl for_up. rewrite (run_bind_step _ _ _ _ _ Hbody).
    rewrite Hrun. unfold st1. cbn [ls_dev]. rewrite buf_set_buf_eq.
    cbn [loop_events]. fold new. by rewrite <- app_assoc.
Qed.

Lemma main_before_loop (PB : bool) (argv : list string) (e : environment) :
  all_allocated e →
  main PB argv e []
  = (for_range 0 (ngenerations_of argv) (generation_body PB e)
       (LoopState (initial_board e)
          (Device (initial_board e) (all_dead boardW)) None None)
     ≫= main_after_loop (ngenerations_of argv))
      [Printf_running (ngenerations_of argv);
       PrintBoard "Initial Board:" (initial_board e)
         (board_text "Initial Board:" (initial_board e))].
Proof.
  intros [Hm [Hc0 Hc1]]. pose proof board_side_pos as Hpos.
  unfold main. cbv zeta. rewrite run_bind_emit. simpl app.
  rewrite Hm, Hc0, Hc1, !alloc_true.
  rewrite board_bytes, board_bytes'.
  set (junk := fresh e <$> seq 0 (Z.to_nat (boardW * boardW))).
  assert (Z.of_nat (length junk) = boardW * boardW) as Hjunk
    by (unfold junk; rewrite length_fmap, length_seq; nia).
  rewrite (run_bind_deref _ _ _ _ eq_refl).
  assert (randomizeBoard (draws e) junk boardH boardW 0
          = Some (initial_board e, (0 + Z.to_nat (boardW * boardW))%nat))
    as Hrand.
  { rewrite board_square.
    by apply (randomizeBoard_randomized boardW board_side_pos
                board_side_int). }
  rewrite (run_bind_lift _ _ _ _ Hrand).
  rewrite (run_bind_lift _ _ _ _
             (board_text_printed "Initial Board:" (initial_board e)
                (initial_board_length e))).
  rewrite run_bind_emit. simpl app.
  rewrite (run_bind_deref _ _ _ _ eq_refl).
  rewrite (run_bind_deref _ _ _ _ eq_refl).
  rewrite cudaMemcpy_whole by (done || apply initial_board_length).
  rewrite cudaMemset_whole by done.
  reflexivity.
Qed.

Lemma main_after_loop_run (N : Z) (st : loop_state) (p : devptr)
    (tr : list event) :
  sized st → ls_pcurr st = Some p →
  main_after_loop N st tr
  = (tr ++ [PrintBoard "Resulting Board:" (buf (ls_dev st) p)
              (board_text "Resulting Board:" (buf (ls_dev st) p));
            Printf_summary N], Some 0).
Proof.
  intros Hsized Hp. unfold main_after_loop.
  rewrite (run_bind_deref _ _ _ _ Hp). cbv zeta.
  rewrite cudaMemcpy_whole;
    [| rewrite board_bytes; apply Hsized
     | rewrite board_bytes; by apply sized_buf].
  rewrite (run_bind_lift _ _ _ _
             (board_text_printed "Resulting Board:" _
                (sized_buf st p Hsized))).
  rewrite !run_bind_emit. unfold mret, run_ret.
  by rewrite <- app_assoc.
Qed.

Lemma initial_state_sized (e : environment) :
  sized (LoopState (initial_board e)
           (Device (initial_board e) (all_dead boardW)) None None).
Proof.
  unfold sized, all_dead. cbn [ls_pboard ls_dev board0 board1].
  rewrite length_replicate. pose proof (initial_board_length e).
  pose proof board_side_pos. repeat split; (done || nia).
Qed.

(** The events of a whole run that returns. *)
Lemma main_run_events (PB : bool) (argv : list string) (e : environment) :
  all_allocated e → fair e → 1 <= ngenerations_of argv →
  main PB argv e []
  = ([Printf_running (ngenerations_of argv);
      PrintBoard "Initial Board:" (initial_board e)
        (board_text "Initial Board:" (initial_board e))]
     ++ loop_events PB (Z.to_nat (ngenerations_of argv)) 0 (initial_board e)
     ++ [PrintBoard "Resulting Board:"
           (Nat.iter (Z.to_nat (ngenerations_of argv) - 1)
              (generation boardW) (initial_board e))
           (board_text "Resulting Board:"
              (Nat.iter (Z.to_nat (ngenerations_of argv) - 1)
                 (generation boardW) (initial_board e)));
         Printf_summary (ngenerations_of argv)],
     Some 0).
Proof.
  intros Hall Hfair HN. rewrite main_before_loop by done.
  set (N := ngenerations_of argv) in *.
  set (st0 := LoopState (initial_board e)
                (Device (initial_board e) (all_dead boardW)) None None).
  set (tr0 := [Printf_running N;
               PrintBoard "Initial Board:" (initial_board e)
                 (board_text "Initial Board:" (initial_board e))]).
  pose proof (initial_state_sized e) as Hsized0. fold st0 in Hsized0.
  unfold for_range. replace (Z.to_nat (N - 0)) with (Z.to_nat N) by lia.
  destruct (Z.to_nat N) as [| k] eqn:Hk; [lia |].
  destruct (generation_loop PB e (S k) Hfair 0 st0 tr0 (Z.le_refl 0) Hsized0)
    as [tr' [st' [Hrun [Hsized' [_ [Hpc [_ [Hprev _]]]]]]]].
  destruct (generation_loop_events PB e (S k) Hfair 0 st0 tr0 (Z.le_refl 0)
              Hsized0) as [st'' Hrun'].
  change (buf (ls_dev st0) (ptr_at 0)) with (initial_board e) in *.
  assert (tr' = tr0 ++ loop_events PB (S k) 0 (initial_board e)) as Htr
    by congruence.
  rewrite (run_bind_step _ _ _ _ _ Hrun). rewrite Htr.
  rewrite (main_after_loop_run N st' _ _ Hsized' Hpc).
  rewrite Hprev. replace (S k - 1)%nat with k by lia.
  by rewrite <- app_assoc.
Qed.

(** X12.  The whole run of [main] when the allocations succeed and [N >= 1]
    generations are asked for: it prints the banner and the initial board,
    issues [N] launches, generation [g] reading the buffer [g mod 2] and
    writing the other (with [PRINT_BOARDS], each followed by 24 line feeds
    and the board it wrote), prints as "Resulting Board" the initial board
    after [N - 1] generations, prints the summary and returns 0. *)
Theorem main_trace (PB : bool) (argv : list string) (e : environment) :
  all_allocated e → fair e → 1 <= ngenerations_of argv →
  main PB argv e []
  = ([Printf_running (ngenerations_of argv);
      PrintBoard "Initial Board:" (initial_board e)
        (board_text "Initial Board:" (initial_board e))]
     ++ loop_events PB (Z.to_nat (ngenerations_of argv)) 0 (initial_board e)
     ++ [PrintBoard "Resulting Board:"
           (Nat.iter (Z.to_nat (ngenerations_of argv) - 1)
              (generation boardW) (initial_board e))
           (board_text "Resulting Board:"
              (Nat.iter (Z.to_nat (ngenerations_of argv) - 1)
                 (generation boardW) (initial_board e)));
         Printf_summary (ngenerations_of argv)],
     Some 0).
Proof. apply main_run_events. Qed.

Lemma main_trace_witness :
  main true ["gol"; "2"] all_alive_run []
  = ([Printf_running (ngenerations_of ["gol"; "2"]);
      PrintBoard "Initial Board:" (initial_board all_alive_run)
        (board_text "Initial Board:" (initial_board all_alive_run))]
     ++ loop_events true (Z.to_nat (ngenerations_of ["gol"; "2"])) 0
          (initial_board all_alive_run)
     ++ [PrintBoard "Resulting Board:"
           (Nat.iter (Z.to_nat (ngenerations_of ["gol"; "2"]) - 1)
              (generation boardW) (initial_board all_alive_run))
           (board_text "Resulting Board:"
              (Nat.iter (Z.to_nat (ngenerations_of ["gol"; "2"]) - 1)
                 (generation boardW) (initial_board all_alive_run)));
         Printf_summary (ngenerations_of ["gol"; "2"])],
     Some 0).
Proof.
  apply (main_trace true ["gol"; "2"] all_alive_run).
  - done.
  - apply in_order_fair.
  - by vm_compute.
Defined.

Lemma run_bind_inv {A B : Type} (c : run A) (f : A → run B)
    (tr tr2 : list event) (b : B) :
  (c ≫= f) tr = (tr2, Some b) →
  ∃ a tr1, c tr = (tr1, Some a) ∧ f a tr1 = (tr2, Some b).
Proof.
  unfold mbind, run_bind. destruct (c tr) as [tr1 [a |]]; [| done].
  intros H. by exists a, tr1.
Qed.

Lemma deref_inv {A : Type} (p : option A) (tr tr' : list event) (a : A) :
  deref p tr = (tr', Some a) → p = Some a.
Proof. unfold deref, lift. congruence. Qed.

Lemma alloc_inv (ok : bool) (contents : nat → ubyte) (size : Z)
    (b : list ubyte) :
  alloc ok contents size = Some b → ok = true.
Proof. by destruct ok. Qed.

(** X13.  When the behaviour of [main] is defined.  A run of [main] that is
    defined to the end returns 0, and in it every allocation succeeded and
    at least one generation was asked for; and when every launch runs each
    of its threads once, the run is defined to the end exactly in that case.
    In every other run [main] uses a pointer that is null or was never
    assigned: the result of [malloc] in [randomizeBoard], [pDevBoard0] or
    [pDevBoard1] in [cudaMemcpy] and [cudaMemset], [pcurr] in the copy after
    a loop that did not run. *)
Theorem main_well_defined_iff (PB : bool) (argv : list string)
    (e : environment) :
  (∀ tr code, main PB argv e [] = (tr, Some code) →
     code = 0 ∧ all_allocated e ∧ 1 <= ngenerations_of argv)
  ∧ (fair e →
     (well_defined (main PB argv e [])
      ↔ all_allocated e ∧ 1 <= ngenerations_of argv)).
Proof.
  assert (∀ tr code, main PB argv e [] = (tr, Some code) →
            code = 0 ∧ all_allocated e ∧ 1 <= ngenerations_of argv) as Hinv.
  { intros tr code H. unfold main in H. cbv zeta in H.
    apply run_bind_inv in H as (? & tr1 & _ & H).
    apply run_bind_inv in H as (pboard & tr2 & Hm & H).
    apply deref_inv, alloc_inv in Hm.
    apply run_bind_inv in H as ([pboard' calls] & tr3 & _ & H).
    apply run_bind_inv in H as (text & tr4 & _ & H).
    apply run_bind_inv in H as (? & tr5 & _ & H).
    apply run_bind_inv in H as (dev0 & tr6 & Hc0 & H).
    apply deref_inv, alloc_inv in Hc0.
    apply run_bind_inv in H as (dev1 & tr7 & Hc1 & H).
    apply deref_inv, alloc_inv in Hc1.
    apply run_bind_inv in H as (st & tr8 & Hloop & H).
    apply run_bind_inv in H as (pcurr & tr9 & Hp & H).
    apply deref_inv in Hp.
    apply run_bind_inv in H as (text' & tr10 & _ & H).
    apply run_bind_inv in H as (? & tr11 & _ & H).
    apply run_bind_inv in H as (? & tr12 & _ & H).
    unfold mret, run_ret in H.
    split; [congruence |]. split; [done |].
    destruct (decide (1 <= ngenerations_of argv)) as [| Hnone]; [done |].
    exfalso. unfold for_range in Hloop.
    replace (Z.to_nat (ngenerations_of argv - 0)) with 0%nat in Hloop by lia.
    cbn [for_up] in Hloop. unfold mret, run_ret in Hloop.
    assert (ls_pcurr st = None) as Hnot by (injection Hloop as _ <-; done).
    congruence. }
  split; [exact Hinv |]. intros Hfair. split.
  - intros [code Hcode].
    destruct (main PB argv e []) as [tr r] eqn:Hrun. simpl in Hcode.
    subst r. destruct (Hinv tr code eq_refl) as [_ ?]. done.
  - intros [Hall HN]. exists 0. by rewrite main_run_events.
Qed.

Lemma main_well_defined_iff_witness :
  well_defined (main false ["gol"; "7"] all_alive_run [])
  ↔ all_allocated all_alive_run ∧ 1 <= ngenerations_of ["gol"; "7"].
Proof.
  apply (main_well_defined_iff false ["gol"; "7"] all_alive_run).
  apply in_order_fair.
Defined.

(** X14.  A run that is asked for no generation, a count of 0 or below, with
    the allocations done.  The loop body never runs: the run comes to the
    statements after the loop with the banner and the initial board printed
    and no launch issued, the initial board in the host buffer and in the
    first device buffer, zeros in the second, and [pcurr] and [pnext] never
    assigned.  The first of these statements passes [pcurr] to [cudaMemcpy]:
    the use of an indeterminate pointer, where the behaviour of the C program
    is undefined and the embedding stops following the run. *)
Theorem main_runs_no_generation (PB : bool) (argv : list string)
    (e : environment) :
  all_allocated e → ngenerations_of argv <= 0 →
  ∃ (tr : list event) (st : loop_state),
    tr = [Printf_running (ngenerations_of argv);
          PrintBoard "Initial Board:" (initial_board e)
            (board_text "Initial Board:" (initial_board e))]
    ∧ st = LoopState (initial_board e)
             (Device (initial_board e) (all_dead boardW)) None None
    ∧ main PB argv e [] = main_after_loop (ngenerations_of argv) st tr
    ∧ ls_pcurr st = None
    ∧ main PB argv e [] = (tr, None).
Proof.
  intros Hall HN. eexists _, _. split; [reflexivity |].
  split; [reflexivity |].
  assert (main PB argv e []
          = main_after_loop (ngenerations_of argv)
              (LoopState (initial_board e)
                 (Device (initial_board e) (all_dead boardW)) None None)
              [Printf_running (ngenerations_of argv);
               PrintBoard "Initial Board:" (initial_board e)
                 (board_text "Initial Board:" (initial_board e))]) as Hrun.
  { rewrite main_before_loop by done.
    unfold for_range.
    replace (Z.to_nat (ngenerations_of argv - 0)) with 0%nat by lia.
    cbn [for_up]. erewrite run_bind_step; [| reflexivity]. reflexivity. }
  split; [exact Hrun |]. split; [reflexivity |].
  rewrite Hrun. unfold main_after_loop. cbn [ls_pcurr].
  apply run_bind_deref_None.
Qed.

Lemma main_runs_no_generation_witness :
  ∃ (tr : list event) (st : loop_state),
    tr = [Printf_running (ngenerations_of ["gol"; "-3"]);
          PrintBoard "Initial Board:" (initial_board all_alive_run)
            (board_text "Initial Board:" (initial_board all_alive_run))]
    ∧ st = LoopState (initial_board all_alive_run)
             (Device (initial_board all_alive_run) (all_dead boardW))
             None None
    ∧ main false ["gol"; "-3"] all_alive_run []
      = main_after_loop (ngenerations_of ["gol"; "-3"]) st tr
    ∧ ls_pcurr st = None
    ∧ main false ["gol"; "-3"] all_alive_run [] = (tr, None).
Proof.
  apply (main_runs_no_generation false ["gol"; "-3"] all_alive_run).
  - done.
  - by vm_compute.
Defined.

(** X15.  The two buffers of the generation loop: after [k >= 1] turns from
    a board [b] in the first buffer, [pnext] points to the buffer with [b]
    after [k] generations and [pcurr] to the other buffer, which holds [b]
    after [k - 1] generations; no turn fails and the buffers keep their
    size. *)
Theorem generation_loop_alternates (PB : bool) (e : environment) (k : Z)
    (st : loop_state) (tr : list event) :
  fair e → sized st → 1 <= k →
  ∃ tr' st' pcurr pnext,
    for_range 0 k (generation_body PB e) st tr = (tr', Some st')
    ∧ sized st'
    ∧ ls_pcurr st' = Some pcurr ∧ ls_pnext st' = Some pnext
    ∧ pcurr ≠ pnext
    ∧ pnext = (if Z.even k then pDevBoard0 else pDevBoard1)
    ∧ buf (ls_dev st') pnext
      = Nat.iter (Z.to_nat k) (generation boardW) (board0 (ls_dev st))
    ∧ buf (ls_dev st') pcurr
      = Nat.iter (Z.to_nat k - 1) (generation boardW) (board0 (ls_dev st)).
Proof.
  intros Hfair Hsized Hk. unfold for_range.
  replace (Z.to_nat (k - 0)) with (Z.to_nat k) by lia.
  destruct (Z.to_nat k) as [| j] eqn:Hj; [lia |].
  destruct (generation_loop PB e (S j) Hfair 0 st tr (Z.le_refl 0) Hsized)
    as [tr' [st' [Hrun [Hsized' [Hnew [Hpc [Hpn [Hprev _]]]]]]]].
  change (buf (ls_dev st) (ptr_at 0)) with (board0 (ls_dev st)) in *.
  exists tr', st', (ptr_at (0 + Z.of_nat j)), (ptr_at (0 + Z.of_nat (S j))).
  split; [exact Hrun |]. split; [done |]. split; [done |]. split; [done |].
  split.
  { replace (0 + Z.of_nat (S j)) with (0 + Z.of_nat j + 1) by lia.
    intros Heq. symmetry in Heq. revert Heq. apply ptr_at_succ. lia. }
  split.
  { replace (0 + Z.of_nat (S j)) with k by lia. unfold ptr_at.
    rewrite Z.rem_mod_nonneg by lia. by rewrite Zeven_mod. }
  split; [done |]. by replace (S j - 1)%nat with j by lia.
Qed.

Lemma generation_loop_alternates_witness :
  ∃ tr' st' pcurr pnext,
    for_range 0 3 (generation_body false all_alive_run)
      (LoopState (all_dead boardW)
         (Device (all_dead boardW) (all_dead boardW)) None None) []
    = (tr', Some st')
    ∧ sized st'
    ∧ ls_pcurr st' = Some pcurr ∧ ls_pnext st' = Some pnext
    ∧ pcurr ≠ pnext
    ∧ pnext = (if Z.even 3 then pDevBoard0 else pDevBoard1)
    ∧ buf (ls_dev st') pnext
      = Nat.iter (Z.to_nat 3) (generation boardW)
          (board0 (ls_dev (LoopState (all_dead boardW)
             (Device (all_dead boardW) (all_dead boardW)) None None)))
    ∧ buf (ls_dev st') pcurr
      = Nat.iter (Z.to_nat 3 - 1) (generation boardW)
          (board0 (ls_dev (LoopState (all_dead boardW)
             (Device (all_dead boardW) (all_dead boardW)) None None))).
Proof.
  apply (generation_loop_alternates false all_alive_run 3
           (LoopState (all_dead boardW)
              (Device (all_dead boardW) (all_dead boardW)) None None) []).
  - apply in_order_fair.
  - unfold sized, all_dead. cbn [ls_pboard ls_dev board0 board1].
    rewrite length_replicate. pose proof board_side_pos. repeat split; nia.
  - lia.
Defined.

(** ** The host functions on boards wider than high *)

(** A loop that ends has run every turn, on a state that the turns before
    it left. *)
Lemma for_up_turns {St : Type} (Inv : St → Prop)
    (body : Z → St → option St) (count : nat) (lo : Z) (s s' : St) :
  Inv s →
  (∀ i s s1, Inv s → body i s = Some s1 → Inv s1) →
  for_up count lo body s = Some s' →
  Inv s'
  ∧ ∀ i, lo <= i < lo + Z.of_nat count →
         ∃ si si', Inv si ∧ body i si = Some si'.
Proof.
  intros Hs Hkeep. revert lo s Hs.
  induction count as [| k IH]; intros lo s Hs Hrun.
  - simpl in Hrun. injection Hrun as <-. split; [done | intros; lia].
  - simpl in Hrun. destruct (body lo s) as [s1 |] eqn:Hbody; [| done].
    simpl in Hrun.
    destruct (IH (lo + 1) s1 (Hkeep _ _ _ Hs Hbody) Hrun) as [Hs' Hturns].
    split; [done |]. intros i Hi.
    destruct (decide (i = lo)) as [-> | Hne]; [by exists s, s1 |].
    apply Hturns. lia.
Qed.

(** X16.  On a board wider than high ([nrows < ncols]) both host functions
    run off the buffer of [nrows * ncols] cells: [randomizeBoard] writes
    and [printBoard] reads at [x * ncols + y] for every [x < ncols] and
    [y < nrows], and the last of these indices lies beyond the buffer. *)
Theorem host_functions_leave_wide_board (nrows ncols : Z) (d : nat → bool)
    (msg : string) (pboard : list ubyte) (calls : nat) :
  0 < nrows → nrows < ncols → ncols * ncols <= INT_MAX →
  Z.of_nat (length pboard) = nrows * ncols →
  randomizeBoard d pboard nrows ncols calls = None
  ∧ printBoard msg pboard nrows ncols = None.
Proof.
  intros Hr Hwide Hmax Hlen.
  assert (∀ x y, 0 <= x < ncols → 0 <= y < nrows →
            int_add (int_mul x ncols) y = x * ncols + y) as Hidx.
  { intros x y Hx Hy. unfold INT_MAX in *.
    assert (0 <= x * ncols <= ncols * ncols) by nia.
    rewrite int_mul_id by (unfold INT_MIN, INT_MAX; lia).
    apply int_add_id. unfold INT_MIN, INT_MAX. nia. }
  assert (nrows * ncols <= (ncols - 1) * ncols + (nrows - 1)) as Hlast by nia.
  split.
  - destruct (randomizeBoard d pboard nrows ncols calls) as [st' |] eqn:Hrun;
      [exfalso | done].
    unfold randomizeBoard, for_range in Hrun.
    set (Inv := λ st : list ubyte * nat,
                  Z.of_nat (length st.1) = nrows * ncols).
    assert (∀ x y (st st1 : list ubyte * nat),
              Inv st →
              (let '(b, k) := st in
               b' ← wr b (int_add (int_mul x ncols) y)
                      (if d k then x01 else x00);
               Some (b', S k)) = Some st1 → Inv st1) as Hcell.
    { intros x y [b k] st1 Hb H.
      destruct (wr b _ _) as [b' |] eqn:Hwr; [| done].
      simpl in H. injection H as <-. unfold Inv in *. simpl in *.
      by rewrite (wr_length _ _ _ _ Hwr). }
    assert (∀ x (st st1 : list ubyte * nat),
              Inv st →
              for_up (Z.to_nat (nrows - 0)) 0
                (λ y '(b, k),
                   b' ← wr b (int_add (int_mul x ncols) y)
                          (if d k then x01 else x00);
                   Some (b', S k)) st = Some st1 → Inv st1) as Hrow.
    { intros x st st1 Hst Hline.
      by destruct (for_up_turns Inv _ _ _ _ _ Hst (Hcell x) Hline). }
    assert (Inv (pboard, calls)) as Hstart by exact Hlen.
    destruct (for_up_turns Inv _ _ _ _ _ Hstart Hrow Hrun) as [_ Hturns].
    destruct (Hturns (ncols - 1)) as [sx [sx' [Hsx Hline]]]; [lia |].
    destruct (for_up_turns Inv _ _ _ _ _ Hsx (Hcell (ncols - 1)) Hline)
      as [_ Hcells].
    destruct (Hcells (nrows - 1)) as [[b k] [sy' [Hsy Hwrite]]]; [lia |].
    rewrite Hidx in Hwrite by lia.
    destruct (wr b _ _) as [b' |] eqn:Hwr; [| done].
    assert (is_Some (wr b ((ncols - 1) * ncols + (nrows - 1))
                       (if d k then x01 else x00))) as Hsome
      by (by eexists).
    apply wr_is_Some in Hsome. unfold Inv in Hsy. simpl in Hsy. lia.
  - destruct (printBoard msg pboard nrows ncols) as [text |] eqn:Hrun;
      [exfalso | done].
    unfold printBoard, for_range in Hrun.
    destruct (for_up_turns (λ _ : string, True) _ _ _ _ _ I
                (λ _ _ _ _ _, I) Hrun) as [_ Hturns].
    destruct (Hturns (ncols - 1)) as [out [out' [_ Hline]]]; [lia |].
    destruct (for_up (Z.to_nat (nrows - 0)) 0 _ out) as [line |] eqn:Hcells;
      [| done].
    destruct (for_up_turns (λ _ : string, True) _ _ _ _ _ I
                (λ _ _ _ _ _, I) Hcells) as [_ Hreads].
    destruct (Hreads (nrows - 1)) as [o [o' [_ Hread]]]; [lia |].
    rewrite Hidx in Hread by lia. rewrite rd_beyond in Hread by lia.
    done.
Qed.

Lemma host_functions_leave_wide_board_witness :
  randomizeBoard (λ _, true) (replicate 6 x00) 2 3 0 = None
  ∧ printBoard "Board:" (replicate 6 x00) 2 3 = None.
Proof.
  apply (host_functions_leave_wide_board 2 3 (λ _, true) "Board:"
           (replicate 6 x00) 0).
  - lia.
  - lia.
  - vm_compute. discriminate.
  - reflexivity.
Defined.

(** ** The two axes *)

Lemma transpose_length (n : Z) (b : list ubyte) :
  length (transpose n b) = Z.to_nat (n * n).
Proof. unfold transpose. by rewrite length_fmap, length_seq. Qed.

Lemma transpose_lookup (n : Z) (b : list ubyte) (x y : Z) :
  0 < n → in_range n n x y →
  transpose n b !! Z.to_nat (x * n + y) = Some (cell b n y x).
Proof.
  intros Hpos Hin.
  pose proof (flat_index_bound n n x y (Z.le_refl n) Hin).
  destruct Hin as [Hx Hy]. unfold transpose.
  rewrite list_lookup_fmap, lookup_seq_lt by lia. simpl.
  rewrite Z2Nat.id by lia.
  replace ((x * n + y) / n) with x by (apply Z.div_unique with y; lia).
  replace ((x * n + y) mod n) with y by (apply Z.mod_unique with x; lia).
  done.
Qed.

Lemma guarded_transpose (n : Z) (b : list ubyte) (x y : Z) :
  0 < n → guarded (transpose n b) n n x y = guarded b n n y x.
Proof.
  intros Hpos.
  destruct (decide (in_range n n x y)) as [Hin | Hout].
  - assert (in_range n n y x) as Hin' by (unfold in_range in *; lia).
    rewrite !guarded_inside by done.
    unfold cell at 1. by rewrite transpose_lookup.
  - assert (¬ in_range n n y x) as Hout' by (unfold in_range in *; lia).
    by rewrite !guarded_outside.
Qed.

Lemma generation_transpose (n : Z) (b : list ubyte) :
  0 < n →
  generation n (transpose n b) = transpose n (generation n b).
Proof.
  intros Hpos. apply (board_eq_cells n); [done | | |].
  - rewrite generation_length. nia.
  - rewrite transpose_length. nia.
  - intros x y Hin.
    assert (in_range n n y x) as Hin' by (unfold in_range in *; lia).
    rewrite (generation_lookup n Hpos), transpose_lookup by done.
    unfold cell at 2. rewrite (generation_lookup n Hpos) by done. simpl.
    unfold cell at 1. rewrite transpose_lookup by done. simpl.
    do 2 f_equal. unfold neighbor_sum.
    rewrite !guarded_transpose by done. lia.
Qed.

(** X17.  The rules treat the two axes alike: a launch on the transposed
    board leaves the transposed new board. *)
Theorem launch_commutes_with_transpose (n : Z) (s1 s2 : schedule)
    (m1 m2 : device) (pcurr pnext : devptr) :
  0 < n → n * n <= INT_MAX → (BLOCK_SIDE | n) →
  pcurr ≠ pnext →
  valid_schedule (grid_of n) (Dim3 BLOCK_SIDE BLOCK_SIDE) s1 →
  valid_schedule (grid_of n) (Dim3 BLOCK_SIDE BLOCK_SIDE) s2 →
  Z.of_nat (length (buf m1 pcurr)) = n * n →
  Z.of_nat (length (buf m1 pnext)) = n * n →
  Z.of_nat (length (buf m2 pnext)) = n * n →
  buf m2 pcurr = transpose n (buf m1 pcurr) →
  ∃ m1' m2',
    launch s1 (simstep n n pcurr pnext) m1 = Some m1'
    ∧ launch s2 (simstep n n pcurr pnext) m2 = Some m2'
    ∧ buf m2' pnext = transpose n (buf m1' pnext).
Proof.
  intros Hpos Hint Hblocks Hne Hs1 Hs2 H1c H1n H2n Htr.
  exists (set_buf m1 pnext (generation n (buf m1 pcurr))),
    (set_buf m2 pnext (generation n (buf m2 pcurr))).
  split; [by apply launch_generation |]. split.
  - apply launch_generation; try done.
    rewrite Htr, transpose_length. nia.
  - rewrite !buf_set_buf_eq, Htr. by apply generation_transpose.
Qed.

Lemma launch_commutes_with_transpose_witness :
  ∃ m1' m2',
    launch (threads (grid_of 16) (Dim3 BLOCK_SIDE BLOCK_SIDE))
      (simstep 16 16 pDevBoard0 pDevBoard1)
      (Device (board_of 16 (blinker Along_y 5 9)) (replicate 256 x00))
    = Some m1'
    ∧ launch (threads (grid_of 16) (Dim3 BLOCK_SIDE BLOCK_SIDE))
        (simstep 16 16 pDevBoard0 pDevBoard1)
        (Device (transpose 16 (board_of 16 (blinker Along_y 5 9)))
           (replicate 256 x00))
      = Some m2'
    ∧ buf m2' pDevBoard1 = transpose 16 (buf m1' pDevBoard1).
Proof.
  apply (launch_commutes_with_transpose 16
           (threads (grid_of 16) (Dim3 BLOCK_SIDE BLOCK_SIDE))
           (threads (grid_of 16) (Dim3 BLOCK_SIDE BLOCK_SIDE))
           (Device (board_of 16 (blinker Along_y 5 9)) (replicate 256 x00))
           (Device (transpose 16 (board_of 16 (blinker Along_y 5 9)))
              (replicate 256 x00))
           pDevBoard0 pDevBoard1).
  - lia.
  - vm_compute. discriminate.
  - exists 1. reflexivity.
  - discriminate.
  - apply Permutation_refl.
  - apply Permutation_refl.
  - reflexivity.
  - reflexivity.
  - reflexivity.
  - reflexivity.
Defined.
